(** * AlertSender: the Amazon job monitor, token lifecycle and polling loop

    A shallow embedding of the JavaScript monitor
    ([auto-token-monitor.js], [token-extractor.js] and the older variants
    of the monitor script) together with the properties of its
    token lifecycle, poll/dedup cycle and alert dispatcher.

    Strings are Rocq strings, instants are integers (milliseconds since the
    epoch, as [Date.getTime()] gives them), the [Set] of seen job ids is a
    duplicate-free list in insertion order, and everything the process
    talks to (browser, listings API, Telegram) is an oracle indexed by the
    number of calls made so far. *)

From Stdlib Require Import ZArith List String Ascii Bool Arith Lia DecimalString.
Import ListNotations.

Set Warnings "-register-all".
Open Scope string_scope.
Open Scope Z_scope.

(** ** Values exchanged with the outside world *)

(** What [JSON.parse] yields. Numbers are restricted to integers: the only
    number the monitor reads is the [exp] claim, a NumericDate. *)
Inductive json : Type :=
| JNull
| JBool (b : bool)
| JNumber (n : Z)
| JString (s : string)
| JArray (items : list json)
| JObject (fields : list (string * json)).

(** The errors the scripts throw or receive from the runtime. *)
Inductive error : Type :=
| SyntaxError            (* JSON.parse / response.json() on malformed text *)
| TypeError              (* property access on null *)
| RangeError             (* toISOString() of an invalid Date *)
| NetworkError           (* fetch rejects *)
| LaunchError            (* puppeteer.launch rejects *)
| NavigationError        (* page.goto rejects *)
| NoJwtFound             (* 'No JWT token found in localStorage or sessionStorage' *)
| UnableToGetValidToken  (* 'Unable to get a valid token after 4 attempts' *)
| NoAuthToken            (* 'No auth token available' *)
| HttpError (status : Z) (* 'HTTP error! status: ...' *)
| ApiError               (* 'API Error: ...' *)
| FailedToObtainToken.   (* 'Failed to obtain valid token after 3 attempts' *)

(** Completion of a pure piece of JavaScript: a value, or a thrown error. *)
Inductive completion (A : Type) : Type :=
| Normal (a : A)
| Abrupt (e : error).
Arguments Normal {A} a.
Arguments Abrupt {A} e.

Definition try_pure {A} (c : completion A) (handler : error -> completion A)
  : completion A :=
  match c with
  | Normal a => Normal a
  | Abrupt e => handler e
  end.

(** ** String helpers: [String.prototype.split] on a one-character separator *)

Fixpoint split (sep : ascii) (s : string) : list string :=
  match s with
  | EmptyString => [EmptyString]
  | String c rest =>
      if Ascii.eqb c sep then EmptyString :: split sep rest
      else match split sep rest with
           | hd :: tl => String c hd :: tl
           | [] => [String c EmptyString]
           end
  end.

Fixpoint lacks (sep : ascii) (s : string) : bool :=
  match s with
  | EmptyString => true
  | String c rest => negb (Ascii.eqb c sep) && lacks sep rest
  end.

Definition dot : ascii := "."%char.

(** ** [decodeJWT] (auto-token-monitor.js, lines 183-195) *)

Section DecodeJWT.

(** Node built-ins, taken as they are: [Buffer.from(s, 'base64')
    .toString('utf8')] never throws, [JSON.parse] throws a SyntaxError on
    text that is not JSON ([None] here). *)
Variable base64_utf8 : string -> string.
Variable JSON_parse : string -> option json.

(** The body of the [try] block. *)
Definition decodeJWT_body (token : string) : completion json :=
  let parts := split dot token in
  if negb (Nat.eqb (List.length parts) 3) then Normal JNull
  else
    match JSON_parse (base64_utf8 (nth 1 parts EmptyString)) with
    | Some payload => Normal payload
    | None => Abrupt SyntaxError
    end.

(** [try { ... } catch (error) { console.error(...); return null; }] *)
Definition decodeJWT (token : string) : completion json :=
  try_pure (decodeJWT_body token) (fun _ => Normal JNull).

(** A token has three segments when it reads [a.b.c] with no further dot. *)
Definition three_segments (token a b c : string) : Prop :=
  token = a ++ String dot (b ++ String dot c)
  /\ lacks dot a = true /\ lacks dot b = true /\ lacks dot c = true.

End DecodeJWT.

(** ** The world around the process *)

(** A job card of the listings API; only the fields the monitor's control
    flow reads (the others are used for message formatting alone). *)
Record Job : Type := { jobId : string; jobTitle : string }.

(** The outcome of a [fetch]: the promise rejects, or a response arrives. *)
Inductive HttpReply (Body : Type) : Type :=
| NoReply
| Reply (status : Z) (body : Body).
Arguments NoReply {Body}.
Arguments Reply {Body} status body.

(** [response.ok] *)
Definition ok (status : Z) : bool := (200 <=? status) && (status <=? 299).

(** The body of a listings response, by what [fetchAmazonJobs] does with it. *)
Inductive ListingsBody : Type :=
| Unparsable                                (* response.json() rejects *)
| WithErrors                                (* data.errors is set *)
| WithoutData                               (* no data.searchJobCardsByLocation *)
| WithJobCards (jobCards : option (list Job)).  (* jobCards, possibly null *)

(** The body of a Telegram sendMessage response. *)
Inductive TelegramBody : Type :=
| TgUnparsable
| TgResult (ok_field : bool).

(** What a visit of the hiring page gives: the navigation fails, or the page
    loads and its two storages can be read. *)
Inductive PageVisit : Type :=
| GotoFails
| Loaded (localStorage sessionStorage : list (string * string)).

(** The environment: the n-th call of each kind receives the n-th answer. *)
Record Env : Type := {
  launch_ok : nat -> bool;
  visit : nat -> PageVisit;
  listings : nat -> HttpReply ListingsBody;
  probe : nat -> HttpReply unit;
  telegram : nat -> HttpReply TelegramBody;
  TELEGRAM_BOT_TOKEN : string;
  TELEGRAM_CHANNEL_ID : string
}.

(** Every interaction with the outside is recorded, newest first. *)
Inductive effect : Type :=
| Launched (succeeded : bool)
| Closed
| Visited (page : PageVisit)
| Waited (ms : Z)
| Probed (token : string) (reply : HttpReply unit)
| Fetched (token : string) (at_ms : Z) (expiry : option Z)
          (reply : HttpReply ListingsBody)
| Scheduled (job : Job) (token : string)
| Sent (job : Job) (reply : HttpReply TelegramBody).

(** The globals of the script, the wall clock and the record of effects. *)
Record State : Type := {
  seenJobIds : list string;
  currentAuthToken : option string;
  tokenExpiryTime : option Z;
  browser : bool;            (* browser and page are both set *)
  clock : Z;
  trace : list effect
}.

Definition is_Launched (e : effect) : bool :=
  match e with Launched _ => true | _ => false end.
Definition is_Visited (e : effect) : bool :=
  match e with Visited _ => true | _ => false end.
Definition is_Probed (e : effect) : bool :=
  match e with Probed _ _ => true | _ => false end.
Definition is_Fetched (e : effect) : bool :=
  match e with Fetched _ _ _ _ => true | _ => false end.
Definition is_Sent (e : effect) : bool :=
  match e with Sent _ _ => true | _ => false end.

Definition count (p : effect -> bool) (s : State) : nat :=
  List.length (filter p (trace s)).
Definition launches : State -> nat := count is_Launched.
Definition visits : State -> nat := count is_Visited.
Definition probes : State -> nat := count is_Probed.
Definition fetches : State -> nat := count is_Fetched.
Definition sends : State -> nat := count is_Sent.

Definition emit (e : effect) (s : State) : State :=
  {| seenJobIds := seenJobIds s; currentAuthToken := currentAuthToken s;
     tokenExpiryTime := tokenExpiryTime s; browser := browser s;
     clock := clock s; trace := e :: trace s |}.
Definition set_browser (b : bool) (s : State) : State :=
  {| seenJobIds := seenJobIds s; currentAuthToken := currentAuthToken s;
     tokenExpiryTime := tokenExpiryTime s; browser := b;
     clock := clock s; trace := trace s |}.
Definition set_token (token : option string) (s : State) : State :=
  {| seenJobIds := seenJobIds s; currentAuthToken := token;
     tokenExpiryTime := tokenExpiryTime s; browser := browser s;
     clock := clock s; trace := trace s |}.
Definition set_expiry (expiry : option Z) (s : State) : State :=
  {| seenJobIds := seenJobIds s; currentAuthToken := currentAuthToken s;
     tokenExpiryTime := expiry; browser := browser s;
     clock := clock s; trace := trace s |}.
Definition set_seen (seen : list string) (s : State) : State :=
  {| seenJobIds := seen; currentAuthToken := currentAuthToken s;
     tokenExpiryTime := tokenExpiryTime s; browser := browser s;
     clock := clock s; trace := trace s |}.
Definition advance (ms : Z) (s : State) : State :=
  {| seenJobIds := seenJobIds s; currentAuthToken := currentAuthToken s;
     tokenExpiryTime := tokenExpiryTime s; browser := browser s;
     clock := clock s + ms; trace := trace s |}.

(** ** The monad of the scripts: state, exceptions and fuel *)

Inductive result (A : Type) : Type :=
| Ret (a : A) (s : State)
| Throw (e : error) (s : State)
| OutOfFuel.
Arguments Ret {A} a s.
Arguments Throw {A} e s.
Arguments OutOfFuel {A}.

Definition M (A : Type) : Type := State -> result A.

Definition ret {A} (a : A) : M A := fun s => Ret a s.
Definition throw {A} (e : error) : M A := fun s => Throw e s.
Definition bind {A B} (m : M A) (k : A -> M B) : M B :=
  fun s => match m s with
           | Ret a s' => k a s'
           | Throw e s' => Throw e s'
           | OutOfFuel => OutOfFuel
           end.
Definition try_catch {A} (m : M A) (handler : error -> M A) : M A :=
  fun s => match m s with
           | Ret a s' => Ret a s'
           | Throw e s' => handler e s'
           | OutOfFuel => OutOfFuel
           end.
Definition gets {A} (f : State -> A) : M A := fun s => Ret (f s) s.
Definition modify (f : State -> State) : M unit := fun s => Ret tt (f s).
Definition lift {A} (c : completion A) : M A :=
  match c with
  | Normal a => ret a
  | Abrupt e => throw e
  end.

Notation "x <- m ;; k" := (bind m (fun x => k))
  (at level 61, m at next level, right associativity).
Notation "m ;; k" := (bind m (fun _ => k))
  (at level 61, right associativity).

(** [await new Promise(resolve => setTimeout(resolve, ms))]. Time passes
    through these waits only; network round trips are instantaneous. *)
Definition wait (ms : Z) : M unit :=
  modify (fun s => emit (Waited ms) (advance ms s)).

(** ** The seen set: a JavaScript [Set] in insertion order *)

Definition has (seen : list string) (id : string) : bool :=
  existsb (String.eqb id) seen.
Definition add (seen : list string) (id : string) : list string :=
  if has seen id then seen else seen ++ [id].
(** [Array.from(set).slice(-n)] *)
Definition slice_last (n : nat) (seen : list string) : list string :=
  skipn (List.length seen - n) seen.

(** ** Reading the page's storage (the callback of [page.evaluate]) *)

Definition getItem (key : string) (storage : list (string * string))
  : option string :=
  option_map snd (find (fun kv => String.eqb (fst kv) key) storage).

Definition jwt_like (value : string) : bool :=
  String.prefix "eyJ" value && (100 <? String.length value)%nat.

Definition first_jwt (storage : list (string * string)) : option string :=
  option_map snd (find (fun kv => jwt_like (snd kv)) storage).

Definition scanStorage (localStorage sessionStorage : list (string * string))
  : option string :=
  let method1 :=
    match getItem "sessionToken" localStorage with
    | Some sessionToken =>
        if String.prefix "eyJ" sessionToken then Some sessionToken else None
    | None => None
    end in
  match method1 with
  | Some token => Some token
  | None =>
      match first_jwt localStorage with
      | Some token => Some token
      | None => first_jwt sessionStorage
      end
  end.

(** ** Reading the claims

    [field] is property access ([None] is [undefined]), [truthy] the
    condition of an [if], [number] the conversion done by [x * 1000]
    ([None] is NaN) and [date] is [new Date(ms)] ([None] is the invalid
    Date, whose [toISOString()] throws). An object has one entry per key.

    [number] follows JavaScript on numbers, booleans, [null], objects and
    absent claims. JavaScript also converts a string or an array that
    spells a number (['3600' * 1000] is 3600000); [number] gives NaN
    there, so the statements that depend on the value of [exp] or [iat]
    ask for a claim that is a number ([numeric_date]) or absent. *)
Definition field (name : string) (decoded : json) : option json :=
  match decoded with
  | JObject fields =>
      option_map snd (find (fun kv => String.eqb (fst kv) name) fields)
  | _ => None
  end.

Definition truthy (value : option json) : bool :=
  match value with
  | None => false
  | Some JNull => false
  | Some (JBool b) => b
  | Some (JNumber n) => negb (n =? 0)
  | Some (JString s) => negb (String.eqb s "")
  | Some (JArray _) => true
  | Some (JObject _) => true
  end.

Definition number (value : option json) : option Z :=
  match value with
  | Some (JNumber n) => Some n
  | Some (JBool b) => Some (if b then 1 else 0)
  | Some JNull => Some 0
  | _ => None
  end.

Definition date (ms : option Z) : option Z :=
  match ms with
  | Some t => if Z.abs t <=? 8640000000000000 then Some t else None
  | None => None
  end.

(** [new Date(decoded.<name> * 1000)] *)
Definition date_claim (name : string) (decoded : json) : option Z :=
  date (option_map (fun n => n * 1000) (number (field name decoded))).

(** Comparisons of a time that may be NaN: false on NaN. *)
Definition nan_leb (x : option Z) (y : Z) : bool :=
  match x with Some a => a <=? y | None => false end.
Definition nan_ltb (x : option Z) (y : Z) : bool :=
  match x with Some a => a <? y | None => false end.

(** ** The monitor script

    [auto-token-monitor.js] and its copy for the US site differ in a few
    constants and in three pieces of logic; one definition covers both. *)

Record Variant : Type := {
  settle_ms : Z;              (* wait after page.goto *)
  guards_expiry : bool;       (* extractAuthToken revisits on a short-lived token *)
  refresh_margin : Z;         (* isTokenExpired: how long before expiry *)
  MAX_JOBS_PER_ALERT : nat;
  cooldown_ms : Z;            (* wait after a 429 of Telegram *)
  trims_seen : bool;          (* pollForJobs keeps the last 500 ids beyond 1000 *)
  clear_timer : bool          (* startMonitoring clears the seen set every 30 s *)
}.

(** auto-token-monitor.js *)
Definition auto_token_monitor : Variant :=
  {| settle_ms := 15000; guards_expiry := true;
     refresh_margin := 10 * 60 * 1000; MAX_JOBS_PER_ALERT := 999;
     cooldown_ms := 10000; trims_seen := false; clear_timer := true |}.

(** The copy for hiring.amazon.com (third script of the unnamed part). *)
Definition us_monitor : Variant :=
  {| settle_ms := 10000; guards_expiry := false;
     refresh_margin := 5 * 60 * 1000; MAX_JOBS_PER_ALERT := 5;
     cooldown_ms := 60000; trims_seen := true; clear_timer := false |}.

Definition maxRetries : nat := 3.

(** The periodic tasks registered by [startMonitoring]. *)
Inductive timer : Type :=
| PollTimer      (* every POLLING_INTERVAL *)
| RefreshTimer   (* every TOKEN_REFRESH_INTERVAL *)
| HealthTimer    (* every 5 minutes *)
| ClearTimer.    (* every 30 seconds *)

Section Monitor.

Variable base64_utf8 : string -> string.
Variable JSON_parse : string -> option json.
Variable v : Variant.
Variable env : Env.

(** [initializeBrowser]: puppeteer.launch, newPage, setUserAgent; the
    error is logged and thrown again. [launch_ok] tells whether the three
    calls succeed together; a launch that succeeds before [newPage] fails,
    which would leave [browser] set without a page, is not told apart from
    a launch that fails. *)
Definition initializeBrowser : M unit :=
  fun s =>
    let launched := launch_ok env (launches s) in
    let s' := emit (Launched launched) s in
    if launched then Ret tt (set_browser true s')
    else Throw LaunchError s'.

(** [page.goto(AMAZON_WEBSITE_URL, ...)] followed, after the settle wait,
    by [page.evaluate]; [page] is null before the first launch. *)
Definition goto : M PageVisit :=
  fun s =>
    if negb (browser s) then Throw TypeError s
    else
      let page := visit env (visits s) in
      let s' := emit (Visited page) s in
      match page with
      | GotoFails => Throw NavigationError s'
      | Loaded _ _ => Ret page s'
      end.

Definition evaluate (page : PageVisit) : option string :=
  match page with
  | GotoFails => None
  | Loaded localStorage sessionStorage =>
      scanStorage localStorage sessionStorage
  end.

(** [testToken]: the outcome is logged in every branch, nothing else. *)
Definition testToken (token : string) : M unit :=
  fun s =>
    let reply := probe env (probes s) in
    let s' := emit (Probed token reply) s in
    match reply with
    | NoReply => Ret tt s'                      (* catch: 'Error testing token' *)
    | Reply status _ =>
        if ok status then Ret tt s'             (* 'Token is valid and working!' *)
        else if status =? 403 then Ret tt s'    (* 'may need specific query format' *)
        else Ret tt s'                          (* 'Token test failed' *)
    end.

(** [currentAuthToken = token; tokenExpiryTime = expiryDate;] *)
Definition install (token : string) (expiryDate : Z) : M unit :=
  modify (fun s => set_expiry (Some expiryDate) (set_token (Some token) s)).

(** [extractAuthToken(retryCount)]. The recursion of the script is on
    [retryCount]; [budget] bounds it here. *)
Fixpoint extractAuthToken_from (budget : nat) (retryCount : nat) : M string :=
  match budget with
  | O => fun _ => OutOfFuel
  | S budget' =>
      try_catch
        (page <- goto ;;
         wait (settle_ms v) ;;
         match evaluate page with
         | None => throw NoJwtFound
         | Some token =>
             if String.eqb token "" then throw NoJwtFound
             else
               decoded <- lift (decodeJWT base64_utf8 JSON_parse token) ;;
               if truthy (Some decoded) && truthy (field "exp" decoded) then
                 now <- gets clock ;;
                 let expiryDate := date_claim "exp" decoded in
                 let timeLeft := option_map (fun t => t - now) expiryDate in
                 (* the results are printed with toISOString() of the two
                    dates, then the token is installed and tested *)
                 let accept :=
                   match date_claim "iat" decoded, expiryDate with
                   | Some _, Some expiry =>
                       install token expiry ;;
                       testToken token ;;
                       ret token
                   | _, _ => throw RangeError
                   end in
                 let revisit :=
                   wait 30000 ;;
                   extractAuthToken_from budget' (S retryCount) in
                 if guards_expiry v then
                   if nan_leb timeLeft 0 then
                     if (retryCount <? maxRetries)%nat then revisit
                     else throw UnableToGetValidToken
                   else if nan_ltb timeLeft (5 * 60 * 1000) then
                     if (retryCount <? maxRetries)%nat then revisit
                     else accept        (* 'Using short-lived token as fallback' *)
                   else accept
                 else accept
               else
                 now <- gets clock ;;
                 install token (now + 59 * 60 * 1000) ;;
                 ret token
         end)
        (fun e => throw e)
  end.

(** The callers pass no argument ([retryCount] is 0), and the recursion
    stops at [maxRetries]; the budget covers every [retryCount] up to
    [maxRetries]. *)
Definition extractAuthToken (retryCount : nat) : M string :=
  extractAuthToken_from (S maxRetries - retryCount) retryCount.

(** [isTokenExpired]: an absent (or empty) token or expiry counts as
    expired. *)
Definition isTokenExpired (s : State) : bool :=
  match currentAuthToken s, tokenExpiryTime s with
  | Some token, Some expiry =>
      if String.eqb token "" then true
      else expiry - refresh_margin v <? clock s
  | _, _ => true
  end.

(** [refreshAuthToken] *)
Definition refreshAuthToken : M string :=
  try_catch
    (ready <- gets browser ;;
     (if negb ready then initializeBrowser else ret tt) ;;
     extractAuthToken 0)
    (fun e => throw e).

(** The POST of the listings query with the current token. *)
Definition postListings (token : string) : M (Z * ListingsBody) :=
  fun s =>
    let reply := listings env (fetches s) in
    let s' := emit (Fetched token (clock s) (tokenExpiryTime s) reply) s in
    match reply with
    | NoReply => Throw NetworkError s'
    | Reply status body => Ret (status, body) s'
    end.

(** [fetchAmazonJobs]; the script calls itself after a 401. *)
Fixpoint fetchAmazonJobs (fuel : nat) : M (list Job) :=
  match fuel with
  | O => fun _ => OutOfFuel
  | S fuel' =>
      try_catch
        (expired <- gets isTokenExpired ;;
         (if expired then (_ <- refreshAuthToken ;; ret tt) else ret tt) ;;
         current <- gets currentAuthToken ;;
         match current with
         | None => throw NoAuthToken
         | Some token =>
             if String.eqb token "" then throw NoAuthToken
             else
               response <- postListings token ;;
               let '(status, body) := response in
               if negb (ok status) then
                 if status =? 401 then
                   _ <- refreshAuthToken ;;
                   fetchAmazonJobs fuel'
                 else throw (HttpError status)
               else
                 match body with
                 | Unparsable => throw SyntaxError
                 | WithErrors => throw ApiError
                 | WithoutData => ret []
                 | WithJobCards None => ret []
                 | WithJobCards (Some jobs) => ret jobs
                 end
         end)
        (fun _ => ret [])
  end.

(** The POST of one message to Telegram. *)
Definition postMessage (job : Job) : M (Z * TelegramBody) :=
  fun s =>
    let reply := telegram env (sends s) in
    let s' := emit (Sent job reply) s in
    match reply with
    | NoReply => Throw NetworkError s'
    | Reply status body => Ret (status, body) s'
    end.

(** The [for] loop of [sendTelegramAlert], from index [i]. After a 429
    the index is decremented and incremented again, so it stays. *)
Fixpoint sendLoop (fuel : nat) (jobs : list Job) (i : nat) : M unit :=
  match fuel with
  | O => fun _ => OutOfFuel
  | S fuel' =>
      match nth_error jobs i with
      | Some job =>
          if (i <? MAX_JOBS_PER_ALERT v)%nat then
            response <- postMessage job ;;
            let '(status, body) := response in
            if status =? 429 then
              wait (cooldown_ms v) ;;
              sendLoop fuel' jobs i
            else if negb (ok status) then
              sendLoop fuel' jobs (S i)
            else
              match body with
              | TgUnparsable => throw SyntaxError
              | TgResult _ =>
                  (if (i <? List.length jobs - 1)%nat
                      && (i <? MAX_JOBS_PER_ALERT v - 1)%nat
                   then wait 2000 else ret tt) ;;
                  sendLoop fuel' jobs (S i)
              end
          else ret tt
      | None => ret tt
      end
  end.

(** [sendTelegramAlert] *)
Definition sendTelegramAlert (fuel : nat) (jobs : list Job) : M unit :=
  try_catch
    (if String.eqb (TELEGRAM_BOT_TOKEN env) ""
        || String.eqb (TELEGRAM_CHANNEL_ID env) ""
     then ret tt
     else sendLoop fuel jobs 0)
    (fun _ => ret tt).

(** [jobs.filter(job => !seenJobIds.has(job.jobId))] *)
Definition unseen (seen : list string) (jobs : list Job) : list Job :=
  filter (fun job => negb (has seen (jobId job))) jobs.

(** [newJobs.forEach(job => seenJobIds.add(job.jobId))] *)
Definition add_all (seen : list string) (jobs : list Job) : list string :=
  fold_left (fun acc job => add acc (jobId job)) jobs seen.

(** [if (seenJobIds.size > 1000) seenJobIds = new Set(array.slice(-500))] *)
Definition trim (seen : list string) : list string :=
  if (1000 <? List.length seen)%nat then slice_last 500 seen else seen.

(** [pollForJobs]. The script returns nothing; the value here is the batch
    handed to [sendTelegramAlert] in this cycle (empty when none is). *)
Definition pollForJobs (fuel : nat) : M (list Job) :=
  try_catch
    (jobs <- fetchAmazonJobs fuel ;;
     if (List.length jobs =? 0)%nat then ret []
     else
       seen <- gets seenJobIds ;;
       let newJobs := unseen seen jobs in
       if (0 <? List.length newJobs)%nat then
         modify (fun s => set_seen (add_all (seenJobIds s) newJobs) s) ;;
         sendTelegramAlert fuel newJobs ;;
         (if trims_seen v
          then modify (fun s => set_seen (trim (seenJobIds s)) s)
          else ret tt) ;;
         ret newJobs
       else ret [])
    (fun _ => ret []).

(** The callback of the 30-second timer: [seenJobIds.clear()]. *)
Definition clearSeenJobs : M unit :=
  modify (set_seen []).

(** The callback of the token refresh timer. *)
Definition refreshTick : M unit :=
  try_catch (_ <- refreshAuthToken ;; ret tt) (fun _ => ret tt).

(** One firing of a timer, run to completion. *)
Definition fire (fuel : nat) (t : timer) : M unit :=
  match t with
  | PollTimer => _ <- pollForJobs fuel ;; ret tt
  | RefreshTimer => refreshTick
  | HealthTimer => ret tt
  | ClearTimer => if clear_timer v then clearSeenJobs else ret tt
  end.

(** The serial schedule: every callback runs to its end before the next one
    starts. [setInterval] does not wait for an [async] callback, so this is
    the run of the process only as long as each callback is over before the
    next timer fires; a cycle that overlaps another one is the subject of
    [pollForJobs_begin] and [pollForJobs_end]. *)
Fixpoint run (fuel : nat) (timers : list timer) : M unit :=
  match timers with
  | [] => ret tt
  | t :: rest => fire fuel t ;; run fuel rest
  end.

(** What a call of [refreshAuthToken] does before its first [await]: an
    async function runs synchronously up to there, so the launch or the
    navigation is already under way when the caller gets the promise. *)
Definition refreshAuthToken_begin (s : State) : State :=
  if negb (browser s) then emit (Launched (launch_ok env (launches s))) s
  else emit (Visited (visit env (visits s))) s.

(** ** A poll cycle, cut at the call of the dispatcher

    [pollForJobs] adds the new ids to the seen set, then awaits
    [sendTelegramAlert] (one request to Telegram per message and two seconds
    between messages), and trims the set only afterwards. The poll timer
    fires every second whether or not the previous cycle is over, so
    another cycle can run in between. [pollForJobs_begin] is the cycle up to
    that call and returns the batch to send; [pollForJobs_end] is the rest
    of it. *)
Definition pollForJobs_begin (fuel : nat) : M (list Job) :=
  try_catch
    (jobs <- fetchAmazonJobs fuel ;;
     if (List.length jobs =? 0)%nat then ret []
     else
       seen <- gets seenJobIds ;;
       let newJobs := unseen seen jobs in
       if (0 <? List.length newJobs)%nat then
         modify (fun s => set_seen (add_all (seenJobIds s) newJobs) s) ;;
         ret newJobs
       else ret [])
    (fun _ => ret []).

Definition pollForJobs_end (fuel : nat) (newJobs : list Job) : M (list Job) :=
  if (0 <? List.length newJobs)%nat then
    try_catch
      (sendTelegramAlert fuel newJobs ;;
       (if trims_seen v
        then modify (fun s => set_seen (trim (seenJobIds s)) s)
        else ret tt) ;;
       ret newJobs)
      (fun _ => ret [])
  else ret [].

End Monitor.

(** ** token-extractor.js and the modular monitor built on it *)

Module TokenExtractor.
Section TokenExtractor.

Variable env : Env.

(** [initializeFreshBrowser]: close what is open (errors ignored), then
    launch anew. *)
Definition initializeFreshBrowser : M unit :=
  fun s =>
    let s1 := if browser s then emit Closed s else s in
    let s2 := set_browser false s1 in
    let launched := launch_ok env (launches s2) in
    let s3 := emit (Launched launched) s2 in
    if launched then Ret tt (set_browser true s3)
    else Throw LaunchError s3.

(** [extractAuthToken]: one visit, a 15-second wait, one scan. *)
Definition extractAuthToken : M string :=
  try_catch
    (page <- goto env ;;
     wait 15000 ;;
     match evaluate page with
     | None => throw NoJwtFound
     | Some token =>
         if String.eqb token "" then throw NoJwtFound else ret token
     end)
    (fun e => throw e).

(** [validateTokenWithServer]: [Some token] stands for
    [{ isValid: true, token }], [None] for [{ isValid: false, token: null }]. *)
Definition validateTokenWithServer (token : string) : M (option string) :=
  fun s =>
    let reply := probe env (probes s) in
    let s' := emit (Probed token reply) s in
    match reply with
    | NoReply => Ret None s'
    | Reply status _ =>
        if status =? 200 then Ret (Some token) s' else Ret None s'
    end.

(** The [while (attempts < maxRetries)] loop of [getValidToken]. *)
Fixpoint getValidToken_loop (fuel attempts maxRetries : nat) : M string :=
  match fuel with
  | O => fun _ => OutOfFuel
  | S fuel' =>
      if (attempts <? maxRetries)%nat then
        let attempts := S attempts in
        let pause :=
          if (attempts <? maxRetries)%nat then wait 10000 else ret tt in
        returned <-
          try_catch
            (initializeFreshBrowser ;;
             token <- extractAuthToken ;;
             validation <- validateTokenWithServer token ;;
             match validation with
             | Some valid => ret (Some valid)
             | None => pause ;; ret None
             end)
            (fun _ => pause ;; ret None) ;;
        match returned with
        | Some token => ret token
        | None => getValidToken_loop fuel' attempts maxRetries
        end
      else throw FailedToObtainToken
  end.

Definition getValidToken (maxRetries : nat) : M string :=
  getValidToken_loop (S maxRetries) 0 maxRetries.

(** [ensureValidToken] of the modular monitor. *)
Definition ensureValidToken : M string :=
  try_catch
    (current <- gets currentAuthToken ;;
     let renew :=
       token <- getValidToken 3 ;;
       modify (set_token (Some token)) ;;
       ret token in
     match current with
     | None => renew
     | Some token =>
         if String.eqb token "" then renew
         else
           validation <- validateTokenWithServer token ;;
           match validation with
           | Some _ => ret token
           | None => renew
           end
     end)
    (fun e => throw e).

(** [fetchAmazonJobs] of the modular monitor. *)
Fixpoint fetchAmazonJobs (fuel : nat) : M (list Job) :=
  match fuel with
  | O => fun _ => OutOfFuel
  | S fuel' =>
      try_catch
        (token <- ensureValidToken ;;
         response <- postListings env token ;;
         let '(status, body) := response in
         let parse :=
           match body with
           | Unparsable => throw SyntaxError
           | WithErrors => throw ApiError
           | WithoutData => ret []
           | WithJobCards None => ret []
           | WithJobCards (Some jobs) => ret jobs
           end in
         if status =? 200 then parse
         else if (status =? 401) || (status =? 403) then
           modify (set_token None) ;;
           _ <- ensureValidToken ;;
           fetchAmazonJobs fuel'
         else if negb (ok status) then throw (HttpError status)
         else parse)
        (fun _ => ret [])
  end.

(** [formatJobForTelegram] of the modular monitor asks the API for the
    schedules of the job ([fetchJobSchedules], which returns an empty list on
    any failure); the answer only shapes the text of the message. *)
Definition formatJobForTelegram (job : Job) (token : string) : M unit :=
  modify (emit (Scheduled job token)).

(** The [for] loop of [sendTelegramAlert] in the modular monitor. *)
Fixpoint sendLoop (fuel : nat) (jobs : list Job) (i : nat) : M unit :=
  match fuel with
  | O => fun _ => OutOfFuel
  | S fuel' =>
      match nth_error jobs i with
      | Some job =>
          if (i <? 999)%nat then
            token <- ensureValidToken ;;
            formatJobForTelegram job token ;;
            response <- postMessage env job ;;
            let '(status, body) := response in
            if status =? 429 then
              wait 10000 ;;
              sendLoop fuel' jobs i
            else if negb (ok status) then
              sendLoop fuel' jobs (S i)
            else
              match body with
              | TgUnparsable => throw SyntaxError
              | TgResult _ =>
                  (if (i <? List.length jobs - 1)%nat && (i <? 999 - 1)%nat
                   then wait 2000 else ret tt) ;;
                  sendLoop fuel' jobs (S i)
              end
          else ret tt
      | None => ret tt
      end
  end.

Definition sendTelegramAlert (fuel : nat) (jobs : list Job) : M unit :=
  try_catch
    (if String.eqb (TELEGRAM_BOT_TOKEN env) ""
        || String.eqb (TELEGRAM_CHANNEL_ID env) ""
     then ret tt
     else sendLoop fuel jobs 0)
    (fun _ => ret tt).

(** [pollForJobs] of the modular monitor; as for the monitor, the value is
    the batch handed to [sendTelegramAlert]. *)
Definition pollForJobs (fuel : nat) : M (list Job) :=
  try_catch
    (jobs <- fetchAmazonJobs fuel ;;
     if (List.length jobs =? 0)%nat then ret []
     else
       seen <- gets seenJobIds ;;
       let newJobs := unseen seen jobs in
       if (0 <? List.length newJobs)%nat then
         modify (fun s => set_seen (add_all (seenJobIds s) newJobs) s) ;;
         sendTelegramAlert fuel newJobs ;;
         ret newJobs
       else ret [])
    (fun _ => ret []).

End TokenExtractor.
End TokenExtractor.

(** ** Sample data used to run the model *)

(** Stand-ins for the two Node built-ins on sample tokens: the payload
    segment is taken as it is and read as the decimal [exp] claim, issued
    an hour before, so that the sample token [eyJ.240.sig] carries the
    claims [{ exp: 240, iat: -3360 }]. *)
Definition as_is (s : string) : string := s.

Definition digit (c : ascii) : option Z :=
  let n := nat_of_ascii c in
  if ((48 <=? n) && (n <=? 57))%nat then Some (Z.of_nat (n - 48)) else None.

Fixpoint decimal (acc : Z) (s : string) : option Z :=
  match s with
  | EmptyString => Some acc
  | String c rest =>
      match digit c with
      | Some d => decimal (10 * acc + d) rest
      | None => None
      end
  end.

Definition exp_only (s : string) : option json :=
  match s with
  | EmptyString => None
  | _ =>
      option_map
        (fun n => JObject [("exp", JNumber n); ("iat", JNumber (n - 3600))])
        (decimal 0 s)
  end.

Definition J1 : Job := {| jobId := "J1"; jobTitle := "Warehouse Associate" |}.
Definition J2 : Job := {| jobId := "J2"; jobTitle := "Sortation Associate" |}.
Definition J3 : Job := {| jobId := "J3"; jobTitle := "Delivery Station Associate" |}.

(** A process that has just started: nothing seen, no token, no browser. *)
Definition fresh : State :=
  {| seenJobIds := []; currentAuthToken := None; tokenExpiryTime := None;
     browser := false; clock := 0; trace := [] |}.

(** A process in steady state at instant 0: a token good for an hour and an
    open browser. *)
Definition steady (seen : list string) : State :=
  {| seenJobIds := seen; currentAuthToken := Some "eyJ.3600.sig";
     tokenExpiryTime := Some 3600000; browser := true; clock := 0;
     trace := [] |}.

(** A friendly environment: the browser launches, the page holds a token
    without readable claims, every request is answered 200. *)
Definition calm (jobs : list Job) : Env :=
  {| launch_ok := fun _ => true;
     visit := fun _ => Loaded [("sessionToken", "eyJ")] [];
     listings := fun _ => Reply 200 (WithJobCards (Some jobs));
     probe := fun _ => Reply 200 tt;
     telegram := fun _ => Reply 200 (TgResult true);
     TELEGRAM_BOT_TOKEN := "bot";
     TELEGRAM_CHANNEL_ID := "@channel" |}.

Definition with_listings (f : nat -> HttpReply ListingsBody) (e : Env) : Env :=
  {| launch_ok := launch_ok e; visit := visit e; listings := f;
     probe := probe e; telegram := telegram e;
     TELEGRAM_BOT_TOKEN := TELEGRAM_BOT_TOKEN e;
     TELEGRAM_CHANNEL_ID := TELEGRAM_CHANNEL_ID e |}.
Definition with_telegram (f : nat -> HttpReply TelegramBody) (e : Env) : Env :=
  {| launch_ok := launch_ok e; visit := visit e; listings := listings e;
     probe := probe e; telegram := f;
     TELEGRAM_BOT_TOKEN := TELEGRAM_BOT_TOKEN e;
     TELEGRAM_CHANNEL_ID := TELEGRAM_CHANNEL_ID e |}.
Definition with_visit (f : nat -> PageVisit) (e : Env) : Env :=
  {| launch_ok := launch_ok e; visit := f; listings := listings e;
     probe := probe e; telegram := telegram e;
     TELEGRAM_BOT_TOKEN := TELEGRAM_BOT_TOKEN e;
     TELEGRAM_CHANNEL_ID := TELEGRAM_CHANNEL_ID e |}.
Definition with_probe (f : nat -> HttpReply unit) (e : Env) : Env :=
  {| launch_ok := launch_ok e; visit := visit e; listings := listings e;
     probe := f; telegram := telegram e;
     TELEGRAM_BOT_TOKEN := TELEGRAM_BOT_TOKEN e;
     TELEGRAM_CHANNEL_ID := TELEGRAM_CHANNEL_ID e |}.

(** ** Predicates used in the statements *)

(** A computation leaves an observation [f] of the state as it was. *)
Definition keeps {A X : Type} (f : State -> X) (m : M A) : Prop :=
  forall s, match m s with
            | Ret _ s' => f s' = f s
            | Throw _ s' => f s' = f s
            | OutOfFuel => True
            end.

(** The listings API rejects the first [k] requests of the process with
    [status] and answers the later ones with [jobs]. *)
Definition rejecting (status : Z) (k : nat) (jobs : list Job) : Env :=
  with_listings
    (fun n => if (n <? k)%nat then Reply status Unparsable
              else Reply 200 (WithJobCards (Some jobs)))
    (calm jobs).

(** Every launch succeeds, every visit finds a token and every probe of a
    token is answered 200: what the modular monitor needs to renew. *)
Definition obliging (env : Env) : Prop :=
  (forall n, launch_ok env n = true)
  /\ (forall n, exists token,
        evaluate (visit env n) = Some token /\ String.eqb token "" = false)
  /\ (forall n, probe env n = Reply 200 tt).

(** The page always holds a token that expires at second 240 of the epoch,
    four minutes after a process started at instant 0. *)
Definition short_lived : Env :=
  with_visit (fun _ => Loaded [("sessionToken", "eyJ.240.sig")] []) (calm [J1]).

(** The page holds a token good for an hour, and every verification request
    is answered 500. *)
Definition untrusting : Env :=
  with_probe (fun _ => Reply 500 tt)
    (with_visit (fun _ => Loaded [("sessionToken", "eyJ.3600.sig")] [])
       (calm [J1])).

(** The state once a visit of [page] and the settle wait are over, and once
    the 30 seconds before a new visit are over. *)
Definition settled (v : Variant) (page : PageVisit) (s : State) : State :=
  emit (Waited (settle_ms v)) (advance (settle_ms v) (emit (Visited page) s)).
Definition rested (s : State) : State :=
  emit (Waited 30000) (advance 30000 s).

(** What can be said of an extraction started from [s] at [retryCount]:
    it ends, a returned token is the installed one, the page was visited at
    most once per attempt left, no browser was launched and no listings
    request sent. *)
Definition extraction_outcome (s : State) (retryCount : nat)
    (r : result string) : Prop :=
  match r with
  | Ret token s' =>
      currentAuthToken s' = Some token
      /\ String.eqb token "" = false
      /\ (exists expiry, tokenExpiryTime s' = Some expiry)
      /\ (visits s < visits s' <= visits s + (S maxRetries - retryCount))%nat
      /\ launches s' = launches s
      /\ fetches s' = fetches s
  | Throw _ s' =>
      (visits s' <= visits s + (S maxRetries - retryCount))%nat
      /\ launches s' = launches s
      /\ fetches s' = fetches s
  | OutOfFuel => False
  end.

(** The visit about to be made from [s] finds [token], whose payload
    decodes to the claims [decoded]. *)
Definition offers (base64_utf8 : string -> string)
    (JSON_parse : string -> option json) (env : Env) (s : State)
    (token : string) (decoded : json) : Prop :=
  browser s = true
  /\ evaluate (visit env (visits s)) = Some token
  /\ String.eqb token "" = false
  /\ decodeJWT base64_utf8 JSON_parse token = Normal decoded.

(** The claim [name] of [decoded] is the integer [n] (seconds), and
    [new Date(n * 1000)] is a valid Date. *)
Definition numeric_date (name : string) (decoded : json) (n : Z) : Prop :=
  field name decoded = Some (JNumber n)
  /\ Z.abs (n * 1000) <= 8640000000000000.

(** Every renewal succeeds, whatever the state it starts from. *)
Definition renewals_succeed (base64_utf8 : string -> string)
    (JSON_parse : string -> option json) (v : Variant) (env : Env) : Prop :=
  forall s, exists token s',
    refreshAuthToken base64_utf8 JSON_parse v env s = Ret token s'.

(** The scenario of the specification: at instant 0 the stored token
    expires in three minutes. *)
Definition near_expiry : State :=
  {| seenJobIds := []; currentAuthToken := Some "eyJ.180.sig";
     tokenExpiryTime := Some (3 * 60 * 1000); browser := true; clock := 0;
     trace := [] |}.

(** [count] job cards numbered from [from]: JOB-0, JOB-1, ... *)
Definition job_number (n : nat) : string :=
  "JOB-" ++ NilZero.string_of_uint (Nat.to_uint n).
Definition numbered (from count : nat) : list Job :=
  map (fun n => {| jobId := job_number n; jobTitle := "Warehouse Associate" |})
      (seq from count).

(** The API lists 1001 jobs, JOB-0 to JOB-1000. *)
Definition crowded : Env := calm (numbered 0 1001).

(** The state of the copy for the US site when a first cycle, started in
    steady state with an empty seen set, has recorded the 1001 ids and is
    about to call the dispatcher. *)
Definition crowded_midway : State :=
  Eval vm_compute in
    match pollForJobs_begin as_is exp_only us_monitor crowded 8 (steady []) with
    | Ret _ s1 => s1
    | _ => steady []
    end.

(** ** The dispatcher, as a relation

    [Dispatch cooldown jobs log]: [log] is, in the order of time, what the
    dispatcher does for the jobs still to send. A 429 is followed by the
    cooldown and the same job again; any other answer moves on to the next
    job, with a pause of two seconds after an accepted message when another
    job follows. *)
Inductive Dispatch (cooldown : Z) : list Job -> list effect -> Prop :=
| Dispatch_done : Dispatch cooldown [] []
| Dispatch_limited job rest body log :
    Dispatch cooldown (job :: rest) log ->
    Dispatch cooldown (job :: rest)
      (Sent job (Reply 429 body) :: Waited cooldown :: log)
| Dispatch_refused job rest status body log :
    status <> 429 -> ok status = false ->
    Dispatch cooldown rest log ->
    Dispatch cooldown (job :: rest) (Sent job (Reply status body) :: log)
| Dispatch_accepted job rest status result log :
    ok status = true ->
    Dispatch cooldown rest log ->
    Dispatch cooldown (job :: rest)
      (Sent job (Reply status (TgResult result))
         :: match rest with [] => [] | _ :: _ => [Waited 2000] end ++ log).

(** From its [from]-th request on, Telegram answers every request, and
    with a readable body when the status is a success. *)
Definition answers (env : Env) (from : nat) : Prop :=
  forall n, (from <= n)%nat ->
    exists status body,
      telegram env n = Reply status body
      /\ (ok status = true -> exists result, body = TgResult result).

(** From its [bound]-th request on, Telegram no longer answers 429. *)
Definition relents (env : Env) (bound : nat) : Prop :=
  forall n body, (bound <= n)%nat -> telegram env n <> Reply 429 body.

(** Telegram limits the second request and accepts the others. *)
Definition limiting_second : Env :=
  with_telegram
    (fun n => if (n =? 1)%nat then Reply 429 TgUnparsable
              else Reply 200 (TgResult true))
    (calm []).

(** Telegram cannot be reached. *)
Definition unreachable : Env := with_telegram (fun _ => NoReply) (calm []).

(** A computation only adds to the record of effects. *)
Definition grows {A : Type} (m : M A) : Prop :=
  forall s, match m s with
            | Ret _ s' => exists new, trace s' = (new ++ trace s)%list
            | Throw _ s' => exists new, trace s' = (new ++ trace s)%list
            | OutOfFuel => True
            end.

(** Between [s] and [s'] every listings request but the last one was
    answered 401. *)
Definition retried_on_401_only (env : Env) (s s' : State) : Prop :=
  (fetches s <= fetches s')%nat
  /\ forall i, (fetches s <= i)%nat -> (S i < fetches s')%nat ->
       exists body, listings env i = Reply 401 body.

(** ** Start-up and shutdown of the monitor *)

(** How [startMonitoring] and [main] leave: the timers are registered and
    the process goes on, or [process.exit(code)] is called. *)
Inductive outcome : Type :=
| Running
| Exited (code : Z).

(** [cleanup] (auto-token-monitor.js, lines 690-710; token-extractor.js,
    lines 306-321): the refresh timer is cleared and the browser, if there
    is one, is closed; what [browser.close()] throws is logged. The variable
    [browser] keeps its value; it is unset as long as no launch has
    succeeded. *)
Definition cleanup : M unit :=
  try_catch
    (launched <- gets browser ;;
     if launched then modify (emit Closed) else ret tt)
    (fun _ => ret tt).

(** [logHealthStatus] prints; the one figure it computes is
    [timeUntilExpiry], which [fetchAmazonJobs] prints as well:
    [Math.floor((tokenExpiryTime.getTime() - Date.now()) / 60000)], or
    'Unknown' ([None]) without an expiry. *)
Definition timeUntilExpiry (s : State) : option Z :=
  option_map (fun expiry => (expiry - clock s) / 60000) (tokenExpiryTime s).

Definition logHealthStatus : M unit := ret tt.

Section Startup.

Variable base64_utf8 : string -> string.
Variable JSON_parse : string -> option json.
Variable v : Variant.
Variable env : Env.

(** [startMonitoring] (auto-token-monitor.js, lines 734-790): the browser,
    the first token, the refresh timer, a first poll, then the other
    timers and a health report; any error on the way leads to [cleanup] and
    [process.exit(1)]. *)
Definition startMonitoring (fuel : nat) : M outcome :=
  try_catch
    (initializeBrowser env ;;
     _ <- refreshAuthToken base64_utf8 JSON_parse v env ;;
     _ <- pollForJobs base64_utf8 JSON_parse v env fuel ;;
     logHealthStatus ;;
     ret Running)
    (fun _ => cleanup ;; ret (Exited 1)).

End Startup.

(** ** The Telegram credentials *)

(** The object returned by [setupTelegramCredentials] and kept in
    [config]. *)
Module Config.
Record t : Type := {
  TELEGRAM_BOT_TOKEN : string;
  TELEGRAM_CHANNEL_ID : string
}.
End Config.

(** The world as the monitor sees it once [config] is set. *)
Definition with_credentials (config : Config.t) (world : Env) : Env :=
  {| launch_ok := launch_ok world; visit := visit world;
     listings := listings world; probe := probe world;
     telegram := telegram world;
     TELEGRAM_BOT_TOKEN := Config.TELEGRAM_BOT_TOKEN config;
     TELEGRAM_CHANNEL_ID := Config.TELEGRAM_CHANNEL_ID config |}.

(** A variable of [process.env] in a condition: set and not empty. *)
Definition is_set (variable : option string) : bool :=
  match variable with
  | Some value => negb (String.eqb value "")
  | None => false
  end.

Section Credentials.

(** The characters [String.prototype.trim] strips, WhiteSpace and
    LineTerminator of ECMA-262, taken as they are. *)
Variable white : ascii -> bool.

Fixpoint trimStart (s : string) : string :=
  match s with
  | EmptyString => EmptyString
  | String c rest => if white c then trimStart rest else s
  end.

Fixpoint trimEnd (s : string) : string :=
  match s with
  | EmptyString => EmptyString
  | String c rest =>
      match trimEnd rest with
      | EmptyString => if white c then EmptyString else String c EmptyString
      | kept => String c kept
      end
  end.

(** [s.trim()] *)
Definition String_trim (s : string) : string := trimEnd (trimStart s).

(** [!line.trim()] *)
Definition blank (line : string) : bool := String.eqb (String_trim line) "".

(** [let x = await question(..); while (!x.trim()) x = await question(..);]
    over the lines typed on the terminal: the first line that is not blank,
    and the lines left. When the lines run out, the question stays
    unanswered ([None]). *)
Fixpoint ask (input : list string) : option (string * list string) :=
  match input with
  | [] => None
  | line :: rest => if blank line then ask rest else Some (line, rest)
  end.

(** The interactive part of [setupTelegramCredentials]
    (auto-token-monitor.js, lines 35-74), which is the whole of it in the
    copy for the US site. *)
Definition promptTelegramCredentials (input : list string)
  : option Config.t :=
  match ask input with
  | None => None
  | Some (telegramBotToken, rest) =>
      match ask rest with
      | None => None
      | Some (telegramChannelId, _) =>
          Some {| Config.TELEGRAM_BOT_TOKEN := String_trim telegramBotToken;
                  Config.TELEGRAM_CHANNEL_ID := String_trim telegramChannelId |}
      end
  end.

(** [setupTelegramCredentials] (auto-token-monitor.js, lines 13-74): the
    two variables of the environment when both are set, the terminal
    otherwise. *)
Definition setupTelegramCredentials (TELEGRAM_BOT_TOKEN
    TELEGRAM_CHANNEL_ID : option string) (input : list string)
  : option Config.t :=
  match TELEGRAM_BOT_TOKEN, TELEGRAM_CHANNEL_ID with
  | Some token, Some channel =>
      if is_set TELEGRAM_BOT_TOKEN && is_set TELEGRAM_CHANNEL_ID then
        Some {| Config.TELEGRAM_BOT_TOKEN := String_trim token;
                Config.TELEGRAM_CHANNEL_ID := String_trim channel |}
      else promptTelegramCredentials input
  | _, _ => promptTelegramCredentials input
  end.

End Credentials.

(** The modular monitor (second script of the unnamed part), built on
    token-extractor.js. *)
Module ModularMonitor.
Section ModularMonitor.

Variable white : ascii -> bool.

(** [setupTelegramCredentials] reads the environment only and calls
    [process.exit(1)] ([None]) when a variable is missing. *)
Definition setupTelegramCredentials (TELEGRAM_BOT_TOKEN
    TELEGRAM_CHANNEL_ID : option string) : option Config.t :=
  match TELEGRAM_BOT_TOKEN, TELEGRAM_CHANNEL_ID with
  | Some token, Some channel =>
      if is_set TELEGRAM_BOT_TOKEN && is_set TELEGRAM_CHANNEL_ID then
        Some {| Config.TELEGRAM_BOT_TOKEN := String_trim white token;
                Config.TELEGRAM_CHANNEL_ID := String_trim white channel |}
      else None
  | _, _ => None
  end.

(** [main]: the credentials, a first token, then the timers; any error
    leads to [process.exit(1)]. *)
Definition main (TELEGRAM_BOT_TOKEN TELEGRAM_CHANNEL_ID : option string)
    (world : Env) : M outcome :=
  match setupTelegramCredentials TELEGRAM_BOT_TOKEN TELEGRAM_CHANNEL_ID with
  | None => ret (Exited 1)
  | Some config =>
      try_catch
        (_ <- TokenExtractor.ensureValidToken (with_credentials config world) ;;
         ret Running)
        (fun _ => ret (Exited 1))
  end.

End ModularMonitor.
End ModularMonitor.

(** ** Further predicates used in the statements *)

(** Whenever [m] ends, by a value or by an error, the states before and
    after it are related by [R]. *)
Definition within {A : Type} (R : State -> State -> Prop) (m : M A) : Prop :=
  forall s, match m s with
            | Ret _ s' => R s s'
            | Throw _ s' => R s s'
            | OutOfFuel => True
            end.

(** A process with a stored, non-empty token. *)
Definition equipped (s : State) : Prop :=
  exists token,
    currentAuthToken s = Some token /\ String.eqb token "" = false.

(** Between [s] and [s'] an open browser has stayed open with no further
    launch, and a stored token has stayed or been replaced by another. *)
Definition stays_up (s s' : State) : Prop :=
  (browser s = true -> browser s' = true /\ launches s' = launches s)
  /\ (equipped s -> equipped s').

(** What the process holds for talking to the API. *)
Definition credential (s : State) : option string * option Z * bool :=
  (currentAuthToken s, tokenExpiryTime s, browser s).

(** What [attempts] visits of the page may cost: the settle wait of each,
    30 seconds between two of them, and one test request. *)
Definition spent (v : Variant) (attempts : nat) (s s' : State) : Prop :=
  clock s <= clock s'
  /\ clock s' <= clock s + Z.of_nat attempts * settle_ms v
                 + Z.of_nat (attempts - 1) * 30000
  /\ (probes s' <= probes s + 1)%nat
  /\ (visits s' <= visits s + attempts)%nat
  /\ (guards_expiry v = false ->
      clock s' <= clock s + settle_ms v /\ (visits s' <= visits s + 1)%nat).

(** What [getValidToken] may have done after at most [attempts] passes
    through its loop: a launch, a visit and a verification request per pass
    at most, 15 seconds of settling in each and 10 seconds between two, and
    nothing else. *)
Definition attempted (attempts : nat) (s s' : State) : Prop :=
  (launches s' <= launches s + attempts)%nat
  /\ (visits s' <= visits s + attempts)%nat
  /\ (probes s' <= probes s + attempts)%nat
  /\ clock s <= clock s' <= clock s + 25000 * Z.of_nat attempts
  /\ fetches s' = fetches s
  /\ sends s' = sends s
  /\ currentAuthToken s' = currentAuthToken s
  /\ tokenExpiryTime s' = tokenExpiryTime s
  /\ seenJobIds s' = seenJobIds s.

(** The last thing that happened in [s'] is a listings request, sent with
    the stored token, which the API answered with a success status and the
    job cards [jobs]. *)
Definition answered_with (env : Env) (jobs : list Job) (s' : State) : Prop :=
  exists token status rest,
    trace s' = Fetched token (clock s') (tokenExpiryTime s')
                 (Reply status (WithJobCards (Some jobs))) :: rest
    /\ ok status = true
    /\ currentAuthToken s' = Some token
    /\ String.eqb token "" = false
    /\ listings env (Nat.pred (fetches s'))
       = Reply status (WithJobCards (Some jobs)).

(** *** What a computation adds to the record of effects *)

(** [extends P old new]: the record [new] is [old] with further effects in
    front of it, each of which satisfies [P]. *)
Inductive extends (P : effect -> Prop) (old : list effect)
  : list effect -> Prop :=
| extends_same : extends P old old
| extends_more e log : P e -> extends P old log -> extends P old (e :: log).

(** Whenever [m] ends, it has added to the record only effects that
    satisfy [P]. *)
Definition emits {A : Type} (P : effect -> Prop) (m : M A) : Prop :=
  forall s, match m s with
            | Ret _ s' => extends P (trace s) (trace s')
            | Throw _ s' => extends P (trace s) (trace s')
            | OutOfFuel => True
            end.

(** Effects other than messages to Telegram. *)
Definition silent (e : effect) : Prop := is_Sent e = false.

(** Effects other than listings requests and messages to Telegram. *)
Definition preparatory (e : effect) : Prop :=
  is_Sent e = false /\ is_Fetched e = false.

(** The effects of the dispatcher: messages and waits. *)
Definition dispatching (e : effect) : Prop :=
  match e with
  | Sent _ _ => True
  | Waited _ => True
  | _ => False
  end.

(** Effects that are no message, or a message about one of [jobs]. *)
Definition about (jobs : list Job) (e : effect) : Prop :=
  match e with
  | Sent job _ => In job jobs
  | _ => True
  end.

(** In a record (newest effect first), every message follows a request for
    the schedules of its job made with a token whose verification, the
    effect before, was answered 200. *)
Fixpoint verified_sends (log : list effect) : Prop :=
  match log with
  | [] => True
  | Sent job _ :: rest =>
      (exists token older,
          rest = Scheduled job token :: Probed token (Reply 200 tt) :: older)
      /\ verified_sends rest
  | _ :: rest => verified_sends rest
  end.

(** Between [s] and [s'] the record has grown by effects among which every
    message is a verified one. *)
Definition verified_since (s s' : State) : Prop :=
  exists new, trace s' = (new ++ trace s)%list /\ verified_sends new.

(** [launched_before_visit old log]: the record [log] is [old] with
    further effects in front of it, among which every visit of the page
    comes right after a successful launch of the browser. *)
Inductive launched_before_visit (old : list effect) : list effect -> Prop :=
| lbv_same : launched_before_visit old old
| lbv_other e log :
    is_Visited e = false ->
    launched_before_visit old log ->
    launched_before_visit old (e :: log)
| lbv_visit page log :
    launched_before_visit old log ->
    launched_before_visit old (Visited page :: Launched true :: log).

(** ** Further sample data *)

(** The white space of ASCII: tab, line feed, vertical tab, form feed,
    carriage return and space. *)
Definition ascii_white (c : ascii) : bool :=
  let n := nat_of_ascii c in
  ((9 <=? n) && (n <=? 13))%nat || (n =? 32)%nat.

(** A string that starts with [eyJ] and is longer than 100 characters,
    whatever [tail] is. *)
Definition long_jwt (tail : string) : string :=
  "eyJhbGciOiJSUzI1NiIsInR5cCI6IkpXVCJ9.eyJzdWIiOiIxMjM0NTY3ODkwIiwibmFtZSI6IkpvaG4gRG9lIiwiaWF0IjoxNTE2MjM5MDIyfQ."
  ++ tail.

(** A stand-in for [JSON.parse] on sample tokens whose payload carries an
    [exp] claim and nothing else. *)
Definition exp_without_iat (s : string) : option json :=
  option_map (fun n => JObject [("exp", JNumber n)]) (decimal 0 s).

(** The hiring page cannot be reached. *)
Definition page_down : Env := with_visit (fun _ => GotoFails) (calm [J1]).

(** The browser cannot be launched. *)
Definition no_browser : Env :=
  {| launch_ok := fun _ => false;
     visit := visit (calm [J1]);
     listings := listings (calm [J1]);
     probe := probe (calm [J1]);
     telegram := telegram (calm [J1]);
     TELEGRAM_BOT_TOKEN := "bot";
     TELEGRAM_CHANNEL_ID := "@channel" |}.

(** The page holds a token good for an hour. *)
Definition hourly : Env :=
  with_visit (fun _ => Loaded [("sessionToken", "eyJ.3600.sig")] [])
    (calm [J1]).

(** No verification request is ever answered 200. *)
Definition distrusted : Env := with_probe (fun _ => Reply 401 tt) (calm [J1]).

(** The stored token passes a first verification; from then on the API
    rejects every listings request and every verification. *)
Definition revoked : Env :=
  with_probe (fun n => if (n =? 0)%nat then Reply 200 tt else Reply 401 tt)
    (with_listings (fun _ => Reply 401 Unparsable) (calm [J1])).

(** Telegram answers every request with 429. *)
Definition flooded : Env :=
  with_telegram (fun _ => Reply 429 TgUnparsable) (calm [J1]).

(** The state of auto-token-monitor.js after a first cycle, started in
    steady state, in which the API lists J1 and J2. *)
Definition after_first_cycle : State :=
  Eval vm_compute in
    match
      pollForJobs as_is exp_only auto_token_monitor (calm [J1; J2]) 8
        (steady [])
    with
    | Ret _ s' => s'
    | _ => steady []
    end.

(** The state of the copy for the US site after a first cycle in which the
    API lists six jobs, JOB-0 to JOB-5. *)
Definition after_capped_cycle : State :=
  Eval vm_compute in
    match
      pollForJobs as_is exp_only us_monitor (calm (numbered 0 6)) 8 (steady [])
    with
    | Ret _ s' => s'
    | _ => steady []
    end.
(** ** Facts about [split] *)

Lemma split_nonempty (sep : ascii) (s : string) : split sep s <> [].
Proof.
  induction s as [|c rest IH]; simpl; [discriminate|].
  destruct (Ascii.eqb c sep); [discriminate|].
  destruct (split sep rest); discriminate.
Qed.

Lemma split_lacks (sep : ascii) (s : string) :
  lacks sep s = true -> split sep s = [s].
Proof.
  induction s as [|c rest IH]; simpl; intros H; [reflexivity|].
  apply andb_true_iff in H as [Hc Hrest].
  apply negb_true_iff in Hc. rewrite Hc, (IH Hrest). reflexivity.
Qed.

Lemma split_app (sep : ascii) (a rest : string) :
  lacks sep a = true ->
  split sep (a ++ String sep rest) = a :: split sep rest.
Proof.
  induction a as [|c a IH]; simpl; intros H.
  - rewrite Ascii.eqb_refl. reflexivity.
  - apply andb_true_iff in H as [Hc Ha]. apply negb_true_iff in Hc.
    rewrite Hc, (IH Ha). reflexivity.
Qed.

Lemma split_cons_inv (sep : ascii) (s hd : string) (tl : list string) :
  split sep s = hd :: tl ->
  lacks sep hd = true /\
  match tl with
  | [] => s = hd
  | _ :: _ => exists rest, s = hd ++ String sep rest /\ split sep rest = tl
  end.
Proof.
  revert hd tl. induction s as [|c s IH]; simpl; intros hd tl H.
  - inversion H; subst. split; reflexivity.
  - destruct (Ascii.eqb c sep) eqn:Hc.
    + inversion H; subst. apply Ascii.eqb_eq in Hc. subst c.
      split; [reflexivity|].
      destruct (split sep s) eqn:Hs; [exfalso; eapply split_nonempty; eauto|].
      exists s. split; [reflexivity|assumption].
    + destruct (split sep s) as [|hd' tl'] eqn:Hs;
        [exfalso; eapply split_nonempty; eauto|].
      destruct (IH hd' tl' eq_refl) as [Hl Htl].
      inversion H; subst hd tl.
      split; [simpl; rewrite Hc, Hl; reflexivity|].
      destruct tl' as [|x tl'].
      * subst s. reflexivity.
      * destruct Htl as (rest & -> & Hrest). exists rest.
        split; [reflexivity|assumption].
Qed.

Lemma split_three (s a b c : string) :
  split dot s = [a; b; c] <->
  s = a ++ String dot (b ++ String dot c)
  /\ lacks dot a = true /\ lacks dot b = true /\ lacks dot c = true.
Proof.
  split.
  - intros H.
    destruct (split_cons_inv _ _ _ _ H) as (Ha & r1 & -> & H1).
    destruct (split_cons_inv _ _ _ _ H1) as (Hb & r2 & -> & H2).
    destruct (split_cons_inv _ _ _ _ H2) as (Hc & ->).
    repeat split; assumption.
  - intros (-> & Ha & Hb & Hc).
    rewrite (split_app _ _ _ Ha), (split_app _ _ _ Hb), (split_lacks _ _ Hc).
    reflexivity.
Qed.

(** C10. [decodeJWT] never throws: on every string it completes normally,
    with the parsed claims when the string has exactly three dot-separated
    segments and the decoded middle one is valid JSON, and with [null] on
    every other string. *)
Theorem decodeJWT_total (base64_utf8 : string -> string)
    (JSON_parse : string -> option json) (token : string) :
  exists v, decodeJWT base64_utf8 JSON_parse token = Normal v /\
    ((exists a b c, three_segments token a b c
                    /\ JSON_parse (base64_utf8 b) = Some v)
     \/ (v = JNull /\
         ~ exists a b c payload, three_segments token a b c
                    /\ JSON_parse (base64_utf8 b) = Some payload)).
Proof.
  unfold decodeJWT, decodeJWT_body, three_segments.
  destruct (split dot token) as [|a [|b [|c [|d rest]]]] eqn:Hs; simpl.
  1-3,5: eexists; split; [reflexivity|]; right; split; [reflexivity|];
    intros (a' & b' & c' & p & H & _); apply split_three in H;
    rewrite H in Hs; discriminate.
  destruct (JSON_parse (base64_utf8 b)) as [payload|] eqn:Hp; simpl.
  - exists payload. split; [reflexivity|]. left. exists a, b, c.
    split; [apply split_three; assumption|assumption].
  - exists JNull. split; [reflexivity|]. right. split; [reflexivity|].
    intros (a' & b' & c' & p & H & Hp'). apply split_three in H.
    rewrite H in Hs. inversion Hs; subst. congruence.
Qed.

(** ** Frame reasoning: what a computation leaves untouched *)

Section Frame.
Context {X : Type} (f : State -> X).

Lemma keeps_ret {A} (a : A) : keeps f (ret a).
Proof. intros s. reflexivity. Qed.

Lemma keeps_throw {A} (e : error) : keeps f (@throw A e).
Proof. intros s. reflexivity. Qed.

Lemma keeps_gets {A} (g : State -> A) : keeps f (gets g).
Proof. intros s. reflexivity. Qed.

Lemma keeps_out {A} : keeps f (fun _ => @OutOfFuel A).
Proof. intros s. exact I. Qed.

Lemma keeps_lift {A} (c : completion A) : keeps f (lift c).
Proof. destruct c; intros s; reflexivity. Qed.

Lemma keeps_modify (g : State -> State) :
  (forall s, f (g s) = f s) -> keeps f (modify g).
Proof. intros H s. simpl. apply H. Qed.

Lemma keeps_bind {A B} (m : M A) (k : A -> M B) :
  keeps f m -> (forall a, keeps f (k a)) -> keeps f (bind m k).
Proof.
  intros Hm Hk s. unfold bind. specialize (Hm s).
  destruct (m s) as [a s'| e s'|]; trivial.
  specialize (Hk a s'). destruct (k a s'); congruence.
Qed.

Lemma keeps_try {A} (m : M A) (h : error -> M A) :
  keeps f m -> (forall e, keeps f (h e)) -> keeps f (try_catch m h).
Proof.
  intros Hm Hh s. unfold try_catch. specialize (Hm s).
  destruct (m s) as [a s'| e s'|]; trivial.
  specialize (Hh e s'). destruct (h e s'); congruence.
Qed.
End Frame.

Create HintDb seen.

(** Reduces the plumbing of the monad once its operations are unfolded. *)
Ltac mred := cbv beta iota zeta delta [ret throw lift negb].

Lemma try_rethrow {A} (m : M A) (s : State) :
  try_catch m (fun e => throw e) s = m s.
Proof. unfold try_catch, throw. destruct (m s); reflexivity. Qed.

(** Breaks a monadic term into its pieces, leaving the primitive effects. *)
Ltac frame_step :=
  first
    [ solve [auto with seen]
    | apply keeps_ret | apply keeps_throw | apply keeps_gets
    | apply keeps_out | apply keeps_lift
    | apply keeps_bind; [|intros]
    | apply keeps_try; [|intros]
    | match goal with
      | |- keeps _ (if ?b then _ else _) => destruct b
      | |- keeps _ (match ?x with _ => _ end) => destruct x
      | |- keeps _ (let '(_, _) := ?p in _) => destruct p
      | |- keeps _ (let _ := _ in _) => cbv zeta
      end ].
Ltac frame := repeat frame_step.

(** ** The record of effects only grows *)

Lemma grows_ret {A} (a : A) : grows (ret a).
Proof. intros s. exists []. reflexivity. Qed.

Lemma grows_throw {A} (e : error) : grows (@throw A e).
Proof. intros s. exists []. reflexivity. Qed.

Lemma grows_gets {A} (g : State -> A) : grows (gets g).
Proof. intros s. exists []. reflexivity. Qed.

Lemma grows_out {A} : grows (fun _ => @OutOfFuel A).
Proof. intros s. exact I. Qed.

Lemma grows_lift {A} (c : completion A) : grows (lift c).
Proof. destruct c; intros s; exists []; reflexivity. Qed.

Lemma grows_modify (g : State -> State) :
  (forall s, exists new, trace (g s) = (new ++ trace s)%list) ->
  grows (modify g).
Proof. intros H s. simpl. apply H. Qed.

Lemma grows_bind {A B} (m : M A) (k : A -> M B) :
  grows m -> (forall a, grows (k a)) -> grows (bind m k).
Proof.
  intros Hm Hk s. unfold bind. specialize (Hm s).
  destruct (m s) as [a s1|e s1|]; trivial.
  destruct Hm as (new1 & H1). specialize (Hk a s1).
  destruct (k a s1) as [b s2|e s2|]; trivial;
    destruct Hk as (new2 & H2); exists (new2 ++ new1)%list;
    rewrite H2, H1, app_assoc; reflexivity.
Qed.

Lemma grows_try {A} (m : M A) (h : error -> M A) :
  grows m -> (forall e, grows (h e)) -> grows (try_catch m h).
Proof.
  intros Hm Hh s. unfold try_catch. specialize (Hm s).
  destruct (m s) as [a s1|e s1|]; trivial.
  destruct Hm as (new1 & H1). specialize (Hh e s1).
  destruct (h e s1) as [b s2|e' s2|]; trivial;
    destruct Hh as (new2 & H2); exists (new2 ++ new1)%list;
    rewrite H2, H1, app_assoc; reflexivity.
Qed.

Ltac grow_step :=
  first
    [ apply grows_ret | apply grows_throw | apply grows_gets
    | apply grows_out | apply grows_lift
    | apply grows_bind; [|intros]
    | apply grows_try; [|intros]
    | match goal with
      | |- grows (if ?b then _ else _) => destruct b
      | |- grows (match ?x with _ => _ end) => destruct x
      | |- grows (let _ := _ in _) => cbv zeta
      end ].
Ltac grow := repeat grow_step.

Create HintDb trace.

Section Growth.
Variable base64_utf8 : string -> string.
Variable JSON_parse : string -> option json.
Variable v : Variant.
Variable env : Env.

Lemma testToken_returns token s :
  testToken env token s
  = Ret tt (emit (Probed token (probe env (probes s))) s).
Proof.
  unfold testToken. destruct (probe env (probes s)) as [|status b];
    [reflexivity|].
  destruct (ok status); [reflexivity|]. destruct (status =? 403); reflexivity.
Qed.

Lemma wait_grows ms : grows (wait ms).
Proof. apply grows_modify. intros s. exists [Waited ms]. reflexivity. Qed.

Lemma install_grows token expiry : grows (install token expiry).
Proof. apply grows_modify. intros s. exists []. reflexivity. Qed.

Lemma testToken_grows token : grows (testToken env token).
Proof.
  intros s. rewrite testToken_returns. eexists [_]. reflexivity.
Qed.

Lemma goto_grows : grows (goto env).
Proof.
  intros s. unfold goto. destruct (browser s); cbn [negb];
    [|exists []; reflexivity].
  destruct (visit env (visits s)); eexists [_]; reflexivity.
Qed.

Lemma initializeBrowser_grows : grows (initializeBrowser env).
Proof.
  intros s. unfold initializeBrowser.
  destruct (launch_ok env (launches s)); eexists [_]; reflexivity.
Qed.

Lemma postListings_grows token : grows (postListings env token).
Proof.
  intros s. unfold postListings.
  destruct (listings env (fetches s)); eexists [_]; reflexivity.
Qed.

#[local] Hint Resolve wait_grows install_grows testToken_grows goto_grows
  initializeBrowser_grows postListings_grows : trace.

Lemma extractAuthToken_from_grows budget : forall retryCount,
  grows (extractAuthToken_from base64_utf8 JSON_parse v env budget retryCount).
Proof.
  induction budget as [|budget IH]; intros retryCount; simpl;
    grow; auto with trace.
Qed.

Lemma refreshAuthToken_grows :
  grows (refreshAuthToken base64_utf8 JSON_parse v env).
Proof.
  unfold refreshAuthToken, extractAuthToken. grow;
    auto using extractAuthToken_from_grows with trace.
Qed.

Lemma fetchAmazonJobs_grows fuel :
  grows (fetchAmazonJobs base64_utf8 JSON_parse v env fuel).
Proof.
  induction fuel as [|fuel IH]; simpl; grow;
    auto using refreshAuthToken_grows with trace.
Qed.

End Growth.

#[global] Hint Resolve wait_grows install_grows testToken_grows goto_grows
  initializeBrowser_grows postListings_grows : trace.

(** ** The seen set is touched by [pollForJobs] and the clear timer only *)


Section SeenFrame.
Variable base64_utf8 : string -> string.
Variable JSON_parse : string -> option json.
Variable v : Variant.
Variable env : Env.

Lemma wait_keeps_seen ms : keeps seenJobIds (wait ms).
Proof. apply keeps_modify. reflexivity. Qed.

Lemma install_keeps_seen token expiry :
  keeps seenJobIds (install token expiry).
Proof. apply keeps_modify. reflexivity. Qed.

Lemma goto_keeps_seen : keeps seenJobIds (goto env).
Proof.
  intros s. unfold goto. destruct (browser s); simpl; trivial.
  destruct (visit env (visits s)); reflexivity.
Qed.

Lemma testToken_keeps_seen token : keeps seenJobIds (testToken env token).
Proof.
  intros s. unfold testToken.
  destruct (probe env (probes s)) as [|status b]; simpl; trivial.
  destruct (ok status); trivial. destruct (status =? 403); trivial.
Qed.

Lemma initializeBrowser_keeps_seen : keeps seenJobIds (initializeBrowser env).
Proof.
  intros s. unfold initializeBrowser.
  destruct (launch_ok env (launches s)); reflexivity.
Qed.

Lemma postListings_keeps_seen token :
  keeps seenJobIds (postListings env token).
Proof.
  intros s. unfold postListings.
  destruct (listings env (fetches s)); reflexivity.
Qed.

Lemma postMessage_keeps_seen job : keeps seenJobIds (postMessage env job).
Proof.
  intros s. unfold postMessage.
  destruct (telegram env (sends s)); reflexivity.
Qed.

#[local] Hint Resolve wait_keeps_seen install_keeps_seen goto_keeps_seen
  testToken_keeps_seen initializeBrowser_keeps_seen postListings_keeps_seen
  postMessage_keeps_seen : seen.

Lemma extractAuthToken_from_keeps_seen budget retryCount :
  keeps seenJobIds
    (extractAuthToken_from base64_utf8 JSON_parse v env budget retryCount).
Proof.
  revert retryCount.
  induction budget as [|budget IH]; intros retryCount; simpl;
    frame; auto with seen.
Qed.

Lemma refreshAuthToken_keeps_seen :
  keeps seenJobIds (refreshAuthToken base64_utf8 JSON_parse v env).
Proof.
  unfold refreshAuthToken, extractAuthToken. frame; auto with seen;
    apply extractAuthToken_from_keeps_seen.
Qed.

Lemma fetchAmazonJobs_keeps_seen fuel :
  keeps seenJobIds (fetchAmazonJobs base64_utf8 JSON_parse v env fuel).
Proof.
  induction fuel as [|fuel IH]; simpl; frame;
    auto using refreshAuthToken_keeps_seen with seen.
Qed.

Lemma sendLoop_keeps_seen fuel jobs i :
  keeps seenJobIds (sendLoop v env fuel jobs i).
Proof.
  revert i. induction fuel as [|fuel IH]; intros i; simpl; frame;
    auto with seen.
Qed.

Lemma sendTelegramAlert_keeps_seen fuel jobs :
  keeps seenJobIds (sendTelegramAlert v env fuel jobs).
Proof.
  unfold sendTelegramAlert. frame. apply sendLoop_keeps_seen.
Qed.

(** [sendTelegramAlert] catches whatever its loop throws. *)
Lemma sendTelegramAlert_no_throw fuel jobs s e s' :
  sendTelegramAlert v env fuel jobs s <> Throw e s'.
Proof.
  unfold sendTelegramAlert, try_catch.
  destruct (_ || _); simpl; [discriminate|].
  destruct (sendLoop v env fuel jobs 0 s); discriminate.
Qed.

(** So does [fetchAmazonJobs]. *)
Lemma fetchAmazonJobs_no_throw fuel s e s' :
  fetchAmazonJobs base64_utf8 JSON_parse v env fuel s <> Throw e s'.
Proof.
  destruct fuel as [|fuel]; simpl; [discriminate|].
  unfold try_catch at 1.
  match goal with |- context [match ?m s with _ => _ end] =>
    destruct (m s) end; discriminate.
Qed.

End SeenFrame.

#[global] Hint Resolve wait_keeps_seen install_keeps_seen goto_keeps_seen
  testToken_keeps_seen initializeBrowser_keeps_seen postListings_keeps_seen
  postMessage_keeps_seen : seen.

Section ModularFrame.
Variable env : Env.

Lemma initializeFreshBrowser_keeps_seen :
  keeps seenJobIds (TokenExtractor.initializeFreshBrowser env).
Proof.
  intros s. unfold TokenExtractor.initializeFreshBrowser.
  destruct (launch_ok env _); destruct (browser s); reflexivity.
Qed.

Lemma validateTokenWithServer_keeps_seen token :
  keeps seenJobIds (TokenExtractor.validateTokenWithServer env token).
Proof.
  intros s. unfold TokenExtractor.validateTokenWithServer.
  destruct (probe env (probes s)) as [|status b]; [reflexivity|].
  destruct (status =? 200); reflexivity.
Qed.

Lemma set_token_keeps_seen token : keeps seenJobIds (modify (set_token token)).
Proof. apply keeps_modify. reflexivity. Qed.

Lemma formatJobForTelegram_keeps_seen job token :
  keeps seenJobIds (TokenExtractor.formatJobForTelegram job token).
Proof. apply keeps_modify. reflexivity. Qed.

#[local] Hint Resolve initializeFreshBrowser_keeps_seen
  validateTokenWithServer_keeps_seen set_token_keeps_seen
  formatJobForTelegram_keeps_seen : seen.

Lemma modular_extractAuthToken_keeps_seen :
  keeps seenJobIds (TokenExtractor.extractAuthToken env).
Proof. unfold TokenExtractor.extractAuthToken. frame. Qed.

#[local] Hint Resolve modular_extractAuthToken_keeps_seen : seen.

Lemma getValidToken_loop_keeps_seen maxRetries fuel : forall attempts,
  keeps seenJobIds
    (TokenExtractor.getValidToken_loop env fuel attempts maxRetries).
Proof.
  induction fuel as [|fuel IH]; intros attempts; simpl; frame.
Qed.

Lemma getValidToken_keeps_seen maxRetries :
  keeps seenJobIds (TokenExtractor.getValidToken env maxRetries).
Proof. apply getValidToken_loop_keeps_seen. Qed.

#[local] Hint Resolve getValidToken_keeps_seen : seen.

Lemma ensureValidToken_keeps_seen :
  keeps seenJobIds (TokenExtractor.ensureValidToken env).
Proof. unfold TokenExtractor.ensureValidToken. frame. Qed.

#[local] Hint Resolve ensureValidToken_keeps_seen : seen.

Lemma modular_fetchAmazonJobs_keeps_seen fuel :
  keeps seenJobIds (TokenExtractor.fetchAmazonJobs env fuel).
Proof. induction fuel as [|fuel IH]; simpl; frame. Qed.

End ModularFrame.

(** ** The poll cycle: what is emitted as new *)

Lemma has_In (seen : list string) (id : string) :
  has seen id = true <-> In id seen.
Proof.
  unfold has. rewrite existsb_exists. split.
  - intros (x & Hx & Heq). apply String.eqb_eq in Heq. subst. assumption.
  - intros H. exists id. split; [assumption|apply String.eqb_refl].
Qed.

Lemma unseen_In (seen : list string) (jobs : list Job) (job : Job) :
  In job (unseen seen jobs) <-> In job jobs /\ ~ In (jobId job) seen.
Proof.
  unfold unseen. rewrite filter_In, negb_true_iff.
  rewrite <- has_In. destruct (has seen (jobId job)); intuition congruence.
Qed.

Lemma unseen_nil (seen : list string) (jobs : list Job) :
  (forall job, In job jobs -> In (jobId job) seen) -> unseen seen jobs = [].
Proof.
  intros H. destruct (unseen seen jobs) as [|job rest] eqn:E; [reflexivity|].
  assert (Hin : In job (unseen seen jobs)) by (rewrite E; left; reflexivity).
  apply unseen_In in Hin as [Hjob Hnot]. elim Hnot. auto.
Qed.

(** The cycle of the monitor, once the fetch has returned [B]. *)
Lemma pollForJobs_after_fetch
    (base64_utf8 : string -> string) (JSON_parse : string -> option json)
    (v : Variant) (env : Env) (fuel : nat) (s s1 : State) (B : list Job) :
  fetchAmazonJobs base64_utf8 JSON_parse v env fuel s = Ret B s1 ->
  let seen := seenJobIds s in
  let new := unseen seen B in
  (new = [] ->
   pollForJobs base64_utf8 JSON_parse v env fuel s = Ret [] s1)
  /\ (new <> [] ->
      forall s2,
        sendTelegramAlert v env fuel new (set_seen (add_all seen new) s1)
          = Ret tt s2 ->
        exists s', pollForJobs base64_utf8 JSON_parse v env fuel s = Ret new s').
Proof.
  intros Hfetch seen new.
  assert (Hseen : seenJobIds s1 = seen).
  { pose proof (fetchAmazonJobs_keeps_seen base64_utf8 JSON_parse v env fuel s) as K.
    rewrite Hfetch in K. exact K. }
  unfold pollForJobs, try_catch, bind. rewrite Hfetch.
  split.
  - intros Hnil. unfold new in Hnil.
    destruct B as [|job B']; cbn [List.length Nat.eqb]; [reflexivity|].
    unfold gets. rewrite Hseen, Hnil. reflexivity.
  - intros Hnew s2 Hsend. unfold new in Hnew, Hsend |- *.
    destruct B as [|job B']; [elim Hnew; reflexivity|].
    cbn [List.length Nat.eqb]. unfold gets. rewrite Hseen.
    destruct (unseen seen (job :: B')) as [|n new'] eqn:En;
      [elim Hnew; reflexivity|].
    cbn [List.length Nat.ltb Nat.leb]. unfold modify. rewrite Hseen, Hsend.
    destruct (trims_seen v); simpl; eexists; reflexivity.
Qed.

(** The cycle of the modular monitor, once the fetch has returned [B]. *)
Lemma modular_pollForJobs_after_fetch
    (env : Env) (fuel : nat) (s s1 : State) (B : list Job) :
  TokenExtractor.fetchAmazonJobs env fuel s = Ret B s1 ->
  let seen := seenJobIds s in
  let new := unseen seen B in
  (new = [] -> TokenExtractor.pollForJobs env fuel s = Ret [] s1)
  /\ (new <> [] ->
      forall s2,
        TokenExtractor.sendTelegramAlert env fuel new
          (set_seen (add_all seen new) s1) = Ret tt s2 ->
        TokenExtractor.pollForJobs env fuel s = Ret new s2).
Proof.
  intros Hfetch seen new.
  assert (Hseen : seenJobIds s1 = seen).
  { pose proof (modular_fetchAmazonJobs_keeps_seen env fuel s) as K.
    rewrite Hfetch in K. exact K. }
  unfold TokenExtractor.pollForJobs, try_catch, bind. rewrite Hfetch.
  split.
  - intros Hnil. unfold new in Hnil.
    destruct B as [|job B']; cbn [List.length Nat.eqb]; [reflexivity|].
    unfold gets. rewrite Hseen, Hnil. reflexivity.
  - intros Hnew s2 Hsend. unfold new in Hnew, Hsend |- *.
    destruct B as [|job B']; [elim Hnew; reflexivity|].
    cbn [List.length Nat.eqb]. unfold gets. rewrite Hseen.
    destruct (unseen seen (job :: B')) as [|n new'] eqn:En;
      [elim Hnew; reflexivity|].
    cbn [List.length Nat.ltb Nat.leb]. unfold modify. rewrite Hseen, Hsend.
    reflexivity.
Qed.

(** The cycle of the monitor, once the fetch has returned a batch with
    unseen jobs: their ids are recorded, the unseen jobs are handed to
    [sendTelegramAlert], and the set is trimmed where the script trims. *)
Lemma pollForJobs_hands_over
    (base64_utf8 : string -> string) (JSON_parse : string -> option json)
    (v : Variant) (env : Env) (fuel : nat) (s s1 s2 : State) (B : list Job) :
  fetchAmazonJobs base64_utf8 JSON_parse v env fuel s = Ret B s1 ->
  let seen := seenJobIds s in
  let new := unseen seen B in
  new <> [] ->
  sendTelegramAlert v env fuel new (set_seen (add_all seen new) s1)
    = Ret tt s2 ->
  pollForJobs base64_utf8 JSON_parse v env fuel s
  = Ret new (if trims_seen v then set_seen (trim (seenJobIds s2)) s2 else s2).
Proof.
  intros Hfetch seen new Hnew Hsend.
  assert (Hseen : seenJobIds s1 = seen).
  { pose proof (fetchAmazonJobs_keeps_seen base64_utf8 JSON_parse v env fuel s) as K.
    rewrite Hfetch in K. exact K. }
  unfold pollForJobs, try_catch, bind. rewrite Hfetch.
  unfold new in Hnew, Hsend |- *.
  destruct B as [|job B']; [elim Hnew; reflexivity|].
  cbn [List.length Nat.eqb]. unfold gets. rewrite Hseen.
  destruct (unseen seen (job :: B')) as [|n new'] eqn:En;
    [elim Hnew; reflexivity|].
  cbn [List.length Nat.ltb Nat.leb]. unfold modify. rewrite Hseen, Hsend.
  destruct (trims_seen v); reflexivity.
Qed.

(** C1. One poll cycle emits exactly the fetched jobs whose [jobId] is not
    in the seen set, in the order fetched, and nothing when every fetched
    [jobId] is already seen. To emit is to call [sendTelegramAlert] with
    those jobs: once the fetch has returned the batch [B], the cycle ends
    where it is when no job of [B] is unseen; otherwise it records the ids
    of the unseen jobs, hands exactly these jobs to [sendTelegramAlert],
    and ends in the state the dispatcher leaves (after the trim of the seen
    set in the copy that trims). The monitor and the modular monitor agree
    on this. *)
Theorem pollForJobs_emits_unseen
    (base64_utf8 : string -> string) (JSON_parse : string -> option json)
    (v : Variant) (env : Env) (fuel : nat) (s : State) (B : list Job) :
  let seen := seenJobIds s in
  let new := unseen seen B in
  (forall job, In job new <-> In job B /\ ~ In (jobId job) seen)
  /\ ((forall job, In job B -> In (jobId job) seen) -> new = [])
  /\ (forall s1,
      fetchAmazonJobs base64_utf8 JSON_parse v env fuel s = Ret B s1 ->
      (new = [] ->
       pollForJobs base64_utf8 JSON_parse v env fuel s = Ret [] s1)
      /\ (new <> [] ->
          forall s2,
            sendTelegramAlert v env fuel new (set_seen (add_all seen new) s1)
              = Ret tt s2 ->
            pollForJobs base64_utf8 JSON_parse v env fuel s
            = Ret new (if trims_seen v
                       then set_seen (trim (seenJobIds s2)) s2
                       else s2)))
  /\ (forall s1,
      TokenExtractor.fetchAmazonJobs env fuel s = Ret B s1 ->
      (new = [] -> TokenExtractor.pollForJobs env fuel s = Ret [] s1)
      /\ (new <> [] ->
          forall s2,
            TokenExtractor.sendTelegramAlert env fuel new
              (set_seen (add_all seen new) s1) = Ret tt s2 ->
            TokenExtractor.pollForJobs env fuel s = Ret new s2)).
Proof.
  intros seen new.
  split; [intros job; apply unseen_In|].
  split; [apply unseen_nil|].
  split; intros s1 Hfetch.
  - split.
    + apply (pollForJobs_after_fetch _ _ _ _ _ _ _ _ Hfetch).
    + intros Hnew s2 Hsend.
      exact (pollForJobs_hands_over _ _ _ _ _ _ _ _ _ Hfetch Hnew Hsend).
  - apply modular_pollForJobs_after_fetch. assumption.
Qed.

(** The scenario of the specification: seen = {J1, J2}, fetched =
    [J1, J2, J3]. The cycle records J3 and sends one message, about J3. *)
Lemma pollForJobs_emits_unseen_witness :
  exists s',
    pollForJobs as_is exp_only auto_token_monitor (calm [J1; J2; J3]) 5
      (steady ["J1"; "J2"]) = Ret [J3] s'
    /\ seenJobIds s' = ["J1"; "J2"; "J3"]
    /\ trace s'
       = [Sent J3 (Reply 200 (TgResult true));
          Fetched "eyJ.3600.sig" 0 (Some 3600000)
            (Reply 200 (WithJobCards (Some [J1; J2; J3])))].
Proof.
  destruct (pollForJobs_emits_unseen as_is exp_only auto_token_monitor
              (calm [J1; J2; J3]) 5 (steady ["J1"; "J2"]) [J1; J2; J3])
    as (_ & _ & H & _).
  destruct (H _ eq_refl) as (_ & Hnew).
  eexists. split.
  - eapply Hnew; [discriminate|reflexivity].
  - split; reflexivity.
Defined.

(** ** A bad poll does not end the process *)

Section Survival.
Variable base64_utf8 : string -> string.
Variable JSON_parse : string -> option json.
Variable v : Variant.
Variable env : Env.

Lemma pollForJobs_no_throw fuel s e s' :
  pollForJobs base64_utf8 JSON_parse v env fuel s <> Throw e s'.
Proof.
  unfold pollForJobs, try_catch at 1.
  match goal with |- context [match ?m s with _ => _ end] =>
    destruct (m s) end; discriminate.
Qed.

Lemma fire_no_throw fuel t s e s' :
  fire base64_utf8 JSON_parse v env fuel t s <> Throw e s'.
Proof.
  destruct t; simpl.
  - unfold bind.
    destruct (pollForJobs base64_utf8 JSON_parse v env fuel s) eqn:E;
      try discriminate.
    exfalso. eapply pollForJobs_no_throw; eauto.
  - unfold refreshTick, try_catch.
    match goal with |- context [match ?m s with _ => _ end] =>
      destruct (m s) end; discriminate.
  - discriminate.
  - destruct (clear_timer v); discriminate.
Qed.

Lemma run_no_throw fuel timers s e s' :
  run base64_utf8 JSON_parse v env fuel timers s <> Throw e s'.
Proof.
  revert s. induction timers as [|t rest IH]; intros s; simpl;
    [discriminate|].
  unfold bind.
  destruct (fire base64_utf8 JSON_parse v env fuel t s) eqn:E;
    [apply IH| |discriminate].
  exfalso. eapply fire_no_throw; eauto.
Qed.

(** With a token in hand, a fetch that fails on the network or on the
    parse of the body ends the cycle at once: one request, no job, no
    message, the seen set as it was. *)
Lemma bad_fetch_ends_cycle fuel s :
  isTokenExpired v s = false ->
  (listings env (fetches s) = NoReply
   \/ exists status, ok status = true
                     /\ listings env (fetches s) = Reply status Unparsable) ->
  exists s',
    fetchAmazonJobs base64_utf8 JSON_parse v env (S fuel) s = Ret [] s'
    /\ pollForJobs base64_utf8 JSON_parse v env (S fuel) s = Ret [] s'
    /\ seenJobIds s' = seenJobIds s
    /\ sends s' = sends s
    /\ fetches s' = S (fetches s).
Proof.
  intros Hfresh Hbad.
  assert (Hfetch : exists s',
    fetchAmazonJobs base64_utf8 JSON_parse v env (S fuel) s = Ret [] s'
    /\ seenJobIds s' = seenJobIds s /\ sends s' = sends s
    /\ fetches s' = S (fetches s)).
  { cbn [fetchAmazonJobs]. unfold try_catch, bind, gets.
    rewrite Hfresh. cbn [ret].
    unfold isTokenExpired in Hfresh.
    destruct (currentAuthToken s) as [token|]; [|discriminate].
    destruct (tokenExpiryTime s) as [expiry|]; [|discriminate].
    destruct (String.eqb token ""); [discriminate|].
    unfold postListings.
    destruct Hbad as [Hnet | (status & Hok & Hbody)].
    - rewrite Hnet. eexists. repeat split.
    - rewrite Hbody. cbn. rewrite Hok. cbn. eexists. repeat split. }
  destruct Hfetch as (s' & Hf & Hseen & Hsends & Hfetches).
  exists s'. repeat split; trivial.
  unfold pollForJobs, try_catch, bind. rewrite Hf. reflexivity.
Qed.

End Survival.

(** C7. No poll cycle throws, whatever the environment answers, and no
    sequence of timer firings does either: errors inside a tick are caught,
    and a network or parse error on the fetch ends the tick with an empty
    job list, nothing sent and the seen set unchanged. *)
Theorem poll_errors_are_contained
    (base64_utf8 : string -> string) (JSON_parse : string -> option json)
    (v : Variant) (env : Env) (fuel : nat) (s : State) :
  (forall e s', fetchAmazonJobs base64_utf8 JSON_parse v env fuel s <> Throw e s')
  /\ (forall e s', pollForJobs base64_utf8 JSON_parse v env fuel s <> Throw e s')
  /\ (forall timers e s',
        run base64_utf8 JSON_parse v env fuel timers s <> Throw e s')
  /\ (isTokenExpired v s = false ->
      (listings env (fetches s) = NoReply
       \/ exists status, ok status = true
                         /\ listings env (fetches s) = Reply status Unparsable) ->
      exists s',
        fetchAmazonJobs base64_utf8 JSON_parse v env (S fuel) s = Ret [] s'
        /\ pollForJobs base64_utf8 JSON_parse v env (S fuel) s = Ret [] s'
        /\ seenJobIds s' = seenJobIds s
        /\ sends s' = sends s
        /\ fetches s' = S (fetches s)).
Proof.
  split; [intros; apply fetchAmazonJobs_no_throw|].
  split; [intros; apply pollForJobs_no_throw|].
  split; [intros; apply run_no_throw|].
  apply bad_fetch_ends_cycle.
Qed.

(** A steady process whose listings request gets no answer. *)
Lemma poll_errors_are_contained_witness :
  exists s',
    pollForJobs as_is exp_only auto_token_monitor
      (with_listings (fun _ => NoReply) (calm [])) 1 (steady ["J1"])
    = Ret [] s'
    /\ seenJobIds s' = ["J1"].
Proof.
  destruct (poll_errors_are_contained as_is exp_only auto_token_monitor
              (with_listings (fun _ => NoReply) (calm [])) 0 (steady ["J1"]))
    as (_ & _ & _ & H).
  destruct (H eq_refl (or_introl eq_refl)) as (s' & _ & Hp & Hs & _).
  exists s'. split; [exact Hp|exact Hs].
Defined.

(** ** Rejected fetches *)

Lemma count_emit p e s :
  count p (emit e s) = if p e then S (count p s) else count p s.
Proof. unfold count. simpl. destruct (p e); reflexivity. Qed.

(** In the monitor a 403 is logged and thrown: one request, no renewal. *)
Lemma fetch_step_403 base64_utf8 JSON_parse v env fuel s :
  isTokenExpired v s = false ->
  (exists body, listings env (fetches s) = Reply 403 body) ->
  exists s1,
    fetchAmazonJobs base64_utf8 JSON_parse v env (S fuel) s = Ret [] s1
    /\ fetches s1 = S (fetches s)
    /\ visits s1 = visits s
    /\ currentAuthToken s1 = currentAuthToken s.
Proof.
  intros Hfresh (body & Hreply).
  cbn [fetchAmazonJobs]. unfold try_catch, bind, gets.
  rewrite Hfresh. mred.
  unfold isTokenExpired in Hfresh.
  destruct (currentAuthToken s) as [token|] eqn:Htok; [|discriminate].
  destruct (tokenExpiryTime s) as [expiry|] eqn:Hexp; [|discriminate].
  destruct (String.eqb token "") eqn:Hne; [discriminate|].
  unfold postListings. rewrite Hreply.
  change (negb (ok 403)) with true. change (403 =? 401) with false. mred.
  eexists. repeat split. assumption.
Qed.

(** ** The modular monitor: renewal and refetch on 401 and on 403 *)

Section ModularRetry.
Variable env : Env.
Hypothesis Hobliging : obliging env.

Lemma getValidToken_obliging s :
  exists token s',
    TokenExtractor.getValidToken env 3 s = Ret token s'
    /\ String.eqb token "" = false
    /\ fetches s' = fetches s.
Proof.
  destruct Hobliging as (Hlaunch & Hvisit & Hprobe).
  unfold TokenExtractor.getValidToken.
  cbn [TokenExtractor.getValidToken_loop Nat.ltb Nat.leb].
  unfold try_catch, bind, TokenExtractor.initializeFreshBrowser.
  rewrite Hlaunch.
  set (s3 := set_browser true _).
  unfold TokenExtractor.extractAuthToken, try_catch, bind, goto, wait, modify.
  change (browser s3) with true. mred.
  destruct (Hvisit (visits s3)) as (token & Hev & Hne).
  destruct (visit env (visits s3)) as [|ls ss] eqn:Hv; [discriminate|].
  rewrite Hev, Hne. mred.
  unfold TokenExtractor.validateTokenWithServer. rewrite Hprobe.
  change (200 =? 200) with true. mred.
  exists token. eexists. split; [reflexivity|]. split; [assumption|].
  subst s3. unfold fetches, count. simpl.
  destruct (browser s); reflexivity.
Qed.

Lemma ensureValidToken_obliging s :
  exists token s',
    TokenExtractor.ensureValidToken env s = Ret token s'
    /\ currentAuthToken s' = Some token
    /\ String.eqb token "" = false
    /\ fetches s' = fetches s.
Proof.
  assert (Hrenew : forall s0, exists token s',
    (token <- TokenExtractor.getValidToken env 3 ;;
     modify (set_token (Some token)) ;; ret token) s0 = Ret token s'
    /\ currentAuthToken s' = Some token
    /\ String.eqb token "" = false
    /\ fetches s' = fetches s0).
  { intros s0.
    destruct (getValidToken_obliging s0) as (token & s' & Hg & Hne & Hf).
    exists token. eexists. unfold bind. rewrite Hg.
    split; [reflexivity|]. repeat split; assumption. }
  unfold TokenExtractor.ensureValidToken, try_catch.
  unfold bind at 1, gets.
  destruct (currentAuthToken s) as [token|] eqn:Htok.
  - destruct (String.eqb token "") eqn:Hne.
    + destruct (Hrenew s) as (t & s' & Hr & H). rewrite Hr. eauto.
    + unfold bind at 1, TokenExtractor.validateTokenWithServer.
      destruct Hobliging as (_ & _ & Hprobe). rewrite Hprobe.
      change (200 =? 200) with true. mred.
      exists token. eexists. split; [reflexivity|].
      repeat split; assumption.
  - destruct (Hrenew s) as (t & s' & Hr & H). rewrite Hr. eauto.
Qed.

Lemma modular_step_rejected fuel s status :
  status = 401 \/ status = 403 ->
  (exists body, listings env (fetches s) = Reply status body) ->
  exists s1,
    TokenExtractor.fetchAmazonJobs env (S fuel) s
    = try_catch (TokenExtractor.fetchAmazonJobs env fuel)
        (fun _ => ret []) s1
    /\ fetches s1 = S (fetches s).
Proof.
  intros Hstatus (body & Hreply).
  cbn [TokenExtractor.fetchAmazonJobs]. unfold try_catch at 1, bind at 1.
  destruct (ensureValidToken_obliging s) as (token & s0 & He & _ & _ & Hf0).
  rewrite He. unfold bind at 1, postListings. rewrite Hf0, Hreply.
  assert (H200 : (status =? 200) = false) by (destruct Hstatus; subst; reflexivity).
  assert (Hrej : (status =? 401) || (status =? 403) = true)
    by (destruct Hstatus; subst; reflexivity).
  mred. rewrite H200, Hrej.
  unfold bind at 1, modify.
  set (s2 := set_token None _).
  destruct (ensureValidToken_obliging s2) as (token' & s1 & He1 & _ & _ & Hf1).
  unfold bind at 1. rewrite He1.
  exists s1. split; [reflexivity|].
  rewrite Hf1. subst s2. change (S (fetches s0) = S (fetches s)).
  rewrite Hf0. reflexivity.
Qed.

Lemma modular_step_200 fuel s jobs :
  listings env (fetches s) = Reply 200 (WithJobCards (Some jobs)) ->
  exists s1,
    TokenExtractor.fetchAmazonJobs env (S fuel) s = Ret jobs s1
    /\ fetches s1 = S (fetches s).
Proof.
  intros Hreply.
  cbn [TokenExtractor.fetchAmazonJobs]. unfold try_catch at 1, bind at 1.
  destruct (ensureValidToken_obliging s) as (token & s0 & He & _ & _ & Hf0).
  rewrite He. unfold bind at 1, postListings. rewrite Hf0, Hreply.
  mred. change (200 =? 200) with true. mred.
  eexists. split; [reflexivity|].
  change (S (fetches s0) = S (fetches s)). rewrite Hf0. reflexivity.
Qed.

Lemma modular_retries_k status k : forall fuel s jobs,
  status = 401 \/ status = 403 ->
  (forall i, (i < k)%nat ->
     exists body, listings env (fetches s + i) = Reply status body) ->
  listings env (fetches s + k) = Reply 200 (WithJobCards (Some jobs)) ->
  (k < fuel)%nat ->
  exists s',
    TokenExtractor.fetchAmazonJobs env fuel s = Ret jobs s'
    /\ fetches s' = (fetches s + k + 1)%nat.
Proof.
  induction k as [|k IH]; intros fuel s jobs Hstatus Hrej H200 Hfuel.
  - destruct fuel as [|fuel]; [lia|].
    rewrite Nat.add_0_r in H200.
    destruct (modular_step_200 fuel s jobs H200) as (s1 & Hr & Hf).
    exists s1. split; [assumption|lia].
  - destruct fuel as [|fuel]; [lia|].
    assert (H0 : exists body, listings env (fetches s) = Reply status body).
    { destruct (Hrej 0%nat) as (body & Hbody); [lia|].
      rewrite Nat.add_0_r in Hbody. eauto. }
    destruct (modular_step_rejected fuel s status Hstatus H0)
      as (s1 & Hstep & Hf1).
    destruct (IH fuel s1 jobs Hstatus) as (s' & Hr & Hf).
    + intros i Hi. rewrite Hf1.
      replace (S (fetches s) + i)%nat with (fetches s + S i)%nat by lia.
      apply Hrej. lia.
    + rewrite Hf1.
      replace (S (fetches s) + k)%nat with (fetches s + S k)%nat by lia.
      assumption.
    + lia.
    + exists s'. rewrite Hstep. unfold try_catch. rewrite Hr.
      split; [reflexivity|lia].
Qed.

End ModularRetry.

(** ** token-extractor.js: only a verified token is returned *)

Section Verified.
Variable env : Env.

Lemma pause_returns (b : bool) (s : State) :
  exists s', (if b then wait 10000 else ret tt) s = Ret tt s'.
Proof. destruct b; eexists; reflexivity. Qed.

Lemma initializeFreshBrowser_fuel s :
  TokenExtractor.initializeFreshBrowser env s <> OutOfFuel.
Proof.
  unfold TokenExtractor.initializeFreshBrowser.
  destruct (launch_ok env _); discriminate.
Qed.

Lemma extractAuthToken_fuel s :
  TokenExtractor.extractAuthToken env s <> OutOfFuel.
Proof.
  unfold TokenExtractor.extractAuthToken, try_catch, bind, goto, wait, modify.
  destruct (browser s); mred; [|discriminate].
  destruct (visit env (visits s)) as [|ls ss]; mred; [discriminate|].
  destruct (evaluate (Loaded ls ss)) as [token|]; [|discriminate].
  destruct (String.eqb token ""); discriminate.
Qed.

(** One pass through the body of the loop: it ends with a token only
    after a probe of that token was answered 200, and it never throws. *)
Lemma attempt_shape (b : bool) (s : State) :
  match
    try_catch
      (TokenExtractor.initializeFreshBrowser env ;;
       token <- TokenExtractor.extractAuthToken env ;;
       validation <- TokenExtractor.validateTokenWithServer env token ;;
       match validation with
       | Some valid => ret (Some valid)
       | None => (if b then wait 10000 else ret tt) ;; ret None
       end)
      (fun _ => (if b then wait 10000 else ret tt) ;; ret None) s
  with
  | Ret (Some token) s1 =>
      exists n rest, probe env n = Reply 200 tt
                     /\ trace s1 = Probed token (Reply 200 tt) :: rest
  | Ret None _ => True
  | Throw _ _ => False
  | OutOfFuel => False
  end.
Proof.
  unfold try_catch, bind at 1.
  pose proof (initializeFreshBrowser_fuel s) as Hinit.
  destruct (TokenExtractor.initializeFreshBrowser env s) as [[] s0|e s0|];
    [| |congruence].
  2:{ unfold bind. destruct (pause_returns b s0) as (s' & ->). exact I. }
  unfold bind at 1.
  pose proof (extractAuthToken_fuel s0) as Hext.
  destruct (TokenExtractor.extractAuthToken env s0) as [token s1|e s1|];
    [| |congruence].
  2:{ unfold bind. destruct (pause_returns b s1) as (s' & ->). exact I. }
  unfold bind at 1, TokenExtractor.validateTokenWithServer.
  destruct (probe env (probes s1)) as [|status []] eqn:Hp.
  - unfold bind. destruct (pause_returns b (emit (Probed token NoReply) s1))
      as (s' & ->). exact I.
  - destruct (status =? 200) eqn:H200.
    + apply Z.eqb_eq in H200. subst status. mred.
      exists (probes s1). eexists. split; [exact Hp|reflexivity].
    + unfold bind.
      destruct (pause_returns b (emit (Probed token (Reply status tt)) s1))
        as (s' & ->). exact I.
Qed.

Lemma getValidToken_loop_shape maxRetries fuel : forall attempts s,
  (maxRetries - attempts < fuel)%nat ->
  match TokenExtractor.getValidToken_loop env fuel attempts maxRetries s with
  | Ret token s' =>
      exists n rest, probe env n = Reply 200 tt
                     /\ trace s' = Probed token (Reply 200 tt) :: rest
  | Throw e _ => e = FailedToObtainToken
  | OutOfFuel => False
  end.
Proof.
  induction fuel as [|fuel IH]; intros attempts s Hfuel; [lia|].
  cbn [TokenExtractor.getValidToken_loop].
  destruct (attempts <? maxRetries)%nat eqn:Hlt; [|reflexivity].
  apply Nat.ltb_lt in Hlt. cbv zeta. unfold bind at 1.
  pose proof (attempt_shape (S attempts <? maxRetries)%nat s) as Hshape.
  match type of Hshape with match ?m with _ => _ end =>
    destruct m as [[token|] s1|e s1|] end; try contradiction.
  - exact Hshape.
  - apply IH. lia.
Qed.

End Verified.

(** C3, as the scripts behave. [getValidToken] of token-extractor.js always
    comes to an end, and when it returns a token its last action was a
    verification request for that very token answered 200; when no
    verification is answered 200 it fails with 'Failed to obtain valid
    token'. The modular monitor installs a token under the same condition.
    The test request of the stand-alone monitor scripts, by contrast, is
    advisory: [testToken] returns normally whatever the answer. *)
Theorem getValidToken_returns_verified (env : Env) (maxRetries : nat) (s : State) :
  TokenExtractor.getValidToken env maxRetries s <> OutOfFuel
  /\ (forall token s',
        TokenExtractor.getValidToken env maxRetries s = Ret token s' ->
        exists n rest, probe env n = Reply 200 tt
                       /\ trace s' = Probed token (Reply 200 tt) :: rest)
  /\ ((forall n, probe env n <> Reply 200 tt) ->
      exists s',
        TokenExtractor.getValidToken env maxRetries s
        = Throw FailedToObtainToken s')
  /\ (forall token s',
        TokenExtractor.ensureValidToken env s = Ret token s' ->
        currentAuthToken s' = Some token
        /\ exists n rest, probe env n = Reply 200 tt
                          /\ trace s' = Probed token (Reply 200 tt) :: rest)
  /\ (forall token s0,
        testToken env token s0
        = Ret tt (emit (Probed token (probe env (probes s0))) s0)).
Proof.
  assert (Hshape := getValidToken_loop_shape env maxRetries (S maxRetries) 0 s).
  assert (Hlt : (maxRetries - 0 < S maxRetries)%nat) by lia.
  specialize (Hshape Hlt).
  unfold TokenExtractor.getValidToken.
  split; [|split; [|split; [|split; [|exact (testToken_returns env)]]]].
  - intros E. rewrite E in Hshape. exact Hshape.
  - intros token s' E. rewrite E in Hshape. exact Hshape.
  - intros Hnone.
    destruct (TokenExtractor.getValidToken_loop env (S maxRetries) 0 maxRetries s)
      as [token s'|e s'|].
    + destruct Hshape as (n & rest & Hp & _). elim (Hnone n Hp).
    + exists s'. rewrite Hshape. reflexivity.
    + elim Hshape.
  - intros token s'.
    unfold TokenExtractor.ensureValidToken. rewrite try_rethrow.
    assert (Hrenew : forall s0,
      (token0 <- TokenExtractor.getValidToken env 3 ;;
       modify (set_token (Some token0)) ;; ret token0) s0 = Ret token s' ->
      currentAuthToken s' = Some token
      /\ exists n rest, probe env n = Reply 200 tt
                        /\ trace s' = Probed token (Reply 200 tt) :: rest).
    { intros s0. unfold bind, TokenExtractor.getValidToken.
      pose proof (getValidToken_loop_shape env 3 4 0 s0) as H3.
      destruct (TokenExtractor.getValidToken_loop env 4 0 3 s0)
        as [t s1|e s1|]; try discriminate.
      intros E. inversion E; subst. split; [reflexivity|].
      apply H3. lia. }
    unfold bind at 1, gets.
    destruct (currentAuthToken s) as [current|] eqn:Hcur; [|apply Hrenew].
    destruct (String.eqb current ""); [apply Hrenew|].
    unfold bind at 1, TokenExtractor.validateTokenWithServer.
    destruct (probe env (probes s)) as [|status []] eqn:Hp; [apply Hrenew|].
    destruct (status =? 200) eqn:H200; [|apply Hrenew].
    apply Z.eqb_eq in H200. subst status. mred.
    intros E. inversion E; subst. split; [exact Hcur|].
    exists (probes s). eexists. split; [exact Hp|reflexivity].
Qed.

(** A friendly environment and a process that has just started. *)
Lemma getValidToken_returns_verified_witness :
  exists n rest s',
    TokenExtractor.getValidToken (calm []) 3 fresh = Ret "eyJ" s'
    /\ probe (calm []) n = Reply 200 tt
    /\ trace s' = Probed "eyJ" (Reply 200 tt) :: rest.
Proof.
  destruct (getValidToken_returns_verified (calm []) 3 fresh) as (_ & H & _).
  assert (E : exists s',
    TokenExtractor.getValidToken (calm []) 3 fresh = Ret "eyJ" s')
    by (vm_compute; eexists; reflexivity).
  destruct E as (s' & E).
  destruct (H "eyJ" s' E) as (n & rest & Hp & Ht).
  exists n, rest, s'. repeat split; assumption.
Defined.

(** C3 as stated fails for the monitor script: [refreshAuthToken] installs
    and returns a token although its one verification request was answered
    500. *)
Lemma monitor_hands_back_unverified :
  ~ (forall env s token s',
       refreshAuthToken as_is exp_only auto_token_monitor env s = Ret token s' ->
       exists status, ok status = true
                      /\ In (Probed token (Reply status tt)) (trace s')).
Proof.
  intros H.
  pose proof (H untrusting fresh) as H'. vm_compute in H'.
  destruct (H' _ _ eq_refl) as (status & Hok & Hin).
  vm_compute in Hin.
  repeat (destruct Hin as [E|Hin];
          [first [discriminate E | inversion E; subst; discriminate Hok]|]).
  exact Hin.
Qed.

(** ** Extraction in the monitor: visits, waits and the last resort *)

Section Extraction.
Variable base64_utf8 : string -> string.
Variable JSON_parse : string -> option json.
Variable v : Variant.
Variable env : Env.

(** An extraction with enough budget ends as [extraction_outcome] says. *)
Lemma extractAuthToken_from_shape budget : forall retryCount s,
  (retryCount <= maxRetries)%nat ->
  (maxRetries - retryCount < budget)%nat ->
  extraction_outcome s retryCount
    (extractAuthToken_from base64_utf8 JSON_parse v env budget retryCount s).
Proof.
  induction budget as [|budget IH]; intros retryCount s Hle Hbudget; [lia|].
  cbn [extractAuthToken_from]. rewrite try_rethrow.
  unfold bind at 1, goto.
  destruct (browser s); mred; [|repeat split; lia].
  destruct (visit env (visits s)) as [|ls ss] eqn:Hv.
  { change ((S (visits s) <= visits s + (S maxRetries - retryCount))%nat
            /\ launches s = launches s /\ fetches s = fetches s).
    repeat split; lia. }
  unfold bind at 1, wait, modify.
  fold (settled v (Loaded ls ss) s).
  assert (Hvisits : visits (settled v (Loaded ls ss) s) = S (visits s))
    by reflexivity.
  assert (Hlaunches : launches (settled v (Loaded ls ss) s) = launches s)
    by reflexivity.
  assert (Hfetches : fetches (settled v (Loaded ls ss) s) = fetches s)
    by reflexivity.
  set (s1 := settled v (Loaded ls ss) s) in *. clearbody s1.
  assert (Hthrow : forall e, extraction_outcome s retryCount (Throw e s1))
    by (intros e; repeat split; lia).
  destruct (evaluate (Loaded ls ss)) as [token|]; [|apply Hthrow].
  destruct (String.eqb token "") eqn:Hne; [apply Hthrow|].
  unfold bind at 1.
  destruct (decodeJWT base64_utf8 JSON_parse token) as [decoded|e]; mred;
    [|apply Hthrow].
  destruct (truthy (Some decoded) && truthy (field "exp" decoded)).
  - unfold bind at 1, gets. cbv zeta.
    assert (Haccept : extraction_outcome s retryCount
      (match date_claim "iat" decoded, date_claim "exp" decoded with
       | Some _, Some expiry =>
           install token expiry ;; testToken env token ;; ret token
       | _, _ => throw RangeError
       end s1)).
    { destruct (date_claim "iat" decoded) as [issued|]; [|apply Hthrow].
      destruct (date_claim "exp" decoded) as [expiry|]; [|apply Hthrow].
      unfold bind, install, modify. rewrite testToken_returns. mred.
      split; [reflexivity|]. split; [assumption|].
      split; [eexists; reflexivity|].
      change (visits (emit _ (set_expiry _ (set_token _ s1))))
        with (visits s1).
      change (launches (emit _ (set_expiry _ (set_token _ s1))))
        with (launches s1).
      change (fetches (emit _ (set_expiry _ (set_token _ s1))))
        with (fetches s1).
      repeat split; lia. }
    assert (Hrevisit : (retryCount <? maxRetries)%nat = true ->
      extraction_outcome s retryCount
        ((wait 30000 ;;
          extractAuthToken_from base64_utf8 JSON_parse v env budget
            (S retryCount)) s1)).
    { intros Hlt. apply Nat.ltb_lt in Hlt.
      unfold bind, wait, modify. fold (rested s1).
      assert (Hb : (maxRetries - S retryCount < budget)%nat) by lia.
      specialize (IH (S retryCount) (rested s1) Hlt Hb).
      unfold extraction_outcome in IH |- *.
      change (visits (rested s1)) with (visits s1) in IH.
      change (launches (rested s1)) with (launches s1) in IH.
      change (fetches (rested s1)) with (fetches s1) in IH.
      destruct (extractAuthToken_from base64_utf8 JSON_parse v env budget
                  (S retryCount) (rested s1)) as [t s'|e s'|];
        [| |assumption].
      - destruct IH as (Ht & Hn & He & Hvis & Hl & Hf).
        repeat split; trivial; lia.
      - destruct IH as (Hvis & Hl & Hf). repeat split; lia. }
    destruct (guards_expiry v); [|exact Haccept].
    destruct (nan_leb _ 0).
    + destruct (retryCount <? maxRetries)%nat eqn:Hlt;
        [apply Hrevisit; reflexivity|apply Hthrow].
    + destruct (nan_ltb _ (5 * 60 * 1000)); [|exact Haccept].
      destruct (retryCount <? maxRetries)%nat eqn:Hlt;
        [apply Hrevisit; reflexivity|exact Haccept].
  - unfold bind, gets, install, modify. mred.
    split; [reflexivity|]. split; [assumption|].
    split; [eexists; reflexivity|].
    change (visits (set_expiry _ (set_token _ s1))) with (visits s1).
    change (launches (set_expiry _ (set_token _ s1))) with (launches s1).
    change (fetches (set_expiry _ (set_token _ s1))) with (fetches s1).
    repeat split; lia.
Qed.

End Extraction.

Section Guard.
Variable base64_utf8 : string -> string.
Variable JSON_parse : string -> option json.
Variable v : Variant.
Variable env : Env.

Lemma numeric_date_claim name decoded n :
  numeric_date name decoded n -> date_claim name decoded = Some (n * 1000).
Proof.
  intros (Hfield & Hrange). unfold date_claim. rewrite Hfield.
  cbn [number option_map date].
  apply Z.leb_le in Hrange. rewrite Hrange. reflexivity.
Qed.

Lemma numeric_date_truthy name decoded n :
  numeric_date name decoded n -> n <> 0 ->
  truthy (Some decoded) && truthy (field name decoded) = true.
Proof.
  intros (Hfield & _) Hnz. rewrite Hfield.
  destruct decoded; try discriminate Hfield.
  cbn [truthy andb]. apply negb_true_iff, Z.eqb_neq. assumption.
Qed.

(** What one attempt does once it has read a non-zero expiry. *)
Lemma attempt_reads_expiry budget retryCount s token decoded exp :
  offers base64_utf8 JSON_parse env s token decoded ->
  numeric_date "exp" decoded exp ->
  exp <> 0 ->
  extractAuthToken_from base64_utf8 JSON_parse v env (S budget) retryCount s
  = (let s1 := settled v (visit env (visits s)) s in
     let timeLeft := exp * 1000 - clock s1 in
     let accept :=
       match date_claim "iat" decoded with
       | Some _ =>
           install token (exp * 1000) ;; testToken env token ;; ret token
       | None => throw RangeError
       end in
     let revisit :=
       wait 30000 ;;
       extractAuthToken_from base64_utf8 JSON_parse v env budget
         (S retryCount) in
     if guards_expiry v then
       if timeLeft <=? 0 then
         if (retryCount <? maxRetries)%nat then revisit s1
         else Throw UnableToGetValidToken s1
       else if timeLeft <? 5 * 60 * 1000 then
         if (retryCount <? maxRetries)%nat then revisit s1 else accept s1
       else accept s1
     else accept s1).
Proof.
  intros (Hb & Hev & Hne & Hdec) Hexp Hnz.
  pose proof (numeric_date_claim _ _ _ Hexp) as Hdate.
  pose proof (numeric_date_truthy _ _ _ Hexp Hnz) as Hhas.
  cbn [extractAuthToken_from]. rewrite try_rethrow.
  unfold bind at 1, goto. rewrite Hb. mred.
  destruct (visit env (visits s)) as [|ls ss] eqn:Hv; [discriminate|].
  unfold bind at 1, wait, modify. fold (settled v (Loaded ls ss) s).
  rewrite Hev, Hne. unfold bind at 1. rewrite Hdec. mred. rewrite Hhas.
  unfold bind at 1, gets. rewrite Hdate. cbv zeta.
  cbn [option_map nan_leb nan_ltb].
  destruct (date_claim "iat" decoded);
    destruct (guards_expiry v); try reflexivity;
    destruct (exp * 1000 - clock (settled v (Loaded ls ss) s) <=? 0);
    try (destruct (retryCount <? maxRetries)%nat; reflexivity);
    destruct (exp * 1000 - clock (settled v (Loaded ls ss) s) <? 5 * 60 * 1000);
    try reflexivity;
    destruct (retryCount <? maxRetries)%nat; reflexivity.
Qed.

Lemma settled_clock page s :
  clock (settled v page s) = clock s + settle_ms v.
Proof. reflexivity. Qed.

(** What one attempt does with a token whose [exp] is absent or falsy: the
    token is installed at once for 59 minutes, without a test. *)
Lemma attempt_without_expiry budget retryCount s token decoded :
  offers base64_utf8 JSON_parse env s token decoded ->
  truthy (field "exp" decoded) = false ->
  exists s',
    extractAuthToken_from base64_utf8 JSON_parse v env (S budget) retryCount s
    = Ret token s'
    /\ currentAuthToken s' = Some token
    /\ tokenExpiryTime s' = Some (clock s + settle_ms v + 59 * 60 * 1000)
    /\ visits s' = S (visits s)
    /\ probes s' = probes s.
Proof.
  intros (Hb & Hev & Hne & Hdec) Hexp.
  cbn [extractAuthToken_from].
  unfold try_catch, bind, gets, goto, wait, modify.
  destruct (visit env (visits s)) as [|ls ss] eqn:Hv; [discriminate|].
  repeat (progress (mred; rewrite ?Hb, ?Hv, ?Hev, ?Hne, ?Hdec, ?Hexp,
                      ?andb_false_r)).
  unfold install, modify.
  eexists. split; [reflexivity|]. repeat split.
Qed.

Section Guarded.
Hypothesis Hguards : guards_expiry v = true.

(** A token that is expired or has less than five minutes left makes the
    extraction wait 30 seconds and visit the page again, on the same
    browser, while attempts remain. *)
Lemma short_lived_is_revisited budget retryCount s token decoded exp :
  offers base64_utf8 JSON_parse env s token decoded ->
  numeric_date "exp" decoded exp ->
  exp <> 0 ->
  exp * 1000 - (clock s + settle_ms v) < 5 * 60 * 1000 ->
  (retryCount < maxRetries)%nat ->
  extractAuthToken_from base64_utf8 JSON_parse v env (S budget) retryCount s
  = extractAuthToken_from base64_utf8 JSON_parse v env budget (S retryCount)
      (rested (settled v (visit env (visits s)) s)).
Proof.
  intros Hoffers Hexp Hnz Hshort Hlt.
  rewrite (attempt_reads_expiry _ _ _ _ _ _ Hoffers Hexp Hnz). cbv zeta.
  rewrite settled_clock, Hguards.
  apply Nat.ltb_lt in Hlt. rewrite Hlt.
  destruct (_ <=? 0); [reflexivity|].
  apply Z.ltb_lt in Hshort. rewrite Hshort. reflexivity.
Qed.

(** On the last attempt a token that has not yet expired, and whose time
    of issue can be printed, is accepted however little time it has left. *)
Lemma short_lived_is_last_resort budget s token decoded exp iat :
  offers base64_utf8 JSON_parse env s token decoded ->
  numeric_date "exp" decoded exp ->
  exp <> 0 ->
  numeric_date "iat" decoded iat ->
  0 < exp * 1000 - (clock s + settle_ms v) ->
  exists s',
    extractAuthToken_from base64_utf8 JSON_parse v env (S budget) maxRetries s
    = Ret token s'
    /\ currentAuthToken s' = Some token
    /\ tokenExpiryTime s' = Some (exp * 1000).
Proof.
  intros Hoffers Hexp Hnz Hiat Hleft.
  rewrite (attempt_reads_expiry _ _ _ _ _ _ Hoffers Hexp Hnz). cbv zeta.
  rewrite settled_clock, Hguards, Nat.ltb_irrefl.
  rewrite (numeric_date_claim _ _ _ Hiat).
  apply Z.leb_gt in Hleft. rewrite Hleft.
  assert (Haccept : forall s1, exists s',
    (install token (exp * 1000) ;; testToken env token ;; ret token) s1
    = Ret token s'
    /\ currentAuthToken s' = Some token
    /\ tokenExpiryTime s' = Some (exp * 1000)).
  { intros s1. unfold bind, install, modify. rewrite testToken_returns.
    eexists. repeat split. }
  destruct (_ <? 5 * 60 * 1000); apply Haccept.
Qed.

(** Without a time of issue the last resort ends in the RangeError of
    [toISOString], before anything is installed. *)
Lemma last_resort_needs_iat budget s token decoded exp :
  offers base64_utf8 JSON_parse env s token decoded ->
  numeric_date "exp" decoded exp ->
  exp <> 0 ->
  field "iat" decoded = None ->
  0 < exp * 1000 - (clock s + settle_ms v) ->
  extractAuthToken_from base64_utf8 JSON_parse v env (S budget) maxRetries s
  = Throw RangeError (settled v (visit env (visits s)) s).
Proof.
  intros Hoffers Hexp Hnz Hiat Hleft.
  rewrite (attempt_reads_expiry _ _ _ _ _ _ Hoffers Hexp Hnz). cbv zeta.
  rewrite settled_clock, Hguards, Nat.ltb_irrefl.
  assert (Hissue : date_claim "iat" decoded = None)
    by (unfold date_claim; rewrite Hiat; reflexivity).
  rewrite Hissue.
  apply Z.leb_gt in Hleft. rewrite Hleft.
  destruct (_ <? 5 * 60 * 1000); reflexivity.
Qed.

(** On the last attempt an expired token makes the extraction fail. *)
Lemma expired_is_refused budget s token decoded exp :
  offers base64_utf8 JSON_parse env s token decoded ->
  numeric_date "exp" decoded exp ->
  exp <> 0 ->
  exp * 1000 - (clock s + settle_ms v) <= 0 ->
  extractAuthToken_from base64_utf8 JSON_parse v env (S budget) maxRetries s
  = Throw UnableToGetValidToken (settled v (visit env (visits s)) s).
Proof.
  intros Hoffers Hexp Hnz Hleft.
  rewrite (attempt_reads_expiry _ _ _ _ _ _ Hoffers Hexp Hnz). cbv zeta.
  rewrite settled_clock, Hguards, Nat.ltb_irrefl.
  apply Z.leb_le in Hleft. rewrite Hleft. reflexivity.
Qed.

End Guarded.
End Guard.




(** ** The expiry guard of the fetch *)

Section Renewal.
Variable base64_utf8 : string -> string.
Variable JSON_parse : string -> option json.
Variable v : Variant.
Variable env : Env.

(** The stored token is taken as usable exactly when a token and an expiry
    are stored and the clock is not past the expiry minus the margin. *)
Lemma isTokenExpired_false_iff s :
  isTokenExpired v s = false <->
  exists token expiry,
    currentAuthToken s = Some token
    /\ String.eqb token "" = false
    /\ tokenExpiryTime s = Some expiry
    /\ clock s <= expiry - refresh_margin v.
Proof.
  unfold isTokenExpired. split.
  - destruct (currentAuthToken s) as [token|]; [|discriminate].
    destruct (tokenExpiryTime s) as [expiry|]; [|discriminate].
    destruct (String.eqb token "") eqn:Hne; [discriminate|].
    intros H. apply Z.ltb_ge in H. exists token, expiry. auto.
  - intros (token & expiry & -> & -> & -> & H).
    apply Z.ltb_ge. assumption.
Qed.

Lemma isTokenExpired_true s :
  (currentAuthToken s = None
   \/ tokenExpiryTime s = None
   \/ exists expiry, tokenExpiryTime s = Some expiry
                     /\ expiry - clock s < refresh_margin v) ->
  isTokenExpired v s = true.
Proof.
  intros H. destruct (isTokenExpired v s) eqn:E; [reflexivity|].
  apply isTokenExpired_false_iff in E
    as (token & expiry & Htok & _ & Hexp & Hle).
  destruct H as [H|[H|(expiry' & H & Hlt)]]; try congruence.
  assert (expiry' = expiry) by congruence. subst. lia.
Qed.

(** A renewal ends; when it returns a token, that token is installed and
    the page was visited; it never sends a listings request. *)
Lemma refreshAuthToken_shape s :
  match refreshAuthToken base64_utf8 JSON_parse v env s with
  | Ret token s' =>
      currentAuthToken s' = Some token
      /\ String.eqb token "" = false
      /\ (visits s < visits s')%nat
      /\ fetches s' = fetches s
  | Throw _ s' => fetches s' = fetches s
  | OutOfFuel => False
  end.
Proof.
  unfold refreshAuthToken. rewrite try_rethrow.
  unfold bind at 1, gets.
  assert (Hextract : forall s0,
    visits s0 = visits s -> fetches s0 = fetches s ->
    match extractAuthToken base64_utf8 JSON_parse v env 0 s0 with
    | Ret token s' =>
        currentAuthToken s' = Some token
        /\ String.eqb token "" = false
        /\ (visits s < visits s')%nat
        /\ fetches s' = fetches s
    | Throw _ s' => fetches s' = fetches s
    | OutOfFuel => False
    end).
  { intros s0 Hv Hf. unfold extractAuthToken.
    pose proof (extractAuthToken_from_shape base64_utf8 JSON_parse v env
                  (S maxRetries - 0) 0 s0) as H.
    destruct (extractAuthToken_from _ _ _ _ _ _ s0) as [t s'|e s'|].
    - destruct H as (Ht & Hn & _ & Hvis & _ & Hfe); [lia|lia|].
      repeat split; [assumption|assumption|lia|congruence].
    - destruct H as (_ & _ & Hfe); [lia|lia|]. congruence.
    - apply H; lia. }
  destruct (browser s); cbn [negb].
  - unfold bind. mred. apply Hextract; reflexivity.
  - unfold bind at 1, initializeBrowser.
    destruct (launch_ok env (launches s)); [|reflexivity].
    apply Hextract; reflexivity.
Qed.

Lemma guarded_cycle {A} (cond : State -> bool) (pre : M unit) (rest : M A)
    (h : error -> M A) (s : State) :
  try_catch (c <- gets cond ;; (if c then pre else ret tt) ;; rest) h s
  = if cond s then try_catch (pre ;; rest) h s else try_catch rest h s.
Proof. unfold try_catch, bind, gets. destruct (cond s); reflexivity. Qed.

(** A cycle that finds the token expired renews it before anything else:
    when the renewal fails the cycle is over without a request, when it
    succeeds the next thing the cycle does is to send its request with the
    token just installed, and it goes on as a cycle that starts with that
    token does. *)
Lemma expired_cycle_renews_first fuel s :
  isTokenExpired v s = true ->
  match refreshAuthToken base64_utf8 JSON_parse v env s with
  | Ret token s1 =>
      currentAuthToken s1 = Some token
      /\ (visits s < visits s1)%nat
      /\ fetches s1 = fetches s
      /\ (forall jobs s',
           fetchAmazonJobs base64_utf8 JSON_parse v env (S fuel) s
             = Ret jobs s' ->
           exists new,
             trace s' =
               (new ++ Fetched token (clock s1) (tokenExpiryTime s1)
                         (listings env (fetches s1)) :: trace s1)%list)
      /\ (isTokenExpired v s1 = false ->
          fetchAmazonJobs base64_utf8 JSON_parse v env (S fuel) s
          = fetchAmazonJobs base64_utf8 JSON_parse v env (S fuel) s1)
  | Throw _ s1 =>
      fetches s1 = fetches s
      /\ fetchAmazonJobs base64_utf8 JSON_parse v env (S fuel) s = Ret [] s1
  | OutOfFuel => False
  end.
Proof.
  intros Hexpired.
  pose proof (refreshAuthToken_shape s) as Hshape.
  cbn [fetchAmazonJobs]. rewrite guarded_cycle, Hexpired.
  destruct (refreshAuthToken base64_utf8 JSON_parse v env s)
    as [token s1|e s1|] eqn:E; [| |assumption].
  - destruct Hshape as (Ht & Hn & Hv & Hf). repeat split; trivial.
    + intros jobs s'.
      unfold try_catch, bind at 1. unfold bind at 1. rewrite E.
      cbv beta iota delta [ret].
      unfold bind at 1, gets. rewrite Ht, Hn.
      unfold bind at 1, postListings.
      set (s2 := emit (Fetched token (clock s1) (tokenExpiryTime s1)
                         (listings env (fetches s1))) s1).
      change (Fetched token (clock s1) (tokenExpiryTime s1)
                (listings env (fetches s1)) :: trace s1) with (trace s2).
      clearbody s2.
      destruct (listings env (fetches s1)) as [|status body].
      { intros E'. inversion E'; subst. exists []. reflexivity. }
      cbv beta iota.
      match goal with |- match ?k s2 with _ => _ end = _ -> _ =>
        assert (Hk : grows k)
          by (grow;
              auto using fetchAmazonJobs_grows, refreshAuthToken_grows
                with trace);
        specialize (Hk s2); destruct (k s2) as [a s3|e3 s3|]
      end; [| |discriminate];
        intros E'; inversion E'; subst; exact Hk.
    + intros Hfresh. rewrite guarded_cycle, Hfresh.
      unfold try_catch, bind at 1. unfold bind at 1. rewrite E. reflexivity.
  - split; [assumption|].
    unfold try_catch, bind at 1. unfold bind at 1. rewrite E. reflexivity.
Qed.

End Renewal.

Section RetryCause.
Variable base64_utf8 : string -> string.
Variable JSON_parse : string -> option json.
Variable v : Variant.
Variable env : Env.

Lemma retried_refl s s' :
  fetches s' = fetches s \/ fetches s' = S (fetches s) ->
  retried_on_401_only env s s'.
Proof. intros H. split; [lia|]. intros i Hi Hlt. lia. Qed.

(** In a finished cycle, whatever the environment, a request is followed by
    another one only when it was answered 401. *)
Lemma fetch_retries_on_401_only fuel : forall s jobs s',
  fetchAmazonJobs base64_utf8 JSON_parse v env fuel s = Ret jobs s' ->
  retried_on_401_only env s s'.
Proof.
  induction fuel as [|fuel IH]; intros s jobs s'; [discriminate|].
  cbn [fetchAmazonJobs]. rewrite guarded_cycle.
  match goal with |- (if _ then _ else try_catch ?rest ?h s) = _ -> _ =>
    assert (Hrest : forall s1, fetches s1 = fetches s ->
      try_catch rest h s1 = Ret jobs s' -> retried_on_401_only env s s')
  end.
  { intros s1 Hs1. unfold try_catch, bind at 1, gets.
    destruct (currentAuthToken s1) as [token|].
    2:{ intros E. inversion E; subst. apply retried_refl. auto. }
    destruct (String.eqb token "").
    { intros E. inversion E; subst. apply retried_refl. auto. }
    unfold bind at 1, postListings.
    set (s2 := emit _ s1).
    assert (Hs2 : fetches s2 = S (fetches s))
      by (rewrite <- Hs1; reflexivity).
    destruct (listings env (fetches s1)) as [|status body] eqn:Hreply.
    { intros E. inversion E; subst. apply retried_refl. auto. }
    cbv beta iota.
    destruct (ok status); cbn [negb].
    { destruct body as [| | |[cards|]]; intros E; inversion E; subst;
        apply retried_refl; auto. }
    destruct (status =? 401) eqn:H401.
    2:{ intros E. inversion E; subst. apply retried_refl. auto. }
    apply Z.eqb_eq in H401. subst status.
    unfold bind at 1.
    pose proof (refreshAuthToken_shape base64_utf8 JSON_parse v env s2) as Hr.
    destruct (refreshAuthToken base64_utf8 JSON_parse v env s2)
      as [token' s3|e s3|]; [| |contradiction].
    2:{ intros E. inversion E; subst. apply retried_refl. right. lia. }
    destruct Hr as (_ & _ & _ & Hs3).
    specialize (IH s3).
    destruct (fetchAmazonJobs base64_utf8 JSON_parse v env fuel s3)
      as [jobs' s4|e s4|] eqn:Hinner; [| |discriminate].
    2:{ exfalso. eapply fetchAmazonJobs_no_throw. exact Hinner. }
    intros E. inversion E; subst.
    destruct (IH _ _ eq_refl) as (Hle & Hall).
    split; [lia|]. intros i Hi Hlt.
    destruct (Nat.eq_dec i (fetches s)) as [->|Hne].
    - rewrite <- Hs1. eauto.
    - apply Hall; lia. }
  destruct (isTokenExpired v s); [|apply Hrest; reflexivity].
  unfold try_catch at 1, bind at 1. unfold bind at 1.
  pose proof (refreshAuthToken_shape base64_utf8 JSON_parse v env s) as Hr.
  destruct (refreshAuthToken base64_utf8 JSON_parse v env s)
    as [token s1|e s1|]; [| |contradiction].
  - destruct Hr as (_ & _ & _ & Hs1). intros E. apply (Hrest s1 Hs1).
    unfold try_catch. exact E.
  - intros E. inversion E; subst. apply retried_refl. auto.
Qed.

End RetryCause.

(** ** Rejected fetches while the renewals succeed *)

Section RetryWhileRenewing.
Variable base64_utf8 : string -> string.
Variable JSON_parse : string -> option json.
Variable v : Variant.
Variable env : Env.
Hypothesis Hrenew : renewals_succeed base64_utf8 JSON_parse v env.

(** A renewal that succeeds leaves a token to send, has visited the page
    and has made no request. *)
Lemma renewal_succeeds s :
  exists token s',
    refreshAuthToken base64_utf8 JSON_parse v env s = Ret token s'
    /\ currentAuthToken s' = Some token
    /\ String.eqb token "" = false
    /\ (visits s < visits s')%nat
    /\ fetches s' = fetches s.
Proof.
  destruct (Hrenew s) as (token & s' & Hr).
  pose proof (refreshAuthToken_shape base64_utf8 JSON_parse v env s) as H.
  rewrite Hr in H. exists token, s'. split; [assumption|exact H].
Qed.

(** A 401 is followed by a renewal and by the cycle all over again. *)
Lemma fetch_renews_on_401 fuel s :
  (exists body, listings env (fetches s) = Reply 401 body) ->
  exists s3,
    fetchAmazonJobs base64_utf8 JSON_parse v env (S fuel) s
    = try_catch (fetchAmazonJobs base64_utf8 JSON_parse v env fuel)
        (fun _ => ret []) s3
    /\ fetches s3 = S (fetches s)
    /\ (visits s < visits s3)%nat.
Proof.
  intros (body & Hreply).
  cbn [fetchAmazonJobs]. rewrite guarded_cycle.
  match goal with
  | |- exists s3, (if _ then _ else try_catch ?rest ?h s) = _ /\ _ =>
    assert (Hrest : forall s1 token,
      currentAuthToken s1 = Some token -> String.eqb token "" = false ->
      fetches s1 = fetches s -> (visits s <= visits s1)%nat ->
      exists s3,
        try_catch rest h s1
        = try_catch (fetchAmazonJobs base64_utf8 JSON_parse v env fuel)
            (fun _ => ret []) s3
        /\ fetches s3 = S (fetches s)
        /\ (visits s < visits s3)%nat)
  end.
  { intros s1 token Htok Hne Hf Hv.
    unfold try_catch at 1, bind at 1, gets. rewrite Htok, Hne.
    unfold bind at 1, postListings. rewrite Hf, Hreply.
    change (negb (ok 401)) with true.
    change (401 =? 401) with true. cbv iota beta.
    set (s2 := emit _ s1).
    assert (Hf2 : fetches s2 = S (fetches s)) by (rewrite <- Hf; reflexivity).
    assert (Hv2 : visits s2 = visits s1) by reflexivity.
    destruct (renewal_succeeds s2) as (token' & s3 & Hr & _ & _ & Hvis & Hfe).
    exists s3. unfold bind at 1. rewrite Hr.
    split; [unfold try_catch; reflexivity|]. split; lia. }
  destruct (isTokenExpired v s) eqn:Hexp.
  - destruct (renewal_succeeds s) as (token & s1 & Hr & Htok & Hne & Hvis & Hfe).
    destruct (Hrest s1 token Htok Hne Hfe) as (s3 & E & Hf3 & Hv3); [lia|].
    exists s3. split; [|split; assumption].
    rewrite <- E. unfold try_catch, bind. rewrite Hr. reflexivity.
  - unfold isTokenExpired in Hexp.
    destruct (currentAuthToken s) as [token|] eqn:Htok; [|discriminate].
    destruct (tokenExpiryTime s) as [expiry|]; [|discriminate].
    destruct (String.eqb token "") eqn:Hne; [discriminate|].
    apply (Hrest s token Htok Hne eq_refl). lia.
Qed.

(** A 200 with job cards ends the cycle with these jobs. *)
Lemma fetch_returns_on_200 fuel s jobs :
  listings env (fetches s) = Reply 200 (WithJobCards (Some jobs)) ->
  exists s',
    fetchAmazonJobs base64_utf8 JSON_parse v env (S fuel) s = Ret jobs s'
    /\ fetches s' = S (fetches s)
    /\ (visits s <= visits s')%nat.
Proof.
  intros Hreply.
  cbn [fetchAmazonJobs]. rewrite guarded_cycle.
  match goal with
  | |- exists s', (if _ then _ else try_catch ?rest ?h s) = _ /\ _ =>
    assert (Hrest : forall s1 token,
      currentAuthToken s1 = Some token -> String.eqb token "" = false ->
      fetches s1 = fetches s -> (visits s <= visits s1)%nat ->
      exists s',
        try_catch rest h s1 = Ret jobs s'
        /\ fetches s' = S (fetches s)
        /\ (visits s <= visits s')%nat)
  end.
  { intros s1 token Htok Hne Hf Hv.
    unfold try_catch, bind, gets. rewrite Htok, Hne.
    unfold postListings. rewrite Hf, Hreply.
    change (negb (ok 200)) with false. cbv iota beta.
    eexists. split; [reflexivity|]. split.
    - rewrite <- Hf. reflexivity.
    - exact Hv. }
  destruct (isTokenExpired v s) eqn:Hexp.
  - destruct (renewal_succeeds s) as (token & s1 & Hr & Htok & Hne & Hvis & Hfe).
    destruct (Hrest s1 token Htok Hne Hfe) as (s' & E & Hf' & Hv'); [lia|].
    exists s'. split; [|split; assumption].
    rewrite <- E. unfold try_catch, bind. rewrite Hr. reflexivity.
  - unfold isTokenExpired in Hexp.
    destruct (currentAuthToken s) as [token|] eqn:Htok; [|discriminate].
    destruct (tokenExpiryTime s) as [expiry|]; [|discriminate].
    destruct (String.eqb token "") eqn:Hne; [discriminate|].
    apply (Hrest s token Htok Hne eq_refl). lia.
Qed.

(** After [k] answers 401 in a row and a 200: [k + 1] requests, and at
    least one visit of the page per 401. *)
Lemma fetch_retries_while_renewing k : forall fuel s jobs,
  (forall i, (i < k)%nat ->
     exists body, listings env (fetches s + i) = Reply 401 body) ->
  listings env (fetches s + k) = Reply 200 (WithJobCards (Some jobs)) ->
  (k < fuel)%nat ->
  exists s',
    fetchAmazonJobs base64_utf8 JSON_parse v env fuel s = Ret jobs s'
    /\ fetches s' = (fetches s + k + 1)%nat
    /\ (visits s + k <= visits s')%nat.
Proof.
  induction k as [|k IH]; intros fuel s jobs H401 H200 Hfuel.
  - destruct fuel as [|fuel]; [lia|].
    rewrite Nat.add_0_r in H200.
    destruct (fetch_returns_on_200 fuel s jobs H200) as (s1 & Hr & Hf & Hv).
    exists s1. repeat split; [assumption|lia|lia].
  - destruct fuel as [|fuel]; [lia|].
    assert (H0 : exists body, listings env (fetches s) = Reply 401 body).
    { destruct (H401 0%nat) as (body & Hbody); [lia|].
      rewrite Nat.add_0_r in Hbody. eauto. }
    destruct (fetch_renews_on_401 fuel s H0) as (s1 & Hstep & Hf1 & Hv1).
    destruct (IH fuel s1 jobs) as (s' & Hr & Hf & Hv).
    + intros i Hi. rewrite Hf1.
      replace (S (fetches s) + i)%nat with (fetches s + S i)%nat by lia.
      apply H401. lia.
    + rewrite Hf1.
      replace (S (fetches s) + k)%nat with (fetches s + S k)%nat by lia.
      assumption.
    + lia.
    + exists s'. rewrite Hstep. unfold try_catch. rewrite Hr.
      repeat split; lia.
Qed.

(** When every request is answered 401 the cycle never comes to an end. *)
Lemma fetch_never_ends_while_renewing fuel : forall s,
  (forall n, exists body, listings env n = Reply 401 body) ->
  fetchAmazonJobs base64_utf8 JSON_parse v env fuel s = OutOfFuel.
Proof.
  induction fuel as [|fuel IH]; intros s H401; [reflexivity|].
  destruct (fetch_renews_on_401 fuel s (H401 _)) as (s1 & Hstep & _).
  rewrite Hstep. unfold try_catch. rewrite (IH s1 H401). reflexivity.
Qed.

End RetryWhileRenewing.


(** In the friendly environment every renewal succeeds: the browser is
    launched if need be and the first visit finds a token. *)
Lemma calm_renewals_succeed (jobs : list Job)
    (f : nat -> HttpReply ListingsBody) :
  renewals_succeed as_is exp_only auto_token_monitor
    (with_listings f (calm jobs)).
Proof.
  intros s.
  unfold refreshAuthToken, extractAuthToken.
  cbn [Nat.sub maxRetries extractAuthToken_from].
  unfold try_catch, bind, gets, goto, wait, modify, initializeBrowser.
  destruct (browser s) eqn:Hb; mred;
    cbn [launch_ok visit with_listings calm evaluate browser set_browser emit
         advance negb];
    rewrite ?Hb; eexists; eexists; reflexivity.
Qed.




(** C4, as the scripts behave. The stored token is reused exactly while a
    token and an expiry are stored and the clock is not past the expiry
    minus the margin; otherwise [isTokenExpired] is true and the cycle runs
    a renewal before any request, ends without a request when the renewal
    fails, and when it succeeds sends its request at once with the token
    just installed, whatever the expiry of that token. *)
Theorem expired_token_is_renewed
    (base64_utf8 : string -> string) (JSON_parse : string -> option json)
    (v : Variant) (env : Env) (fuel : nat) (s : State) :
  (isTokenExpired v s = false <->
   exists token expiry,
     currentAuthToken s = Some token
     /\ String.eqb token "" = false
     /\ tokenExpiryTime s = Some expiry
     /\ clock s <= expiry - refresh_margin v)
  /\ ((currentAuthToken s = None
       \/ tokenExpiryTime s = None
       \/ exists expiry, tokenExpiryTime s = Some expiry
                         /\ expiry - clock s < refresh_margin v) ->
      isTokenExpired v s = true
      /\ match refreshAuthToken base64_utf8 JSON_parse v env s with
         | Ret token s1 =>
             currentAuthToken s1 = Some token
             /\ (visits s < visits s1)%nat
             /\ fetches s1 = fetches s
             /\ (forall jobs s',
                  fetchAmazonJobs base64_utf8 JSON_parse v env (S fuel) s
                    = Ret jobs s' ->
                  exists new,
                    trace s' =
                      (new ++ Fetched token (clock s1) (tokenExpiryTime s1)
                                (listings env (fetches s1)) :: trace s1)%list)
             /\ (isTokenExpired v s1 = false ->
                 fetchAmazonJobs base64_utf8 JSON_parse v env (S fuel) s
                 = fetchAmazonJobs base64_utf8 JSON_parse v env (S fuel) s1)
         | Throw _ s1 =>
             fetches s1 = fetches s
             /\ fetchAmazonJobs base64_utf8 JSON_parse v env (S fuel) s
                = Ret [] s1
         | OutOfFuel => False
         end).
Proof.
  split; [apply isTokenExpired_false_iff|].
  intros H. apply isTokenExpired_true in H. split; [assumption|].
  apply expired_cycle_renews_first. assumption.
Qed.

(** Expiry in three minutes, a margin of five: the token is renewed. *)
Lemma expired_token_is_renewed_witness :
  isTokenExpired us_monitor near_expiry = true
  /\ exists s1,
       refreshAuthToken as_is exp_only us_monitor (calm [J1]) near_expiry
       = Ret "eyJ" s1
       /\ currentAuthToken s1 = Some "eyJ"
       /\ (visits near_expiry < visits s1)%nat.
Proof.
  destruct (expired_token_is_renewed as_is exp_only us_monitor (calm [J1]) 0
              near_expiry) as (_ & H).
  destruct H as (Hexpired & Hrenew).
  - right. right. exists (3 * 60 * 1000). split; [reflexivity|].
    vm_compute. reflexivity.
  - split; [exact Hexpired|].
    assert (E : exists s1,
      refreshAuthToken as_is exp_only us_monitor (calm [J1]) near_expiry
      = Ret "eyJ" s1) by (vm_compute; eexists; reflexivity).
    destruct E as (s1 & E). rewrite E in Hrenew.
    destruct Hrenew as (Ht & Hv & _).
    exists s1. repeat split; assumption.
Defined.

(** C4 as stated fails: the monitor, started with a page whose token
    expires at minute 4, accepts it on the fourth attempt as a last resort
    and sends its request at 2 min 30 s, seven and a half minutes past the
    expiry minus the ten-minute margin. *)
Lemma short_lived_token_is_used :
  ~ (forall env fuel s jobs s',
       fetchAmazonJobs as_is exp_only auto_token_monitor env fuel s
         = Ret jobs s' ->
       forall token at_ms expiry reply,
         In (Fetched token at_ms (Some expiry) reply) (trace s') ->
         ~ In (Fetched token at_ms (Some expiry) reply) (trace s) ->
         at_ms <= expiry - refresh_margin auto_token_monitor).
Proof.
  intros H.
  assert (E : exists s',
    fetchAmazonJobs as_is exp_only auto_token_monitor short_lived 1 fresh
      = Ret [J1] s'
    /\ In (Fetched "eyJ.240.sig" 150000 (Some 240000)
             (Reply 200 (WithJobCards (Some [J1])))) (trace s')).
  { vm_compute. eexists. split; [reflexivity|]. left. reflexivity. }
  destruct E as (s' & E & Hin).
  specialize (H _ _ _ _ _ E _ _ _ _ Hin).
  cbn in H. assert (Habsurd : 150000 <= 240000 - 600000) by (apply H; tauto).
  lia.
Qed.

(** ** The seen set stays bounded *)

Lemma add_NoDup (seen : list string) (id : string) :
  NoDup seen -> NoDup (add seen id).
Proof.
  intros H. unfold add. destruct (has seen id) eqn:E; [assumption|].
  apply NoDup_app; [assumption|repeat constructor; intros []|].
  intros x Hx [<-|[]].
  apply has_In in Hx. congruence.
Qed.

Lemma add_all_NoDup (jobs : list Job) : forall seen,
  NoDup seen -> NoDup (add_all seen jobs).
Proof.
  induction jobs as [|job jobs IH]; intros seen H; simpl; [assumption|].
  apply IH, add_NoDup, H.
Qed.

Lemma skipn_NoDup {A} (n : nat) (l : list A) : NoDup l -> NoDup (skipn n l).
Proof.
  revert l. induction n as [|n IH]; intros l H; [assumption|].
  destruct l as [|x l]; [constructor|]. simpl. apply IH.
  inversion H; assumption.
Qed.

Lemma slice_last_length (n : nat) (seen : list string) :
  (n <= List.length seen)%nat -> List.length (slice_last n seen) = n.
Proof. intros H. unfold slice_last. rewrite length_skipn. lia. Qed.

Lemma trim_length (seen : list string) :
  (List.length (trim seen) <= 1000)%nat.
Proof.
  unfold trim. destruct (1000 <? List.length seen)%nat eqn:E.
  - apply Nat.ltb_lt in E. rewrite slice_last_length; lia.
  - apply Nat.ltb_ge in E. assumption.
Qed.

Lemma trim_NoDup (seen : list string) : NoDup seen -> NoDup (trim seen).
Proof.
  intros H. unfold trim. destruct (1000 <? List.length seen)%nat;
    [apply skipn_NoDup|]; assumption.
Qed.

Section Bounded.
Variable base64_utf8 : string -> string.
Variable JSON_parse : string -> option json.
Variable v : Variant.
Variable env : Env.

(** The seen set at the end of a cycle, from the one at its start and the
    batch the cycle emitted. *)
Lemma pollForJobs_seen fuel s emitted s' :
  pollForJobs base64_utf8 JSON_parse v env fuel s = Ret emitted s' ->
  seenJobIds s' =
    match emitted with
    | [] => seenJobIds s
    | _ :: _ =>
        let added := add_all (seenJobIds s) emitted in
        if trims_seen v then trim added else added
    end.
Proof.
  unfold pollForJobs, try_catch. unfold bind at 1.
  pose proof (fetchAmazonJobs_keeps_seen base64_utf8 JSON_parse v env fuel s)
    as Hfetch.
  destruct (fetchAmazonJobs base64_utf8 JSON_parse v env fuel s)
    as [jobs s1|e s1|]; [| |discriminate].
  2:{ intros E. inversion E; subst. assumption. }
  destruct (List.length jobs =? 0)%nat.
  { intros E. inversion E; subst. assumption. }
  unfold bind at 1, gets. rewrite Hfetch.
  destruct (unseen (seenJobIds s) jobs) as [|job new] eqn:Hnew.
  { intros E. inversion E; subst. assumption. }
  cbn [List.length Nat.ltb Nat.leb]. unfold bind at 1, modify.
  rewrite Hfetch. unfold bind at 1.
  set (s2 := set_seen _ s1).
  pose proof (sendTelegramAlert_keeps_seen v env fuel (job :: new) s2) as Hsend.
  pose proof (sendTelegramAlert_no_throw v env fuel (job :: new) s2) as Hcaught.
  destruct (sendTelegramAlert v env fuel (job :: new) s2) as [[] s3|e s3|];
    [| |discriminate].
  2:{ exfalso. eapply Hcaught. reflexivity. }
  change (seenJobIds s2) with (add_all (seenJobIds s) (job :: new)) in Hsend.
  destruct (trims_seen v); unfold bind, modify; mred;
    intros E; inversion E; subst; cbn [seenJobIds set_seen];
    rewrite ?Hsend; reflexivity.
Qed.

Lemma pollForJobs_bounded fuel s emitted s' :
  trims_seen v = true ->
  pollForJobs base64_utf8 JSON_parse v env fuel s = Ret emitted s' ->
  NoDup (seenJobIds s) /\ (List.length (seenJobIds s) <= 1000)%nat ->
  NoDup (seenJobIds s') /\ (List.length (seenJobIds s') <= 1000)%nat.
Proof.
  intros Htrims Hpoll (Hnodup & Hlen).
  rewrite (pollForJobs_seen _ _ _ _ Hpoll), Htrims.
  destruct emitted as [|job new]; [split; assumption|]. cbv zeta.
  split; [apply trim_NoDup, add_all_NoDup, Hnodup|apply trim_length].
Qed.

Lemma refreshTick_keeps_seen :
  keeps seenJobIds (refreshTick base64_utf8 JSON_parse v env).
Proof.
  unfold refreshTick.
  apply keeps_try; [|intros; apply keeps_ret].
  apply keeps_bind; [apply refreshAuthToken_keeps_seen|intros; apply keeps_ret].
Qed.

Lemma fire_bounded fuel t s s' :
  trims_seen v = true ->
  fire base64_utf8 JSON_parse v env fuel t s = Ret tt s' ->
  NoDup (seenJobIds s) /\ (List.length (seenJobIds s) <= 1000)%nat ->
  NoDup (seenJobIds s') /\ (List.length (seenJobIds s') <= 1000)%nat.
Proof.
  intros Htrims Hfire Hinv. destruct t; simpl in Hfire.
  - unfold bind in Hfire.
    destruct (pollForJobs base64_utf8 JSON_parse v env fuel s)
      as [emitted s1|e s1|] eqn:E; try discriminate.
    inversion Hfire; subst. eapply pollForJobs_bounded; eauto.
  - pose proof (refreshTick_keeps_seen s) as K. rewrite Hfire in K.
    rewrite K. assumption.
  - inversion Hfire; subst. assumption.
  - destruct (clear_timer v); inversion Hfire; subst; [|assumption].
    split; [constructor|simpl; lia].
Qed.

Lemma run_bounded fuel timers : forall s s',
  trims_seen v = true ->
  run base64_utf8 JSON_parse v env fuel timers s = Ret tt s' ->
  NoDup (seenJobIds s) /\ (List.length (seenJobIds s) <= 1000)%nat ->
  NoDup (seenJobIds s') /\ (List.length (seenJobIds s') <= 1000)%nat.
Proof.
  induction timers as [|t rest IH]; intros s s' Htrims Hrun Hinv; simpl in Hrun.
  - inversion Hrun; subst. assumption.
  - unfold bind in Hrun.
    destruct (fire base64_utf8 JSON_parse v env fuel t s) as [[] s1|e s1|] eqn:E;
      try discriminate.
    eapply IH; eauto. eapply fire_bounded; eauto.
Qed.

(** The cycle is its part up to the call of the dispatcher followed by
    the rest. *)
Lemma pollForJobs_cut fuel s :
  pollForJobs base64_utf8 JSON_parse v env fuel s
  = (newJobs <- pollForJobs_begin base64_utf8 JSON_parse v env fuel ;;
     pollForJobs_end v env fuel newJobs) s.
Proof.
  unfold pollForJobs, pollForJobs_begin, pollForJobs_end, try_catch, bind,
    gets, modify.
  destruct (fetchAmazonJobs base64_utf8 JSON_parse v env fuel s)
    as [jobs s1|e s1|]; [|reflexivity|reflexivity].
  destruct (List.length jobs =? 0)%nat; [reflexivity|].
  destruct (unseen (seenJobIds s1) jobs) as [|job new]; [reflexivity|].
  mred. cbn [List.length Nat.ltb Nat.leb]. cbv beta iota.
  destruct (sendTelegramAlert v env fuel (job :: new) _) as [[] s3|e s3|];
    try reflexivity.
Qed.

(** The first part records the ids of the batch it returns. *)
Lemma pollForJobs_begin_seen fuel s newJobs s1 :
  pollForJobs_begin base64_utf8 JSON_parse v env fuel s = Ret newJobs s1 ->
  seenJobIds s1 = add_all (seenJobIds s) newJobs.
Proof.
  unfold pollForJobs_begin, try_catch. unfold bind at 1.
  pose proof (fetchAmazonJobs_keeps_seen base64_utf8 JSON_parse v env fuel s)
    as Hfetch.
  destruct (fetchAmazonJobs base64_utf8 JSON_parse v env fuel s)
    as [jobs s0|e s0|]; [| |discriminate].
  2:{ intros E. inversion E; subst. assumption. }
  destruct (List.length jobs =? 0)%nat.
  { intros E. inversion E; subst. assumption. }
  unfold bind at 1, gets. rewrite Hfetch.
  destruct (unseen (seenJobIds s) jobs) as [|job new] eqn:Hnew.
  { intros E. inversion E; subst. assumption. }
  cbn [List.length Nat.ltb Nat.leb]. unfold bind, modify. mred.
  intros E. inversion E; subst. cbn [seenJobIds set_seen].
  rewrite Hfetch. reflexivity.
Qed.

(** The rest of a cycle that has something to send ends with the trim,
    whatever the seen set holds by then. *)
Lemma pollForJobs_end_seen fuel newJobs s emitted s' :
  pollForJobs_end v env fuel newJobs s = Ret emitted s' ->
  emitted <> [] ->
  seenJobIds s'
  = if trims_seen v then trim (seenJobIds s) else seenJobIds s.
Proof.
  unfold pollForJobs_end.
  destruct newJobs as [|job new]; cbn [List.length Nat.ltb Nat.leb].
  { intros E. inversion E; subst. intros H. elim H. reflexivity. }
  unfold try_catch. unfold bind at 1.
  pose proof (sendTelegramAlert_keeps_seen v env fuel (job :: new) s) as Hsend.
  pose proof (sendTelegramAlert_no_throw v env fuel (job :: new) s) as Hcaught.
  destruct (sendTelegramAlert v env fuel (job :: new) s) as [[] s3|e s3|];
    [| |discriminate].
  2:{ exfalso. eapply Hcaught. reflexivity. }
  destruct (trims_seen v); unfold bind, modify; mred;
    intros E _; inversion E; subst; cbn [seenJobIds set_seen];
    rewrite ?Hsend; reflexivity.
Qed.

End Bounded.




(** ** The dispatcher *)

Lemma skipn_firstn_cons {A} (l : list A) : forall i m x,
  nth_error l i = Some x -> (i < m)%nat ->
  skipn i (firstn m l) = x :: skipn (S i) (firstn m l).
Proof.
  induction l as [|y l IH]; intros i m x Hnth Hlt.
  - destruct i; discriminate.
  - destruct m as [|m]; [lia|]. destruct i as [|i].
    + inversion Hnth; subst. reflexivity.
    + cbn [firstn skipn]. apply IH; [exact Hnth|lia].
Qed.

Lemma skipn_firstn_nil {A} (l : list A) (i m : nat) :
  nth_error l i = None \/ (m <= i)%nat -> skipn i (firstn m l) = [].
Proof.
  intros H. apply skipn_all2. rewrite length_firstn.
  destruct H as [H|H]; [apply nth_error_None in H|]; lia.
Qed.

Lemma pause_condition {A} (l : list A) (i m : nat) (x : A) :
  nth_error l i = Some x -> (i < m)%nat ->
  ((i <? List.length l - 1)%nat && (i <? m - 1)%nat)
  = match skipn (S i) (firstn m l) with [] => false | _ :: _ => true end.
Proof.
  intros Hnth Hlt.
  assert (Hi : (i < List.length l)%nat)
    by (apply nth_error_Some; congruence).
  assert (Hlen : List.length (skipn (S i) (firstn m l))
                 = (Nat.min m (List.length l) - S i)%nat)
    by (rewrite length_skipn, length_firstn; reflexivity).
  destruct (skipn (S i) (firstn m l)) as [|y rest]; simpl in Hlen.
  - apply andb_false_iff.
    destruct (Nat.le_gt_cases (List.length l) (S i)) as [H|H].
    + left. apply Nat.ltb_ge. lia.
    + right. apply Nat.ltb_ge. lia.
  - apply andb_true_iff. split; apply Nat.ltb_lt; lia.
Qed.

Section Dispatcher.
Variable v : Variant.
Variable env : Env.

Lemma answers_next s e :
  is_Sent e = true -> answers env (sends s) -> answers env (sends (emit e s)).
Proof.
  intros He H n Hn. apply H. unfold sends in *. rewrite count_emit, He in Hn.
  lia.
Qed.

Lemma answers_wait s ms :
  answers env (sends s) -> answers env (sends (emit (Waited ms) (advance ms s))).
Proof. intros H. exact H. Qed.

(** Against a Telegram that answers, the loop never throws, and a finished
    loop has dispatched the jobs from index [i] up to the cap. *)
Lemma sendLoop_dispatch fuel jobs : forall i s,
  answers env (sends s) ->
  match sendLoop v env fuel jobs i s with
  | Ret _ s' =>
      exists log,
        trace s' = (rev log ++ trace s)%list
        /\ Dispatch (cooldown_ms v)
             (skipn i (firstn (MAX_JOBS_PER_ALERT v) jobs)) log
  | Throw _ _ => False
  | OutOfFuel => True
  end.
Proof.
  induction fuel as [|fuel IH]; intros i s Hanswers; [exact I|].
  cbn [sendLoop].
  destruct (nth_error jobs i) as [job|] eqn:Hnth.
  2:{ exists []. split; [reflexivity|].
      rewrite skipn_firstn_nil by (left; assumption). constructor. }
  destruct (i <? MAX_JOBS_PER_ALERT v)%nat eqn:Hcap.
  2:{ exists []. split; [reflexivity|]. apply Nat.ltb_ge in Hcap.
      rewrite skipn_firstn_nil by (right; assumption). constructor. }
  apply Nat.ltb_lt in Hcap.
  rewrite (skipn_firstn_cons _ _ _ _ Hnth Hcap).
  unfold bind at 1, postMessage.
  destruct (Hanswers (sends s) (le_n _)) as (status & body & Hreply & Hbody).
  rewrite Hreply. cbv beta iota zeta.
  set (s1 := emit (Sent job (Reply status body)) s).
  assert (H1 : answers env (sends s1)) by (apply answers_next; trivial).
  destruct (status =? 429) eqn:H429.
  - apply Z.eqb_eq in H429. subst status.
    unfold bind, wait, modify.
    specialize (IH i _ (answers_wait s1 (cooldown_ms v) H1)).
    destruct (sendLoop v env fuel jobs i _) as [[] s'|e s'|]; trivial.
    destruct IH as (log & Htrace & Hlog).
    rewrite (skipn_firstn_cons _ _ _ _ Hnth Hcap) in Hlog.
    exists (Sent job (Reply 429 body) :: Waited (cooldown_ms v) :: log).
    split; [|constructor; assumption].
    rewrite Htrace. cbn [rev]. rewrite <- !app_assoc. reflexivity.
  - apply Z.eqb_neq in H429.
    destruct (ok status) eqn:Hok; cbn [negb].
    + destruct (Hbody eq_refl) as (result & ->).
      unfold bind at 1.
      rewrite (pause_condition _ _ _ _ Hnth Hcap).
      set (rest := skipn (S i) (firstn (MAX_JOBS_PER_ALERT v) jobs)).
      assert (Hpause : exists s2,
        (if match rest with [] => false | _ :: _ => true end
         then wait 2000 else ret tt) s1 = Ret tt s2
        /\ trace s2 = (match rest with [] => [] | _ :: _ => [Waited 2000] end
                       ++ trace s1)%list
        /\ sends s2 = sends s1).
      { destruct rest; eexists; repeat split. }
      destruct Hpause as (s2 & -> & Htrace2 & Hsends2).
      assert (H2 : answers env (sends s2)) by (rewrite Hsends2; exact H1).
      specialize (IH (S i) s2 H2). fold rest in IH.
      destruct (sendLoop v env fuel jobs (S i) s2) as [[] s'|e s'|]; trivial.
      destruct IH as (log & Htrace & Hlog).
      eexists. split; [|apply Dispatch_accepted; eassumption].
      rewrite Htrace, Htrace2. cbn [rev]. rewrite rev_app_distr.
      rewrite <- !app_assoc.
      destruct rest; reflexivity.
    + specialize (IH (S i) s1 H1).
      destruct (sendLoop v env fuel jobs (S i) s1) as [[] s'|e s'|]; trivial.
      destruct IH as (log & Htrace & Hlog).
      exists (Sent job (Reply status body) :: log).
      split; [|apply Dispatch_refused; assumption].
      rewrite Htrace. cbn [rev]. rewrite <- app_assoc. reflexivity.
Qed.

(** Once Telegram stops answering 429 the loop comes to an end. *)
Lemma sendLoop_returns fuel jobs bound : forall i s,
  answers env (sends s) ->
  relents env bound ->
  (List.length jobs - i + (bound - sends s) < fuel)%nat ->
  exists s', sendLoop v env fuel jobs i s = Ret tt s'.
Proof.
  induction fuel as [|fuel IH]; intros i s Hanswers Hrelents Hfuel; [lia|].
  cbn [sendLoop].
  destruct (nth_error jobs i) as [job|] eqn:Hnth; [|eexists; reflexivity].
  destruct (i <? MAX_JOBS_PER_ALERT v)%nat eqn:Hcap; [|eexists; reflexivity].
  assert (Hi : (i < List.length jobs)%nat)
    by (apply nth_error_Some; congruence).
  unfold bind at 1, postMessage.
  destruct (Hanswers (sends s) (le_n _)) as (status & body & Hreply & Hbody).
  rewrite Hreply. cbv beta iota zeta.
  set (s1 := emit (Sent job (Reply status body)) s).
  assert (Hs1 : sends s1 = S (sends s)) by reflexivity.
  assert (H1 : answers env (sends s1)) by (apply answers_next; trivial).
  destruct (status =? 429) eqn:H429.
  - apply Z.eqb_eq in H429. subst status.
    assert (Hlt : (sends s < bound)%nat).
    { destruct (Nat.lt_ge_cases (sends s) bound) as [H|H]; [assumption|].
      elim (Hrelents _ body H Hreply). }
    unfold bind, wait, modify.
    apply IH; [exact H1|assumption|].
    change (sends (emit (Waited (cooldown_ms v)) (advance (cooldown_ms v) s1)))
      with (sends s1). lia.
  - destruct (ok status) eqn:Hok; cbn [negb].
    + destruct (Hbody eq_refl) as (result & ->).
      unfold bind at 1.
      assert (Hpause : forall b : bool, exists s2,
        (if b then wait 2000 else ret tt) s1 = Ret tt s2
        /\ sends s2 = sends s1).
      { intros []; eexists; split; reflexivity. }
      destruct (Hpause ((i <? List.length jobs - 1)%nat
                        && (i <? MAX_JOBS_PER_ALERT v - 1)%nat))
        as (s2 & -> & Hs2).
      apply IH; [rewrite Hs2; exact H1|assumption|lia].
    + apply IH; [exact H1|assumption|lia].
Qed.

End Dispatcher.




(** ** Renewals requested while one is under way *)

Section SingleFlight.
Variable base64_utf8 : string -> string.
Variable JSON_parse : string -> option json.
Variable v : Variant.
Variable env : Env.

(** The first effect of [refreshAuthToken] is the one it reaches before its
    first [await]: a launch when no browser is open, a visit otherwise. *)
Lemma refreshAuthToken_starts_with_begin s :
  match refreshAuthToken base64_utf8 JSON_parse v env s with
  | Ret _ s' | Throw _ s' =>
      exists new,
        trace s' = (new ++ trace (refreshAuthToken_begin env s))%list
  | OutOfFuel => True
  end.
Proof.
  unfold refreshAuthToken, refreshAuthToken_begin. rewrite try_rethrow.
  unfold bind at 1, gets.
  destruct (browser s) eqn:Hb; cbn [negb].
  - unfold bind at 1. cbv beta iota delta [ret]. unfold extractAuthToken.
    cbn [Nat.sub maxRetries extractAuthToken_from]. rewrite try_rethrow.
    unfold bind at 1, goto at 1. rewrite Hb. cbn [negb]. cbv beta iota zeta.
    destruct (visit env (visits s)) as [|ls ss]; [exists []; reflexivity|].
    match goal with |- match ?k ?s1 with _ => _ end =>
      assert (Hk : grows k)
        by (grow; auto using extractAuthToken_from_grows with trace);
      exact (Hk s1) end.
  - unfold bind at 1, initializeBrowser.
    destruct (launch_ok env (launches s)); [|exists []; reflexivity].
    exact (extractAuthToken_from_grows base64_utf8 JSON_parse v env
             (S maxRetries - 0) 0 (set_browser true (emit (Launched true) s))).
Qed.

Lemma begin_visits N : forall s,
  browser s = true ->
  browser (Nat.iter N (refreshAuthToken_begin env) s) = true
  /\ visits (Nat.iter N (refreshAuthToken_begin env) s) = (visits s + N)%nat
  /\ launches (Nat.iter N (refreshAuthToken_begin env) s) = launches s.
Proof.
  induction N as [|N IH]; intros s Hb; simpl.
  - repeat split; [assumption|lia].
  - destruct (IH s Hb) as (Hb' & Hv & Hl).
    unfold refreshAuthToken_begin at 1 3 5. rewrite Hb'. cbn [negb].
    repeat split; [assumption| |assumption].
    unfold visits in *. rewrite count_emit. cbn [is_Visited]. lia.
Qed.

Lemma begin_launches N : forall s,
  browser s = false ->
  browser (Nat.iter N (refreshAuthToken_begin env) s) = false
  /\ launches (Nat.iter N (refreshAuthToken_begin env) s) = (launches s + N)%nat.
Proof.
  induction N as [|N IH]; intros s Hb; simpl.
  - split; [assumption|lia].
  - destruct (IH s Hb) as (Hb' & Hl).
    unfold refreshAuthToken_begin at 1 3. rewrite Hb'. cbn [negb].
    split; [assumption|].
    unfold launches in *. rewrite count_emit. cbn [is_Launched]. lia.
Qed.

End SingleFlight.

(** C9, as the scripts behave. Renewals are not coalesced: every call of
    [refreshAuthToken] reaches its own launch or navigation before its
    first [await], so [N] calls made while an extraction is under way start
    [N] more navigations of the one page (and [N] launches when no browser
    is open yet). *)
Theorem renewals_are_not_coalesced
    (base64_utf8 : string -> string) (JSON_parse : string -> option json)
    (v : Variant) (env : Env) (N : nat) (s : State) :
  let after := Nat.iter N (refreshAuthToken_begin env) s in
  (browser s = true ->
   visits after = (visits s + N)%nat /\ launches after = launches s)
  /\ (browser s = false -> launches after = (launches s + N)%nat)
  /\ match refreshAuthToken base64_utf8 JSON_parse v env s with
     | Ret _ s' | Throw _ s' =>
         exists new,
           trace s' = (new ++ trace (refreshAuthToken_begin env s))%list
     | OutOfFuel => True
     end.
Proof.
  intros after. split; [|split].
  - intros Hb. destruct (begin_visits env N s Hb) as (_ & Hv & Hl).
    split; assumption.
  - intros Hb. destruct (begin_launches env N s Hb) as (_ & Hl). assumption.
  - apply refreshAuthToken_starts_with_begin.
Qed.

(** Two renewals requested while a first navigation is under way. *)
Lemma renewals_are_not_coalesced_witness :
  visits (Nat.iter 2 (refreshAuthToken_begin (calm []))
            (refreshAuthToken_begin (calm []) (steady [])))
  = 3%nat.
Proof.
  destruct (renewals_are_not_coalesced as_is exp_only auto_token_monitor
              (calm []) 2 (refreshAuthToken_begin (calm []) (steady [])))
    as (H & _).
  destruct (H eq_refl) as (Hv & _). exact Hv.
Defined.

(** C9 as stated fails: with one extraction under way, two more calls start
    two more navigations instead of none. *)
Lemma concurrent_renewals_race :
  ~ (forall env N s0,
       browser s0 = true ->
       let s := refreshAuthToken_begin env s0 in
       visits (Nat.iter N (refreshAuthToken_begin env) s) = visits s).
Proof.
  intros H. specialize (H (calm []) 2%nat (steady []) eq_refl).
  vm_compute in H. discriminate.
Qed.

(** ** The scan of the page's storage *)

Lemma prefix_nonempty (p s : string) :
  p <> "" -> String.prefix p s = true -> String.eqb s "" = false.
Proof.
  intros Hp H. destruct s as [|c s]; [|reflexivity].
  destruct p; [elim Hp; reflexivity|discriminate].
Qed.

Lemma first_jwt_Some (storage : list (string * string)) (token : string) :
  first_jwt storage = Some token ->
  jwt_like token = true /\ In token (map snd storage).
Proof.
  unfold first_jwt. destruct (find _ storage) as [[k value]|] eqn:Hf;
    [|discriminate].
  intros E. inversion E; subst. apply find_some in Hf as [Hin Hj].
  split; [exact Hj|]. apply in_map_iff. exists (k, token). split; trivial.
Qed.

Lemma first_jwt_None (storage : list (string * string)) :
  first_jwt storage = None <->
  forall value, In value (map snd storage) -> jwt_like value = false.
Proof.
  unfold first_jwt. split.
  - destruct (find _ storage) as [kv|] eqn:Hf; [discriminate|]. intros _.
    intros value Hin. apply in_map_iff in Hin as ([k v'] & E & Hin).
    simpl in E. subst v'. exact (find_none _ _ Hf _ Hin).
  - intros H. destruct (find _ storage) as [[k value]|] eqn:Hf; [|reflexivity].
    apply find_some in Hf as [Hin Hj]. simpl in Hj.
    rewrite (H value) in Hj; [discriminate|].
    apply in_map_iff. exists (k, value). split; trivial.
Qed.

Lemma getItem_In (key : string) (storage : list (string * string))
    (value : string) :
  getItem key storage = Some value -> In value (map snd storage).
Proof.
  unfold getItem. destruct (find _ storage) as [[k v']|] eqn:Hf; [|discriminate].
  intros E. inversion E; subst. apply find_some in Hf as [Hin _].
  apply in_map_iff. exists (k, value). split; trivial.
Qed.

(** X1. A token found by the scan of the page's storage starts with [eyJ],
    is therefore not empty, and is a value held by the local or the session
    storage of the page. *)
Theorem scanStorage_finds_stored_jwt
    (localStorage sessionStorage : list (string * string)) (token : string) :
  scanStorage localStorage sessionStorage = Some token ->
  String.prefix "eyJ" token = true
  /\ String.eqb token "" = false
  /\ (In token (map snd localStorage) \/ In token (map snd sessionStorage)).
Proof.
  intros H.
  assert (Hgoal : String.prefix "eyJ" token = true
    /\ (In token (map snd localStorage) \/ In token (map snd sessionStorage))).
  { unfold scanStorage in H.
    destruct (getItem "sessionToken" localStorage) as [sessionToken|] eqn:Hget.
    - destruct (String.prefix "eyJ" sessionToken) eqn:Hp.
      + inversion H; subst. split; [exact Hp|]. left.
        eapply getItem_In; eassumption.
      + destruct (first_jwt localStorage) as [t|] eqn:Hl.
        * inversion H; subst. apply first_jwt_Some in Hl as [Hj Hin].
          apply andb_true_iff in Hj as [Hj _]. split; [exact Hj|left; exact Hin].
        * apply first_jwt_Some in H as [Hj Hin].
          apply andb_true_iff in Hj as [Hj _]. split; [exact Hj|right; exact Hin].
    - destruct (first_jwt localStorage) as [t|] eqn:Hl.
      + inversion H; subst. apply first_jwt_Some in Hl as [Hj Hin].
        apply andb_true_iff in Hj as [Hj _]. split; [exact Hj|left; exact Hin].
      + apply first_jwt_Some in H as [Hj Hin].
        apply andb_true_iff in Hj as [Hj _]. split; [exact Hj|right; exact Hin]. }
  destruct Hgoal as [Hp Hin]. repeat split; trivial.
  eapply prefix_nonempty; [|exact Hp]. discriminate.
Qed.

(** A short sessionToken is found although it is not 100 characters long. *)
Lemma scanStorage_finds_stored_jwt_witness :
  String.prefix "eyJ" "eyJ.3600.sig" = true
  /\ String.eqb "eyJ.3600.sig" "" = false
  /\ (In "eyJ.3600.sig" (map snd [("sessionToken", "eyJ.3600.sig")])
      \/ In "eyJ.3600.sig" (map snd (@nil (string * string)))).
Proof.
  apply (scanStorage_finds_stored_jwt [("sessionToken", "eyJ.3600.sig")] []).
  reflexivity.
Defined.

(** X2. The scan prefers the sessionToken of the local storage: when that
    entry starts with [eyJ] it is the result whatever its length and
    whatever else is stored. The scan finds nothing exactly when that entry
    is absent or does not start with [eyJ] and no value of either storage
    starts with [eyJ] and is longer than 100 characters. *)
Theorem scanStorage_prefers_sessionToken
    (localStorage sessionStorage : list (string * string)) :
  (forall sessionToken,
      getItem "sessionToken" localStorage = Some sessionToken ->
      String.prefix "eyJ" sessionToken = true ->
      scanStorage localStorage sessionStorage = Some sessionToken)
  /\ (scanStorage localStorage sessionStorage = None <->
      (forall sessionToken,
          getItem "sessionToken" localStorage = Some sessionToken ->
          String.prefix "eyJ" sessionToken = false)
      /\ (forall value,
            In value (map snd localStorage)
            \/ In value (map snd sessionStorage) ->
            jwt_like value = false)).
Proof.
  unfold scanStorage. split.
  - intros sessionToken -> ->. reflexivity.
  - destruct (getItem "sessionToken" localStorage) as [sessionToken|] eqn:Hget.
    + destruct (String.prefix "eyJ" sessionToken) eqn:Hp.
      * split; [discriminate|]. intros [H _].
        specialize (H sessionToken eq_refl). congruence.
      * destruct (first_jwt localStorage) as [t|] eqn:Hl.
        { split; [discriminate|]. intros [_ H].
          apply first_jwt_Some in Hl as [Hj Hin].
          rewrite (H t (or_introl Hin)) in Hj. discriminate. }
        split.
        { intros Hs. split; [intros t E; inversion E; subst; exact Hp|].
          intros value [Hin|Hin];
            [exact (proj1 (first_jwt_None _) Hl value Hin)
            |exact (proj1 (first_jwt_None _) Hs value Hin)]. }
        intros [_ H]. apply first_jwt_None. intros value Hin.
        apply H. right. exact Hin.
    + destruct (first_jwt localStorage) as [t|] eqn:Hl.
      { split; [discriminate|]. intros [_ H].
        apply first_jwt_Some in Hl as [Hj Hin].
        rewrite (H t (or_introl Hin)) in Hj. discriminate. }
      split.
      { intros Hs. split; [intros t E; discriminate|].
        intros value [Hin|Hin];
          [exact (proj1 (first_jwt_None _) Hl value Hin)
          |exact (proj1 (first_jwt_None _) Hs value Hin)]. }
      intros [_ H]. apply first_jwt_None. intros value Hin.
      apply H. right. exact Hin.
Qed.

(** The short sessionToken wins over a long JWT stored before it. *)
Lemma scanStorage_prefers_sessionToken_witness :
  scanStorage [("idToken", long_jwt "sig"); ("sessionToken", "eyJ.3600.sig")]
              [("accessToken", long_jwt "other")]
  = Some "eyJ.3600.sig".
Proof.
  apply (scanStorage_prefers_sessionToken
           [("idToken", long_jwt "sig"); ("sessionToken", "eyJ.3600.sig")]
           [("accessToken", long_jwt "other")]); reflexivity.
Defined.

(** ** A renewal that fails *)

Section FailedRenewal.
Variable base64_utf8 : string -> string.
Variable JSON_parse : string -> option json.
Variable v : Variant.
Variable env : Env.

(** The token and its expiry are assigned right before the extraction
    returns, so that an extraction that throws has assigned neither. *)
Lemma extractAuthToken_from_throws budget : forall retryCount s,
  match extractAuthToken_from base64_utf8 JSON_parse v env budget retryCount s
  with
  | Throw _ s' =>
      currentAuthToken s' = currentAuthToken s
      /\ tokenExpiryTime s' = tokenExpiryTime s
  | _ => True
  end.
Proof.
  induction budget as [|budget IH]; intros retryCount s; [exact I|].
  cbn [extractAuthToken_from]. rewrite try_rethrow.
  unfold bind at 1, goto.
  destruct (browser s); mred; [|split; reflexivity].
  destruct (visit env (visits s)) as [|ls ss]; [split; reflexivity|].
  unfold bind at 1, wait, modify.
  fold (settled v (Loaded ls ss) s).
  assert (Ht : currentAuthToken (settled v (Loaded ls ss) s)
               = currentAuthToken s) by reflexivity.
  assert (He : tokenExpiryTime (settled v (Loaded ls ss) s)
               = tokenExpiryTime s) by reflexivity.
  set (s1 := settled v (Loaded ls ss) s) in *. clearbody s1.
  destruct (evaluate (Loaded ls ss)) as [token|]; [|split; assumption].
  destruct (String.eqb token ""); [split; assumption|].
  unfold bind at 1.
  destruct (decodeJWT base64_utf8 JSON_parse token) as [decoded|e]; mred;
    [|split; assumption].
  destruct (truthy (Some decoded) && truthy (field "exp" decoded)).
  - unfold bind at 1, gets. cbv zeta.
    assert (Haccept :
      match
        (match date_claim "iat" decoded, date_claim "exp" decoded with
         | Some _, Some expiry =>
             install token expiry ;; testToken env token ;; ret token
         | _, _ => throw RangeError
         end s1)
      with
      | Throw _ s' =>
          currentAuthToken s' = currentAuthToken s
          /\ tokenExpiryTime s' = tokenExpiryTime s
      | _ => True
      end).
    { destruct (date_claim "iat" decoded) as [issued|]; [|split; assumption].
      destruct (date_claim "exp" decoded) as [expiry|]; [|split; assumption].
      unfold bind, install, modify. rewrite testToken_returns. exact I. }
    assert (Hrevisit :
      match
        (wait 30000 ;;
         extractAuthToken_from base64_utf8 JSON_parse v env budget
           (S retryCount)) s1
      with
      | Throw _ s' =>
          currentAuthToken s' = currentAuthToken s
          /\ tokenExpiryTime s' = tokenExpiryTime s
      | _ => True
      end).
    { unfold bind, wait, modify. fold (rested s1).
      specialize (IH (S retryCount) (rested s1)).
      destruct (extractAuthToken_from base64_utf8 JSON_parse v env budget
                  (S retryCount) (rested s1)) as [t s'|e s'|]; trivial.
      change (currentAuthToken (rested s1)) with (currentAuthToken s1) in IH.
      change (tokenExpiryTime (rested s1)) with (tokenExpiryTime s1) in IH.
      destruct IH as [IHt IHe]. split; congruence. }
    destruct (guards_expiry v); [|exact Haccept].
    destruct (nan_leb _ 0).
    + destruct (retryCount <? maxRetries)%nat;
        [exact Hrevisit|split; assumption].
    + destruct (nan_ltb _ (5 * 60 * 1000)); [|exact Haccept].
      destruct (retryCount <? maxRetries)%nat; [exact Hrevisit|exact Haccept].
  - unfold bind, gets, install, modify. mred. exact I.
Qed.

Lemma refreshAuthToken_throws s :
  match refreshAuthToken base64_utf8 JSON_parse v env s with
  | Throw _ s' =>
      currentAuthToken s' = currentAuthToken s
      /\ tokenExpiryTime s' = tokenExpiryTime s
  | _ => True
  end.
Proof.
  unfold refreshAuthToken. rewrite try_rethrow.
  unfold bind at 1, gets.
  destruct (browser s); cbn [negb].
  - unfold bind. mred.
    exact (extractAuthToken_from_throws (S maxRetries - 0) 0 s).
  - unfold bind at 1, initializeBrowser.
    destruct (launch_ok env (launches s)); [|split; reflexivity].
    exact (extractAuthToken_from_throws (S maxRetries - 0) 0
             (set_browser true (emit (Launched true) s))).
Qed.

End FailedRenewal.

(** X3. A renewal that fails leaves the stored token and its expiry as
    they were, and so does a firing of the refresh timer whose renewal
    fails: the timer callback returns normally with the old credential
    still in place. *)
Theorem failed_renewal_keeps_credential
    (base64_utf8 : string -> string) (JSON_parse : string -> option json)
    (v : Variant) (env : Env) (s : State) (e : error) (s' : State) :
  refreshAuthToken base64_utf8 JSON_parse v env s = Throw e s' ->
  currentAuthToken s' = currentAuthToken s
  /\ tokenExpiryTime s' = tokenExpiryTime s
  /\ refreshTick base64_utf8 JSON_parse v env s = Ret tt s'.
Proof.
  intros H.
  pose proof (refreshAuthToken_throws base64_utf8 JSON_parse v env s) as K.
  rewrite H in K. destruct K as [Kt Ke]. repeat split; trivial.
  unfold refreshTick, try_catch, bind. rewrite H. reflexivity.
Qed.

(** The page cannot be reached: the renewal fails with the navigation
    error and the token good for an hour stays. *)
Lemma failed_renewal_keeps_credential_witness :
  exists s',
    refreshTick as_is exp_only auto_token_monitor page_down (steady [])
    = Ret tt s'
    /\ currentAuthToken s' = Some "eyJ.3600.sig"
    /\ tokenExpiryTime s' = Some 3600000.
Proof.
  exists (emit (Visited GotoFails) (steady [])).
  destruct (failed_renewal_keeps_credential as_is exp_only auto_token_monitor
              page_down (steady []) NavigationError
              (emit (Visited GotoFails) (steady [])) eq_refl)
    as (Ht & He & Htick).
  split; [exact Htick|]. split; [exact Ht|exact He].
Defined.

(** ** What a renewal costs *)

Section RenewalCost.
Variable base64_utf8 : string -> string.
Variable JSON_parse : string -> option json.
Variable v : Variant.
Variable env : Env.
Hypothesis settle_nonneg : 0 <= settle_ms v.

Lemma spent_more (attempts : nat) (s s1 s' : State) :
  clock s1 = clock s + settle_ms v + 30000 ->
  probes s1 = probes s ->
  visits s1 = S (visits s) ->
  guards_expiry v = true ->
  spent v attempts s1 s' ->
  (1 <= attempts)%nat ->
  spent v (S attempts) s s'.
Proof.
  intros Hc Hp Hv Hg (H1 & H2 & H3 & H4 & _) Hk. unfold spent.
  replace (Z.of_nat (S attempts - 1)) with (Z.of_nat (attempts - 1) + 1)
    by lia.
  rewrite Nat2Z.inj_succ.
  repeat split; try lia; congruence.
Qed.

Lemma extractAuthToken_from_spent budget : forall retryCount s,
  (retryCount <= maxRetries)%nat ->
  (maxRetries - retryCount < budget)%nat ->
  match extractAuthToken_from base64_utf8 JSON_parse v env budget retryCount s
  with
  | Ret _ s' => spent v (S maxRetries - retryCount) s s'
  | Throw _ s' => spent v (S maxRetries - retryCount) s s'
  | OutOfFuel => False
  end.
Proof.
  induction budget as [|budget IH]; intros retryCount s Hle Hbudget; [lia|].
  assert (Hk : exists k, (S maxRetries - retryCount = S k)%nat
                         /\ (k = maxRetries - retryCount)%nat)
    by (exists (maxRetries - retryCount)%nat; lia).
  destruct Hk as (k & Hk & Hk'). rewrite Hk.
  assert (Hidle : spent v (S k) s s).
  { unfold spent.
    assert (0 <= Z.of_nat (S k) * settle_ms v)
      by (apply Z.mul_nonneg_nonneg; lia).
    repeat split; lia. }
  cbn [extractAuthToken_from]. rewrite try_rethrow.
  unfold bind at 1, goto.
  destruct (browser s); mred; [|exact Hidle].
  assert (Hvisited : forall page, spent v (S k) s (emit (Visited page) s)).
  { intros page. unfold spent.
    change (clock (emit (Visited page) s)) with (clock s).
    change (probes (emit (Visited page) s)) with (probes s).
    change (visits (emit (Visited page) s)) with (S (visits s)).
    assert (0 <= Z.of_nat (S k) * settle_ms v)
      by (apply Z.mul_nonneg_nonneg; lia).
    repeat split; lia. }
  destruct (visit env (visits s)) as [|ls ss] eqn:Hv; [apply Hvisited|].
  unfold bind at 1, wait, modify.
  fold (settled v (Loaded ls ss) s).
  assert (Hclock : clock (settled v (Loaded ls ss) s) = clock s + settle_ms v)
    by reflexivity.
  assert (Hprobes : probes (settled v (Loaded ls ss) s) = probes s)
    by reflexivity.
  assert (Hvisits : visits (settled v (Loaded ls ss) s) = S (visits s))
    by reflexivity.
  set (s1 := settled v (Loaded ls ss) s) in *. clearbody s1.
  assert (Hsettled : spent v (S k) s s1).
  { unfold spent. rewrite Hclock, Hprobes, Hvisits, Nat2Z.inj_succ.
    replace (Z.succ (Z.of_nat k) * settle_ms v)
      with (Z.of_nat k * settle_ms v + settle_ms v) by ring.
    assert (0 <= Z.of_nat k * settle_ms v)
      by (apply Z.mul_nonneg_nonneg; lia).
    repeat split; lia. }
  destruct (evaluate (Loaded ls ss)) as [token|]; [|exact Hsettled].
  destruct (String.eqb token "") eqn:Hne; [exact Hsettled|].
  unfold bind at 1.
  destruct (decodeJWT base64_utf8 JSON_parse token) as [decoded|e]; mred;
    [|exact Hsettled].
  destruct (truthy (Some decoded) && truthy (field "exp" decoded)).
  - unfold bind at 1, gets. cbv zeta.
    assert (Haccept :
      match
        (match date_claim "iat" decoded, date_claim "exp" decoded with
         | Some _, Some expiry =>
             install token expiry ;; testToken env token ;; ret token
         | _, _ => throw RangeError
         end s1)
      with
      | Ret _ s' => spent v (S k) s s'
      | Throw _ s' => spent v (S k) s s'
      | OutOfFuel => False
      end).
    { destruct (date_claim "iat" decoded) as [issued|]; [|exact Hsettled].
      destruct (date_claim "exp" decoded) as [expiry|]; [|exact Hsettled].
      unfold bind, install, modify. rewrite testToken_returns. mred.
      destruct Hsettled as (H1 & H2 & H3 & H4 & H5). unfold spent.
      change (clock (emit _ (set_expiry _ (set_token _ s1)))) with (clock s1).
      change (visits (emit _ (set_expiry _ (set_token _ s1))))
        with (visits s1).
      change (probes (emit _ (set_expiry _ (set_token _ s1))))
        with (S (probes s1)).
      repeat split; try lia; apply H5; assumption. }
    assert (Hrevisit : (retryCount <? maxRetries)%nat = true ->
      guards_expiry v = true ->
      match
        (wait 30000 ;;
         extractAuthToken_from base64_utf8 JSON_parse v env budget
           (S retryCount)) s1
      with
      | Ret _ s' => spent v (S k) s s'
      | Throw _ s' => spent v (S k) s s'
      | OutOfFuel => False
      end).
    { intros Hlt Hg. apply Nat.ltb_lt in Hlt.
      unfold bind, wait, modify. fold (rested s1).
      assert (Hb : (maxRetries - S retryCount < budget)%nat) by lia.
      specialize (IH (S retryCount) (rested s1) Hlt Hb).
      replace (S maxRetries - S retryCount)%nat with k in IH by lia.
      assert (Hrest : clock (rested s1) = clock s + settle_ms v + 30000)
        by (change (clock (rested s1)) with (clock s1 + 30000); lia).
      assert (Hp : probes (rested s1) = probes s) by exact Hprobes.
      assert (Hvi : visits (rested s1) = S (visits s)) by exact Hvisits.
      destruct (extractAuthToken_from base64_utf8 JSON_parse v env budget
                  (S retryCount) (rested s1)) as [t s'|e s'|];
        [| |assumption];
        (eapply spent_more; [exact Hrest|exact Hp|exact Hvi|exact Hg
                            |exact IH|lia]). }
    destruct (guards_expiry v) eqn:Hg; [|exact Haccept].
    destruct (nan_leb _ 0).
    + destruct (retryCount <? maxRetries)%nat eqn:Hlt;
        [apply Hrevisit; reflexivity|exact Hsettled].
    + destruct (nan_ltb _ (5 * 60 * 1000)); [|exact Haccept].
      destruct (retryCount <? maxRetries)%nat eqn:Hlt;
        [apply Hrevisit; reflexivity|exact Haccept].
  - unfold bind, gets, install, modify. mred.
    destruct Hsettled as (H1 & H2 & H3 & H4 & H5). unfold spent.
    change (clock (set_expiry _ (set_token _ s1))) with (clock s1).
    change (visits (set_expiry _ (set_token _ s1))) with (visits s1).
    change (probes (set_expiry _ (set_token _ s1))) with (probes s1).
    repeat split; try lia; apply H5; assumption.
Qed.

End RenewalCost.

(** X4. A renewal always comes to an end, and within bounds: at most four
    visits of the page, one test request and one launch of the browser, and
    no more waiting than four settle waits and three pauses of 30 seconds
    (150 seconds in auto-token-monitor.js). In the copy that does not look
    at the expiry of the token found, a renewal is a single visit. *)
Theorem renewal_cost_is_bounded
    (base64_utf8 : string -> string) (JSON_parse : string -> option json)
    (v : Variant) (env : Env) (s : State) :
  0 <= settle_ms v ->
  match refreshAuthToken base64_utf8 JSON_parse v env s with
  | Ret _ s' | Throw _ s' =>
      clock s <= clock s' <= clock s + 4 * settle_ms v + 3 * 30000
      /\ (visits s' <= visits s + 4)%nat
      /\ (probes s' <= probes s + 1)%nat
      /\ (launches s' <= launches s + 1)%nat
      /\ (guards_expiry v = false ->
          clock s' <= clock s + settle_ms v
          /\ (visits s' <= visits s + 1)%nat)
  | OutOfFuel => False
  end.
Proof.
  intros Hsettle.
  assert (Hextract : forall s0,
    clock s0 = clock s -> visits s0 = visits s -> probes s0 = probes s ->
    (launches s0 <= launches s + 1)%nat ->
    match extractAuthToken base64_utf8 JSON_parse v env 0 s0 with
    | Ret _ s' | Throw _ s' =>
        clock s <= clock s' <= clock s + 4 * settle_ms v + 3 * 30000
        /\ (visits s' <= visits s + 4)%nat
        /\ (probes s' <= probes s + 1)%nat
        /\ (launches s' <= launches s + 1)%nat
        /\ (guards_expiry v = false ->
            clock s' <= clock s + settle_ms v
            /\ (visits s' <= visits s + 1)%nat)
    | OutOfFuel => False
    end).
  { intros s0 Hc Hv Hp Hl. unfold extractAuthToken.
    pose proof (extractAuthToken_from_spent base64_utf8 JSON_parse v env
                  Hsettle (S maxRetries - 0) 0 s0) as Hspent.
    pose proof (extractAuthToken_from_shape base64_utf8 JSON_parse v env
                  (S maxRetries - 0) 0 s0) as Hshape.
    assert (Hlaunch : forall s',
      spent v (S maxRetries - 0) s0 s' -> launches s' = launches s0 ->
      clock s <= clock s' <= clock s + 4 * settle_ms v + 3 * 30000
      /\ (visits s' <= visits s + 4)%nat
      /\ (probes s' <= probes s + 1)%nat
      /\ (launches s' <= launches s + 1)%nat
      /\ (guards_expiry v = false ->
          clock s' <= clock s + settle_ms v
          /\ (visits s' <= visits s + 1)%nat)).
    { intros s' (H1 & H2 & H3 & H4 & H5) H6.
      change (Z.of_nat (S maxRetries - 0)) with 4 in H2.
      change (Z.of_nat (S maxRetries - 0 - 1)) with 3 in H2.
      change (S maxRetries - 0)%nat with 4%nat in H4.
      rewrite Hc in *. rewrite Hv in *. rewrite Hp in *.
      repeat split; try lia; apply H5; assumption. }
    destruct (extractAuthToken_from _ _ _ _ _ _ s0) as [t s'|e s'|].
    - apply Hlaunch; [apply Hspent; unfold maxRetries; lia|].
      destruct Hshape as (_ & _ & _ & _ & Hl' & _);
        [unfold maxRetries; lia|unfold maxRetries; lia|exact Hl'].
    - apply Hlaunch; [apply Hspent; unfold maxRetries; lia|].
      destruct Hshape as (_ & Hl' & _);
        [unfold maxRetries; lia|unfold maxRetries; lia|exact Hl'].
    - apply Hspent; unfold maxRetries; lia. }
  unfold refreshAuthToken. rewrite try_rethrow.
  unfold bind at 1, gets.
  destruct (browser s); cbn [negb].
  - unfold bind. mred. apply Hextract; trivial. lia.
  - unfold bind at 1, initializeBrowser.
    destruct (launch_ok env (launches s)).
    + apply Hextract; trivial.
      change (launches (set_browser true (emit (Launched true) s)))
        with (S (launches s)). lia.
    + change (launches (emit (Launched false) s)) with (S (launches s)).
      change (clock (emit (Launched false) s)) with (clock s).
      change (visits (emit (Launched false) s)) with (visits s).
      change (probes (emit (Launched false) s)) with (probes s).
      repeat split; lia.
Qed.

(** The page keeps handing out a token that expires at minute 4: the
    renewal started at instant 0 goes through all four visits. *)
Lemma renewal_cost_is_bounded_witness :
  0 <= settle_ms auto_token_monitor
  /\ match
       refreshAuthToken as_is exp_only auto_token_monitor short_lived
         (steady [])
     with
     | Ret _ s' | Throw _ s' =>
         clock (steady []) <= clock s'
           <= clock (steady []) + 4 * settle_ms auto_token_monitor + 3 * 30000
         /\ (visits s' <= visits (steady []) + 4)%nat
         /\ (probes s' <= probes (steady []) + 1)%nat
         /\ (launches s' <= launches (steady []) + 1)%nat
         /\ (guards_expiry auto_token_monitor = false ->
             clock s' <= clock (steady []) + settle_ms auto_token_monitor
             /\ (visits s' <= visits (steady []) + 1)%nat)
     | OutOfFuel => False
     end.
Proof.
  split; [vm_compute; discriminate|].
  apply renewal_cost_is_bounded. vm_compute. discriminate.
Defined.

(** ** What [getValidToken] costs *)

Section Attempts.
Variable env : Env.

(** One pass through the loop: exactly one launch. *)
Lemma attempt_cost (b : bool) (s : State) :
  match
    try_catch
      (TokenExtractor.initializeFreshBrowser env ;;
       token <- TokenExtractor.extractAuthToken env ;;
       validation <- TokenExtractor.validateTokenWithServer env token ;;
       match validation with
       | Some valid => ret (Some valid)
       | None => (if b then wait 10000 else ret tt) ;; ret None
       end)
      (fun _ => (if b then wait 10000 else ret tt) ;; ret None) s
  with
  | Ret returned s1 =>
      launches s1 = S (launches s)
      /\ attempted 1 s s1
      /\ (returned <> None -> browser s1 = true)
      /\ (b = false -> clock s1 <= clock s + 15000)
  | Throw _ _ => False
  | OutOfFuel => False
  end.
Proof.
  unfold attempted, try_catch, bind, TokenExtractor.initializeFreshBrowser,
    TokenExtractor.extractAuthToken, try_catch, bind, goto, wait, modify,
    TokenExtractor.validateTokenWithServer.
  destruct (browser s) eqn:Hb; destruct b;
    repeat (mred; cbn [browser set_browser emit negb];
            match goal with
            | |- context [launch_ok env ?n] => destruct (launch_ok env n)
            | |- context [visit env ?n] =>
                destruct (visit env n) as [|ls ss]
            | |- context [evaluate ?page] =>
                destruct (evaluate page) as [token|]
            | |- context [String.eqb ?token ""] =>
                destruct (String.eqb token "")
            | |- context [probe env ?n] =>
                destruct (probe env n) as [|status []]
            | |- context [?status =? 200] => destruct (status =? 200)
            end);
    mred; unfold launches, visits, probes, fetches, sends, count; cbn;
    repeat split; try lia; try congruence; try discriminate.
Qed.

Lemma attempted_none (s : State) : attempted 0 s s.
Proof. unfold attempted. repeat split; lia. Qed.

Lemma attempted_more (k k' : nat) (s s' : State) :
  (k <= k')%nat -> attempted k s s' -> attempted k' s s'.
Proof.
  unfold attempted. intros Hk (A1 & A2 & A3 & A4 & A5).
  repeat split; try lia; apply A5.
Qed.

Lemma attempted_step (k : nat) (s s1 s' : State) :
  attempted 1 s s1 -> attempted k s1 s' -> attempted (S k) s s'.
Proof.
  unfold attempted. rewrite Nat2Z.inj_succ.
  intros (A1 & A2 & A3 & A4 & A5 & A6 & A7 & A8 & A9)
         (B1 & B2 & B3 & B4 & B5 & B6 & B7 & B8 & B9).
  repeat split; try lia; congruence.
Qed.

Lemma getValidToken_loop_cost maxRetries fuel : forall attempts s,
  (attempts <= maxRetries)%nat ->
  (maxRetries - attempts < fuel)%nat ->
  match TokenExtractor.getValidToken_loop env fuel attempts maxRetries s with
  | Ret _ s' =>
      attempted (maxRetries - attempts) s s'
      /\ browser s' = true
      /\ (launches s < launches s')%nat
  | Throw e s' =>
      e = FailedToObtainToken
      /\ attempted (maxRetries - attempts) s s'
      /\ launches s' = (launches s + (maxRetries - attempts))%nat
  | OutOfFuel => False
  end.
Proof.
  induction fuel as [|fuel IH]; intros attempts s Hle Hfuel; [lia|].
  cbn [TokenExtractor.getValidToken_loop].
  destruct (attempts <? maxRetries)%nat eqn:Hlt.
  2:{ apply Nat.ltb_ge in Hlt.
      replace (maxRetries - attempts)%nat with 0%nat by lia.
      split; [reflexivity|]. split; [apply attempted_none|]. unfold throw. lia. }
  apply Nat.ltb_lt in Hlt. cbv zeta. unfold bind at 1.
  pose proof (attempt_cost (S attempts <? maxRetries)%nat s) as Hcost.
  replace (maxRetries - attempts)%nat with (S (maxRetries - S attempts))
    by lia.
  match type of Hcost with match ?m with _ => _ end =>
    destruct m as [[token|] s1|e s1|] end; try contradiction.
  - destruct Hcost as (Hl & Hone & Hb & _). mred.
    split; [|split; [apply Hb; discriminate|lia]].
    eapply attempted_more; [|exact Hone]. lia.
  - destruct Hcost as (Hl & Hone & _).
    assert (Hfuel' : (maxRetries - S attempts < fuel)%nat) by lia.
    specialize (IH (S attempts) s1 Hlt Hfuel').
    destruct (TokenExtractor.getValidToken_loop env fuel (S attempts)
                maxRetries s1) as [token s'|e s'|]; [| |assumption].
    + destruct IH as (Hk & Hb & Hl'). split; [|split; [exact Hb|lia]].
      eapply attempted_step; eassumption.
    + destruct IH as (He & Hk & Hl'). split; [exact He|]. split; [|lia].
      eapply attempted_step; eassumption.
Qed.

End Attempts.

(** X5. [getValidToken] always comes to an end. It launches a browser once
    per pass through its loop, at most [maxRetries] times, with at most one
    visit of the page and one verification request per launch and at most
    25 seconds of waiting per pass; it sends no listings request and no
    message and leaves the stored token, its expiry and the seen set alone.
    When it returns a token the browser it launched last is left open; when
    it gives up, it has launched exactly [maxRetries] browsers. *)
Theorem getValidToken_cost_is_bounded (env : Env) (maxRetries : nat)
    (s : State) :
  match TokenExtractor.getValidToken env maxRetries s with
  | Ret _ s' =>
      attempted maxRetries s s'
      /\ browser s' = true
      /\ (launches s < launches s')%nat
  | Throw e s' =>
      e = FailedToObtainToken
      /\ attempted maxRetries s s'
      /\ launches s' = (launches s + maxRetries)%nat
  | OutOfFuel => False
  end.
Proof.
  unfold TokenExtractor.getValidToken.
  pose proof (getValidToken_loop_cost env maxRetries (S maxRetries) 0 s) as H.
  rewrite Nat.sub_0_r in H. apply H; lia.
Qed.

(** No verification is answered 200: three launches, three visits of 15
    seconds and two pauses of 10 seconds, then the error. *)
Lemma getValidToken_cost_is_bounded_witness :
  exists s',
    TokenExtractor.getValidToken distrusted 3 fresh
    = Throw FailedToObtainToken s'
    /\ clock s' = 65000
    /\ launches s' = 3%nat
    /\ attempted 3 fresh s'.
Proof.
  pose proof (getValidToken_cost_is_bounded distrusted 3 fresh) as H.
  assert (E : exists s',
    TokenExtractor.getValidToken distrusted 3 fresh
    = Throw FailedToObtainToken s' /\ clock s' = 65000)
    by (vm_compute; eexists; split; reflexivity).
  destruct E as (s' & E & Hclock). rewrite E in H.
  destruct H as (_ & Hatt & Hl).
  exists s'. repeat split; trivial; apply Hatt.
Defined.

(** ** What a computation adds to the record of effects *)

Lemma extends_trans (P : effect -> Prop) (l1 l2 l3 : list effect) :
  extends P l1 l2 -> extends P l2 l3 -> extends P l1 l3.
Proof.
  intros H12 H23. induction H23 as [|e log He H IH]; [assumption|].
  constructor; assumption.
Qed.

Lemma extends_weaken (P Q : effect -> Prop) (l1 l2 : list effect) :
  (forall e, P e -> Q e) -> extends P l1 l2 -> extends Q l1 l2.
Proof.
  intros HPQ H. induction H as [|e log He H IH]; constructor; auto.
Qed.

Lemma extends_app (P : effect -> Prop) (old log : list effect) :
  extends P old log <->
  exists new, log = (new ++ old)%list /\ Forall P new.
Proof.
  split.
  - intros H. induction H as [|e log He H (new & -> & Hnew)].
    + exists []. split; [reflexivity|constructor].
    + exists (e :: new). split; [reflexivity|constructor; assumption].
  - intros (new & -> & Hnew). induction Hnew as [|e new He Hnew IH].
    + constructor.
    + simpl. constructor; assumption.
Qed.

Lemma extends_count (P : effect -> Prop) (p : effect -> bool)
    (s s' : State) :
  (forall e, P e -> p e = false) ->
  extends P (trace s) (trace s') -> count p s' = count p s.
Proof.
  unfold count. intros Hp H.
  induction H as [|e log He H IH]; [reflexivity|].
  simpl. rewrite (Hp e He). exact IH.
Qed.

Lemma extends_count_le (P : effect -> Prop) (p : effect -> bool)
    (s s' : State) :
  extends P (trace s) (trace s') -> (count p s <= count p s')%nat.
Proof.
  unfold count. intros H.
  induction H as [|e log He H IH]; [lia|].
  simpl. destruct (p e); simpl; lia.
Qed.

Section Emits.
Variable P : effect -> Prop.

Lemma emits_ret {A} (a : A) : emits P (ret a).
Proof. intros s. constructor. Qed.

Lemma emits_throw {A} (e : error) : emits P (@throw A e).
Proof. intros s. constructor. Qed.

Lemma emits_gets {A} (g : State -> A) : emits P (gets g).
Proof. intros s. constructor. Qed.

Lemma emits_out {A} : emits P (fun _ => @OutOfFuel A).
Proof. intros s. exact I. Qed.

Lemma emits_lift {A} (c : completion A) : emits P (lift c).
Proof. destruct c; intros s; constructor. Qed.

Lemma emits_modify (g : State -> State) :
  (forall s, extends P (trace s) (trace (g s))) -> emits P (modify g).
Proof. intros H s. apply H. Qed.

Lemma emits_bind {A B} (m : M A) (k : A -> M B) :
  emits P m -> (forall a, emits P (k a)) -> emits P (bind m k).
Proof.
  intros Hm Hk s. unfold bind. specialize (Hm s).
  destruct (m s) as [a s1|e s1|]; trivial.
  specialize (Hk a s1).
  destruct (k a s1) as [b s2|e s2|]; trivial;
    eapply extends_trans; eassumption.
Qed.

Lemma emits_try {A} (m : M A) (h : error -> M A) :
  emits P m -> (forall e, emits P (h e)) -> emits P (try_catch m h).
Proof.
  intros Hm Hh s. unfold try_catch. specialize (Hm s).
  destruct (m s) as [a s1|e s1|]; trivial.
  specialize (Hh e s1).
  destruct (h e s1) as [b s2|e' s2|]; trivial;
    eapply extends_trans; eassumption.
Qed.

End Emits.

Lemma emits_weaken {A} (P Q : effect -> Prop) (m : M A) :
  (forall e, P e -> Q e) -> emits P m -> emits Q m.
Proof.
  intros HPQ H s. specialize (H s).
  destruct (m s); trivial; eapply extends_weaken; eassumption.
Qed.

Create HintDb effects.

Ltac emit_step :=
  first
    [ solve [auto with effects]
    | apply emits_ret | apply emits_throw | apply emits_gets
    | apply emits_out | apply emits_lift
    | apply emits_bind; [|intros]
    | apply emits_try; [|intros]
    | match goal with
      | |- emits _ (if ?b then _ else _) => destruct b
      | |- emits _ (match ?x with _ => _ end) => destruct x
      | |- emits _ (let '(_, _) := ?p in _) => destruct p
      | |- emits _ (let _ := _ in _) => cbv zeta
      end ].
Ltac emitting := repeat emit_step.

(** The primitive effects. *)
Section EmitsPrimitives.
Variable P : effect -> Prop.
Variable env : Env.

Lemma wait_emits ms : P (Waited ms) -> emits P (wait ms).
Proof. intros H s. simpl. repeat constructor. exact H. Qed.

Lemma install_emits token expiry : emits P (install token expiry).
Proof. intros s. constructor. Qed.

Lemma set_token_emits token : emits P (modify (set_token token)).
Proof. intros s. constructor. Qed.

Lemma set_seen_emits (g : State -> list string) :
  emits P (modify (fun s => set_seen (g s) s)).
Proof. intros s. constructor. Qed.

Lemma goto_emits : (forall page, P (Visited page)) -> emits P (goto env).
Proof.
  intros H s. unfold goto. destruct (browser s); simpl; [|constructor].
  destruct (visit env (visits s)) eqn:E; simpl;
    (constructor; [rewrite <- ?E; apply H|constructor]).
Qed.

Lemma initializeBrowser_emits :
  (forall b, P (Launched b)) -> emits P (initializeBrowser env).
Proof.
  intros H s. unfold initializeBrowser.
  destruct (launch_ok env (launches s)); simpl; repeat constructor; apply H.
Qed.

Lemma initializeFreshBrowser_emits :
  (forall b, P (Launched b)) -> P Closed ->
  emits P (TokenExtractor.initializeFreshBrowser env).
Proof.
  intros H Hc s. unfold TokenExtractor.initializeFreshBrowser.
  destruct (browser s); destruct (launch_ok env _); simpl;
    repeat constructor; trivial.
Qed.

Lemma testToken_emits token :
  (forall reply, P (Probed token reply)) -> emits P (testToken env token).
Proof.
  intros H s. rewrite testToken_returns. simpl. repeat constructor. apply H.
Qed.

Lemma validateTokenWithServer_emits token :
  (forall reply, P (Probed token reply)) ->
  emits P (TokenExtractor.validateTokenWithServer env token).
Proof.
  intros H s. unfold TokenExtractor.validateTokenWithServer.
  destruct (probe env (probes s)) as [|status b] eqn:E;
    [|destruct (status =? 200)]; simpl; repeat constructor;
    rewrite <- ?E; apply H.
Qed.

Lemma postListings_emits token :
  (forall at_ms expiry reply, P (Fetched token at_ms expiry reply)) ->
  emits P (postListings env token).
Proof.
  intros H s. unfold postListings.
  destruct (listings env (fetches s)) eqn:E; simpl; repeat constructor;
    rewrite <- ?E; apply H.
Qed.

Lemma postMessage_emits job :
  (forall reply, P (Sent job reply)) -> emits P (postMessage env job).
Proof.
  intros H s. unfold postMessage.
  destruct (telegram env (sends s)) eqn:E; simpl; repeat constructor;
    rewrite <- ?E; apply H.
Qed.

Lemma formatJobForTelegram_emits job token :
  P (Scheduled job token) ->
  emits P (TokenExtractor.formatJobForTelegram job token).
Proof. intros H s. simpl. repeat constructor. exact H. Qed.

End EmitsPrimitives.

#[global] Hint Resolve wait_emits install_emits set_token_emits
  set_seen_emits goto_emits initializeBrowser_emits
  initializeFreshBrowser_emits testToken_emits validateTokenWithServer_emits
  postListings_emits postMessage_emits formatJobForTelegram_emits : effects.

#[global] Hint Extern 1 (silent _) => reflexivity : effects.
#[global] Hint Extern 1 (preparatory _) => split; reflexivity : effects.

(** Renewals add launches, closings, visits, waits and probes only. *)
Section EmitsRenewal.
Variable P : effect -> Prop.
Hypothesis P_Launched : forall b, P (Launched b).
Hypothesis P_Closed : P Closed.
Hypothesis P_Visited : forall page, P (Visited page).
Hypothesis P_Waited : forall ms, P (Waited ms).
Hypothesis P_Probed : forall token reply, P (Probed token reply).
Variable base64_utf8 : string -> string.
Variable JSON_parse : string -> option json.
Variable v : Variant.
Variable env : Env.

Lemma extractAuthToken_from_emits budget : forall retryCount,
  emits P (extractAuthToken_from base64_utf8 JSON_parse v env budget
             retryCount).
Proof.
  induction budget as [|budget IH]; intros retryCount;
    cbn [extractAuthToken_from]; emitting.
Qed.

Lemma refreshAuthToken_emits :
  emits P (refreshAuthToken base64_utf8 JSON_parse v env).
Proof.
  unfold refreshAuthToken, extractAuthToken.
  apply emits_try; [|intros; apply emits_throw].
  apply emits_bind; [apply emits_gets|intros ready].
  apply emits_bind; [destruct (negb ready); emitting|intros _].
  apply extractAuthToken_from_emits.
Qed.

Lemma modular_extractAuthToken_emits :
  emits P (TokenExtractor.extractAuthToken env).
Proof. unfold TokenExtractor.extractAuthToken. emitting. Qed.

Lemma getValidToken_loop_emits maxRetries fuel : forall attempts,
  emits P (TokenExtractor.getValidToken_loop env fuel attempts maxRetries).
Proof.
  induction fuel as [|fuel IH]; intros attempts;
    cbn [TokenExtractor.getValidToken_loop]; [apply emits_out|].
  destruct (attempts <? maxRetries)%nat; [|apply emits_throw].
  cbv zeta. apply emits_bind; [|intros [token|]; [apply emits_ret|apply IH]].
  apply emits_try.
  - apply emits_bind; [auto with effects|intros _].
    apply emits_bind; [apply modular_extractAuthToken_emits|intros token].
    apply emits_bind; [auto with effects|intros validation].
    destruct validation; emitting.
  - intros e. emitting.
Qed.

Lemma getValidToken_emits maxRetries :
  emits P (TokenExtractor.getValidToken env maxRetries).
Proof. apply getValidToken_loop_emits. Qed.

Lemma ensureValidToken_emits : emits P (TokenExtractor.ensureValidToken env).
Proof.
  unfold TokenExtractor.ensureValidToken.
  apply emits_try; [|intros; apply emits_throw].
  apply emits_bind; [apply emits_gets|intros current]. cbv zeta.
  assert (Hrenew : emits P
    (token <- TokenExtractor.getValidToken env 3 ;;
     modify (set_token (Some token)) ;; ret token)).
  { apply emits_bind; [apply getValidToken_emits|intros token]. emitting. }
  destruct current as [token|]; [|exact Hrenew].
  destruct (String.eqb token ""); [exact Hrenew|].
  apply emits_bind; [auto with effects|intros [valid|]];
    [apply emits_ret|exact Hrenew].
Qed.

(** A pass through the loop of [getValidToken] that yields a token has
    ended on the verification of that token, answered 200. *)
Lemma attempt_verified (b : bool) (s : State) :
  match
    try_catch
      (TokenExtractor.initializeFreshBrowser env ;;
       token <- TokenExtractor.extractAuthToken env ;;
       validation <- TokenExtractor.validateTokenWithServer env token ;;
       match validation with
       | Some valid => ret (Some valid)
       | None => (if b then wait 10000 else ret tt) ;; ret None
       end)
      (fun _ => (if b then wait 10000 else ret tt) ;; ret None) s
  with
  | Ret (Some token) s1 =>
      exists older,
        trace s1 = Probed token (Reply 200 tt) :: older
        /\ extends P (trace s) older
  | Ret None s1 => extends P (trace s) (trace s1)
  | Throw _ _ => False
  | OutOfFuel => False
  end.
Proof.
  unfold try_catch, bind, TokenExtractor.initializeFreshBrowser,
    TokenExtractor.extractAuthToken, try_catch, bind, goto, wait, modify,
    TokenExtractor.validateTokenWithServer.
  destruct (browser s) eqn:Hb; destruct b;
    repeat (mred; cbn [browser set_browser emit negb];
            match goal with
            | |- context [launch_ok env ?n] => destruct (launch_ok env n)
            | |- context [visit env ?n] =>
                destruct (visit env n) as [|ls ss]
            | |- context [evaluate ?page] =>
                destruct (evaluate page) as [token|]
            | |- context [String.eqb ?token ""] =>
                destruct (String.eqb token "")
            | |- context [probe env ?n] =>
                destruct (probe env n) as [|status []]
            | |- context [?status =? 200] =>
                destruct (Z.eqb_spec status 200); [subst status|]
            end);
    mred; cbn [trace emit set_browser advance];
    try (eexists; split; [reflexivity|]);
    repeat (first [apply extends_same | apply extends_more]); auto.
Qed.

Lemma getValidToken_loop_verified maxRetries fuel : forall attempts s,
  match TokenExtractor.getValidToken_loop env fuel attempts maxRetries s with
  | Ret token s' =>
      exists older,
        trace s' = Probed token (Reply 200 tt) :: older
        /\ extends P (trace s) older
  | _ => True
  end.
Proof.
  induction fuel as [|fuel IH]; intros attempts s; [exact I|].
  cbn [TokenExtractor.getValidToken_loop].
  destruct (attempts <? maxRetries)%nat; [|exact I].
  cbv zeta. unfold bind at 1.
  pose proof (attempt_verified (S attempts <? maxRetries)%nat s) as Hone.
  match type of Hone with match ?m with _ => _ end =>
    destruct m as [[token|] s1|e s1|] end; try contradiction.
  - exact Hone.
  - specialize (IH (S attempts) s1).
    destruct (TokenExtractor.getValidToken_loop env fuel (S attempts)
                maxRetries s1) as [token s'|e s'|]; trivial.
    destruct IH as (older & Htrace & Holder). exists older.
    split; [exact Htrace|]. eapply extends_trans; eassumption.
Qed.

(** A token returned by [ensureValidToken] is the stored one, and the last
    thing that happened is its verification, answered 200. *)
Lemma ensureValidToken_verified (s : State) :
  match TokenExtractor.ensureValidToken env s with
  | Ret token s' =>
      currentAuthToken s' = Some token
      /\ exists older,
           trace s' = Probed token (Reply 200 tt) :: older
           /\ extends P (trace s) older
  | _ => True
  end.
Proof.
  unfold TokenExtractor.ensureValidToken. rewrite try_rethrow.
  assert (Hrenew : forall s0, extends P (trace s) (trace s0) ->
    match
      (token <- TokenExtractor.getValidToken env 3 ;;
       modify (set_token (Some token)) ;; ret token) s0
    with
    | Ret token s' =>
        currentAuthToken s' = Some token
        /\ exists older,
             trace s' = Probed token (Reply 200 tt) :: older
             /\ extends P (trace s) older
    | _ => True
    end).
  { intros s0 Hs0. unfold bind, TokenExtractor.getValidToken.
    pose proof (getValidToken_loop_verified 3 4 0 s0) as H3.
    destruct (TokenExtractor.getValidToken_loop env 4 0 3 s0)
      as [t s1|e s1|]; trivial.
    mred. unfold modify. split; [reflexivity|].
    destruct H3 as (older & Htrace & Holder). exists older.
    split; [exact Htrace|]. eapply extends_trans; eassumption. }
  unfold bind at 1, gets.
  destruct (currentAuthToken s) as [current|] eqn:Hcur;
    [|apply Hrenew; constructor].
  destruct (String.eqb current ""); [apply Hrenew; constructor|].
  unfold bind at 1, TokenExtractor.validateTokenWithServer.
  destruct (probe env (probes s)) as [|status []] eqn:Hp;
    [apply Hrenew; repeat constructor; apply P_Probed|].
  destruct (Z.eqb_spec status 200) as [->|Hne];
    [|apply Hrenew; repeat constructor; apply P_Probed].
  mred. split; [exact Hcur|]. exists (trace s).
  split; [reflexivity|constructor].
Qed.

End EmitsRenewal.

(** ** The modular monitor verifies the token before every message *)

Lemma verified_sends_app (new old : list effect) :
  verified_sends new -> verified_sends old -> verified_sends (new ++ old).
Proof.
  intros Hnew Hold. induction new as [|e new IH]; [exact Hold|].
  destruct e; simpl in *; auto.
  destruct Hnew as ((token & older & ->) & Hrest). split; [|auto].
  exists token, (older ++ old)%list. reflexivity.
Qed.

Lemma verified_sends_silent (log : list effect) :
  Forall silent log -> verified_sends log.
Proof.
  induction 1 as [|e log He Hlog IH]; [exact I|].
  destruct e; simpl; trivial. discriminate He.
Qed.

Lemma verified_since_refl (s : State) : verified_since s s.
Proof. exists []. split; [reflexivity|exact I]. Qed.

Lemma verified_since_trans (s1 s2 s3 : State) :
  verified_since s1 s2 -> verified_since s2 s3 -> verified_since s1 s3.
Proof.
  intros (new1 & H1 & V1) (new2 & H2 & V2). exists (new2 ++ new1)%list.
  split; [rewrite H2, H1, app_assoc; reflexivity|].
  apply verified_sends_app; assumption.
Qed.

Lemma verified_since_silent (s s' : State) :
  extends silent (trace s) (trace s') -> verified_since s s'.
Proof.
  intros H. apply extends_app in H as (new & H & Hnew).
  exists new. split; [exact H|apply verified_sends_silent; exact Hnew].
Qed.

Lemma verified_since_message (s s1 : State) (job : Job) (token : string)
    (reply : HttpReply TelegramBody) (older : list effect) :
  trace s1 = Probed token (Reply 200 tt) :: older ->
  extends silent (trace s) older ->
  verified_since s (emit (Sent job reply) (emit (Scheduled job token) s1)).
Proof.
  intros Htrace Holder. apply extends_app in Holder as (new & -> & Hnew).
  exists (Sent job reply :: Scheduled job token
            :: Probed token (Reply 200 tt) :: new).
  split; [simpl; rewrite Htrace; reflexivity|].
  simpl. split; [eexists; eexists; reflexivity|].
  apply verified_sends_silent. exact Hnew.
Qed.

Section ModularDispatcher.
Variable env : Env.

Lemma silent_Launched : forall b, silent (Launched b).
Proof. reflexivity. Qed.
Lemma silent_Visited : forall page, silent (Visited page).
Proof. reflexivity. Qed.
Lemma silent_Waited : forall ms, silent (Waited ms).
Proof. reflexivity. Qed.
Lemma silent_Probed : forall token reply, silent (Probed token reply).
Proof. reflexivity. Qed.

Lemma modular_sendLoop_verified fuel jobs : forall i s,
  match TokenExtractor.sendLoop env fuel jobs i s with
  | Ret _ s' => verified_since s s'
  | Throw _ s' => verified_since s s'
  | OutOfFuel => True
  end.
Proof.
  induction fuel as [|fuel IH]; intros i s; [exact I|].
  cbn [TokenExtractor.sendLoop].
  destruct (nth_error jobs i) as [job|]; [|apply verified_since_refl].
  destruct (i <? 999)%nat; [|apply verified_since_refl].
  unfold bind at 1.
  pose proof (ensureValidToken_verified silent silent_Launched eq_refl
                silent_Visited silent_Waited silent_Probed env s) as Hv.
  pose proof (ensureValidToken_emits silent silent_Launched eq_refl
                silent_Visited silent_Waited silent_Probed env s) as He.
  destruct (TokenExtractor.ensureValidToken env s) as [token s1|e s1|];
    [|apply verified_since_silent; exact He|exact I].
  destruct Hv as (_ & older & Htrace & Holder).
  unfold bind at 1, TokenExtractor.formatJobForTelegram, modify.
  unfold bind at 1, postMessage.
  change (sends (emit (Scheduled job token) s1)) with (sends s1).
  pose proof (verified_since_message s s1 job token
                (telegram env (sends s1)) older Htrace Holder) as Hsent.
  set (s3 := emit (Sent job (telegram env (sends s1)))
               (emit (Scheduled job token) s1)) in *.
  clearbody s3.
  destruct (telegram env (sends s1)) as [|status body]; [exact Hsent|].
  cbv beta iota.
  assert (Hnext : forall j s4, verified_since s3 s4 ->
    match TokenExtractor.sendLoop env fuel jobs j s4 with
    | Ret _ s' => verified_since s s'
    | Throw _ s' => verified_since s s'
    | OutOfFuel => True
    end).
  { intros j s4 H34. specialize (IH j s4).
    destruct (TokenExtractor.sendLoop env fuel jobs j s4); trivial;
      (eapply verified_since_trans; [exact Hsent|];
       eapply verified_since_trans; eassumption). }
  assert (Hwait : forall ms,
    verified_since s3 (emit (Waited ms) (advance ms s3))).
  { intros ms. exists [Waited ms]. split; [reflexivity|exact I]. }
  destruct (status =? 429).
  - unfold bind, wait, modify. apply Hnext, Hwait.
  - destruct (ok status); cbn [negb]; [|apply Hnext, verified_since_refl].
    destruct body as [|result]; [exact Hsent|].
    unfold bind at 1.
    destruct ((i <? List.length jobs - 1)%nat && (i <? 999 - 1)%nat).
    + unfold wait, modify. apply Hnext, Hwait.
    + mred. apply Hnext, verified_since_refl.
Qed.

End ModularDispatcher.

#[global] Hint Resolve extractAuthToken_from_emits refreshAuthToken_emits
  getValidToken_emits ensureValidToken_emits : effects.

Lemma modular_fetchAmazonJobs_silent (env : Env) (fuel : nat) :
  emits silent (TokenExtractor.fetchAmazonJobs env fuel).
Proof.
  induction fuel as [|fuel IH]; cbn [TokenExtractor.fetchAmazonJobs];
    emitting.
Qed.

(** X6. In the modular monitor every message to Telegram comes right after
    a request for the schedules of its job, made with the stored token, and
    that right after a verification of this token answered 200: a finished
    [sendTelegramAlert], and a finished poll cycle, have added no message
    to the record of effects that is not preceded by the two. *)
Theorem modular_alerts_follow_a_verification (env : Env) (fuel : nat)
    (jobs : list Job) (s : State) :
  match TokenExtractor.sendTelegramAlert env fuel jobs s with
  | Ret _ s' => verified_since s s'
  | Throw _ _ => False
  | OutOfFuel => True
  end
  /\ match TokenExtractor.pollForJobs env fuel s with
     | Ret _ s' => verified_since s s'
     | Throw _ _ => False
     | OutOfFuel => True
     end.
Proof.
  assert (Hsend : forall batch s0,
    match TokenExtractor.sendTelegramAlert env fuel batch s0 with
    | Ret _ s' => verified_since s0 s'
    | Throw _ _ => False
    | OutOfFuel => True
    end).
  { intros batch s0. unfold TokenExtractor.sendTelegramAlert, try_catch.
    destruct (String.eqb (TELEGRAM_BOT_TOKEN env) ""
              || String.eqb (TELEGRAM_CHANNEL_ID env) "");
      [apply verified_since_refl|].
    pose proof (modular_sendLoop_verified env fuel batch 0 s0) as H.
    destruct (TokenExtractor.sendLoop env fuel batch 0 s0); exact H. }
  split; [apply Hsend|].
  unfold TokenExtractor.pollForJobs, try_catch. unfold bind at 1.
  pose proof (modular_fetchAmazonJobs_silent env fuel s) as Hfetch.
  destruct (TokenExtractor.fetchAmazonJobs env fuel s) as [batch s1|e s1|];
    [|apply verified_since_silent; exact Hfetch|exact I].
  apply verified_since_silent in Hfetch.
  destruct (List.length batch =? 0)%nat; [exact Hfetch|].
  unfold bind at 1, gets.
  destruct (0 <? List.length (unseen (seenJobIds s1) batch))%nat;
    [|exact Hfetch].
  unfold bind at 1, modify. unfold bind at 1.
  set (s2 := set_seen _ s1).
  assert (H12 : verified_since s s2) by exact Hfetch.
  clearbody s2.
  specialize (Hsend (unseen (seenJobIds s1) batch) s2).
  destruct (TokenExtractor.sendTelegramAlert env fuel
              (unseen (seenJobIds s1) batch) s2) as [[] s3|e s3|];
    [|contradiction|exact I].
  mred. eapply verified_since_trans; eassumption.
Qed.

(** Two jobs dispatched by the modular monitor: a verification, a schedule
    request and the message, twice. *)
Lemma modular_alerts_follow_a_verification_witness :
  exists s',
    TokenExtractor.sendTelegramAlert (calm []) 5 [J1; J2] (steady [])
    = Ret tt s'
    /\ verified_since (steady []) s'
    /\ rev (trace s')
       = [Probed "eyJ.3600.sig" (Reply 200 tt);
          Scheduled J1 "eyJ.3600.sig";
          Sent J1 (Reply 200 (TgResult true)); Waited 2000;
          Probed "eyJ.3600.sig" (Reply 200 tt);
          Scheduled J2 "eyJ.3600.sig";
          Sent J2 (Reply 200 (TgResult true))].
Proof.
  destruct (modular_alerts_follow_a_verification (calm []) 5 [J1; J2]
              (steady [])) as [H _].
  eexists. split; [reflexivity|]. split; [exact H|reflexivity].
Defined.

(** ** What a poll cycle sends and what it marks as seen *)

Lemma fetchAmazonJobs_silent (base64_utf8 : string -> string)
    (JSON_parse : string -> option json) (v : Variant) (env : Env)
    (fuel : nat) :
  emits silent (fetchAmazonJobs base64_utf8 JSON_parse v env fuel).
Proof.
  induction fuel as [|fuel IH]; cbn [fetchAmazonJobs]; emitting.
Qed.

Lemma nth_error_firstn_In {A} (l : list A) : forall i m x,
  nth_error l i = Some x -> (i < m)%nat -> In x (firstn m l).
Proof.
  induction l as [|y l IH]; intros i m x Hnth Hlt.
  - destruct i; discriminate.
  - destruct m as [|m]; [lia|]. destruct i as [|i]; simpl in *.
    + inversion Hnth. left. reflexivity.
    + right. eapply IH; [eassumption|lia].
Qed.

Lemma sendLoop_about (v : Variant) (env : Env) (fuel : nat)
    (jobs : list Job) : forall i,
  emits (about (firstn (MAX_JOBS_PER_ALERT v) jobs))
        (sendLoop v env fuel jobs i).
Proof.
  induction fuel as [|fuel IH]; intros i; cbn [sendLoop];
    [apply emits_out|].
  destruct (nth_error jobs i) as [job|] eqn:Hnth; [|apply emits_ret].
  destruct (i <? MAX_JOBS_PER_ALERT v)%nat eqn:Hcap; [|apply emits_ret].
  apply Nat.ltb_lt in Hcap.
  apply emits_bind.
  - apply postMessage_emits. intros reply. simpl.
    eapply nth_error_firstn_In; eassumption.
  - intros [status body]. emitting; apply wait_emits; exact I.
Qed.

Lemma sendTelegramAlert_about (v : Variant) (env : Env) (fuel : nat)
    (jobs : list Job) :
  emits (about (firstn (MAX_JOBS_PER_ALERT v) jobs))
        (sendTelegramAlert v env fuel jobs).
Proof.
  unfold sendTelegramAlert. apply emits_try; [|intros; apply emits_ret].
  destruct (_ || _); [apply emits_ret|apply sendLoop_about].
Qed.

Section Cycle.
Variable base64_utf8 : string -> string.
Variable JSON_parse : string -> option json.
Variable v : Variant.
Variable env : Env.

(** What a finished cycle has sent, and that what it emitted was unseen. *)
Lemma pollForJobs_sends fuel s emitted s' :
  pollForJobs base64_utf8 JSON_parse v env fuel s = Ret emitted s' ->
  extends (about (firstn (MAX_JOBS_PER_ALERT v) emitted)) (trace s) (trace s')
  /\ (forall job, In job emitted -> ~ In (jobId job) (seenJobIds s)).
Proof.
  unfold pollForJobs, try_catch. unfold bind at 1.
  pose proof (fetchAmazonJobs_keeps_seen base64_utf8 JSON_parse v env fuel s)
    as Hseen.
  pose proof (fetchAmazonJobs_silent base64_utf8 JSON_parse v env fuel s)
    as Hfetch.
  assert (Hquiet : forall s1, extends silent (trace s) (trace s1) ->
    extends (about (firstn (MAX_JOBS_PER_ALERT v) [])) (trace s) (trace s1)
    /\ (forall job : Job, In job [] -> ~ In (jobId job) (seenJobIds s))).
  { intros s1 H. split; [|intros job []].
    eapply extends_weaken; [|exact H].
    intros [] He; try exact I. discriminate He. }
  destruct (fetchAmazonJobs base64_utf8 JSON_parse v env fuel s)
    as [jobs s1|e s1|]; [| |discriminate].
  2:{ intros E. inversion E; subst. apply Hquiet, Hfetch. }
  destruct (List.length jobs =? 0)%nat.
  { intros E. inversion E; subst. apply Hquiet, Hfetch. }
  unfold bind at 1, gets. rewrite Hseen.
  destruct (unseen (seenJobIds s) jobs) as [|job new] eqn:Hnew.
  { intros E. inversion E; subst. apply Hquiet, Hfetch. }
  cbn [List.length Nat.ltb Nat.leb]. unfold bind at 1, modify.
  unfold bind at 1.
  set (s2 := set_seen _ s1).
  assert (H2 : extends silent (trace s) (trace s2)) by exact Hfetch.
  clearbody s2.
  pose proof (sendTelegramAlert_about v env fuel (job :: new) s2) as Hsend.
  pose proof (sendTelegramAlert_no_throw v env fuel (job :: new) s2)
    as Hcaught.
  destruct (sendTelegramAlert v env fuel (job :: new) s2) as [[] s3|e s3|];
    [| |discriminate].
  2:{ exfalso. eapply Hcaught. reflexivity. }
  assert (Hdone : forall s4, trace s4 = trace s3 ->
    extends (about (firstn (MAX_JOBS_PER_ALERT v) (job :: new)))
            (trace s) (trace s4)
    /\ (forall j, In j (job :: new) -> ~ In (jobId j) (seenJobIds s))).
  { intros s4 ->. split.
    - eapply extends_trans; [|exact Hsend].
      eapply extends_weaken; [|exact H2].
      intros [] He; try exact I. discriminate He.
    - intros j Hin. rewrite <- Hnew in Hin.
      apply unseen_In in Hin. apply Hin. }
  destruct (trims_seen v); unfold bind, modify; mred;
    intros E; inversion E; subst; apply Hdone; reflexivity.
Qed.

End Cycle.

Lemma add_all_app (jobs : list Job) : forall seen,
  exists suffix,
    add_all seen jobs = (seen ++ suffix)%list
    /\ (List.length suffix <= List.length jobs)%nat
    /\ (forall job, In job jobs -> In (jobId job) (seen ++ suffix)%list).
Proof.
  induction jobs as [|j rest IH]; intros seen.
  - exists []. rewrite app_nil_r. repeat split; [simpl; lia|intros job []].
  - unfold add_all in *. cbn [fold_left]. unfold add at 2.
    destruct (has seen (jobId j)) eqn:Hhas.
    + destruct (IH seen) as (suffix & Heq & Hlen & Hin).
      exists suffix. rewrite Heq. repeat split; [simpl; lia|].
      intros job [<-|Hjob]; [|apply Hin; exact Hjob].
      apply in_or_app. left. apply has_In. exact Hhas.
    + destruct (IH (seen ++ [jobId j])%list) as (suffix & Heq & Hlen & Hin).
      exists (jobId j :: suffix). rewrite Heq, <- app_assoc.
      repeat split; [simpl; lia|].
      intros job [<-|Hjob].
      * apply in_or_app. right. left. reflexivity.
      * specialize (Hin job Hjob). rewrite <- app_assoc in Hin. exact Hin.
Qed.

Lemma trim_keeps_recent (seen suffix : list string) (id : string) :
  (List.length suffix <= 500)%nat ->
  In id suffix -> In id (trim (seen ++ suffix)).
Proof.
  intros Hlen Hin. unfold trim, slice_last.
  destruct (1000 <? List.length (seen ++ suffix))%nat;
    [|apply in_or_app; right; exact Hin].
  rewrite skipn_app, length_app.
  replace (List.length seen + List.length suffix - 500 - List.length seen)%nat
    with 0%nat by lia.
  apply in_or_app. right. exact Hin.
Qed.



(** X8. The messages of a cycle are about the first [MAX_JOBS_PER_ALERT]
    jobs it emits and about no other job: what a cycle emits beyond that
    number (5 in the copy for the US site) is marked as seen without any
    message. *)
Theorem only_the_first_jobs_are_sent
    (base64_utf8 : string -> string) (JSON_parse : string -> option json)
    (v : Variant) (env : Env) (fuel : nat) (s : State)
    (emitted : list Job) (s' : State) :
  pollForJobs base64_utf8 JSON_parse v env fuel s = Ret emitted s' ->
  exists new,
    trace s' = (new ++ trace s)%list
    /\ forall job reply,
         In (Sent job reply) new ->
         In job (firstn (MAX_JOBS_PER_ALERT v) emitted).
Proof.
  intros Hpoll.
  destruct (pollForJobs_sends _ _ _ _ _ _ _ _ Hpoll) as (Hsent & _).
  apply extends_app in Hsent as (new & Htrace & Hnew).
  exists new. split; [exact Htrace|]. intros job reply Hin.
  rewrite Forall_forall in Hnew. exact (Hnew _ Hin).
Qed.

(** Six new jobs in the copy for the US site: the sixth is marked as seen
    and no message about it is sent. *)
Lemma only_the_first_jobs_are_sent_witness :
  pollForJobs as_is exp_only us_monitor (calm (numbered 0 6)) 8 (steady [])
  = Ret (numbered 0 6) after_capped_cycle
  /\ In "JOB-5" (seenJobIds after_capped_cycle)
  /\ forall reply,
       ~ In (Sent {| jobId := "JOB-5"; jobTitle := "Warehouse Associate" |}
               reply)
            (trace after_capped_cycle).
Proof.
  assert (E : pollForJobs as_is exp_only us_monitor (calm (numbered 0 6)) 8
                (steady []) = Ret (numbered 0 6) after_capped_cycle)
    by (vm_compute; reflexivity).
  split; [exact E|]. split; [vm_compute; tauto|].
  intros reply Hin.
  destruct (only_the_first_jobs_are_sent as_is exp_only us_monitor
              (calm (numbered 0 6)) 8 (steady []) (numbered 0 6)
              after_capped_cycle E) as (new & Htrace & Hnew).
  change (trace (steady [])) with (@nil effect) in Htrace.
  rewrite app_nil_r in Htrace. rewrite Htrace in Hin.
  specialize (Hnew _ _ Hin). vm_compute in Hnew.
  repeat (destruct Hnew as [Hnew|Hnew]; [discriminate Hnew|]).
  exact Hnew.
Defined.

(** ** Where the jobs of a cycle come from *)

Lemma bind_post {A B} (m : M A) (k : A -> M B) (Q : result B -> Prop)
    (s : State) :
  (forall e s', Q (Throw e s')) -> Q OutOfFuel ->
  (forall a s1, m s = Ret a s1 -> Q (k a s1)) ->
  Q (bind m k s).
Proof.
  intros Hthrow Hout Hret. unfold bind.
  destruct (m s) as [a s1|e s1|]; auto.
Qed.

Section Provenance.
Variable base64_utf8 : string -> string.
Variable JSON_parse : string -> option json.
Variable v : Variant.
Variable env : Env.

Lemma fetchAmazonJobs_answered fuel : forall s,
  match fetchAmazonJobs base64_utf8 JSON_parse v env fuel s with
  | Ret jobs s' => jobs = [] \/ answered_with env jobs s'
  | Throw _ _ => False
  | OutOfFuel => True
  end.
Proof.
  induction fuel as [|fuel IH]; intros s; [exact I|].
  cbn [fetchAmazonJobs]. unfold try_catch.
  match goal with
  |- match (match ?body s with _ => _ end) with _ => _ end =>
    assert (Hbody :
      match body s with
      | Ret jobs s' => jobs = [] \/ answered_with env jobs s'
      | _ => True
      end);
    [|destruct (body s) as [jobs s'|e s'|];
      [exact Hbody|left; reflexivity|exact I]]
  end.
  apply bind_post; [intros; exact I|exact I|intros expired s0 _].
  apply bind_post; [intros; exact I|exact I|intros [] s1 _].
  apply bind_post; [intros; exact I|exact I|intros current s1' E].
  inversion E; subst current s1'. clear E.
  destruct (currentAuthToken s1) as [token|] eqn:Htoken; [|exact I].
  destruct (String.eqb token "") eqn:Hne; [exact I|].
  apply bind_post; [intros; exact I|exact I|intros [status body] s2 E].
  unfold postListings in E.
  destruct (listings env (fetches s1)) as [|status' body'] eqn:Hreply;
    [discriminate|].
  inversion E; subst status' body' s2. clear E.
  destruct (ok status) eqn:Hok; cbn [negb].
  - destruct body as [| | |[jobs|]]; try exact I; try (left; reflexivity).
    right. exists token, status, (trace s1).
    repeat split; trivial.
  - destruct (status =? 401); [|exact I].
    apply bind_post; [intros; exact I|exact I|intros renewed s3 _].
    specialize (IH s3).
    destruct (fetchAmazonJobs base64_utf8 JSON_parse v env fuel s3);
      trivial.
Qed.

End Provenance.

(** X9. [fetchAmazonJobs] never throws, and a non-empty list of jobs it
    returns is the list of job cards in the answer to the request it sent
    last, an answer with a success status to a request carrying the token
    that is stored when the function returns. *)
Theorem fetched_jobs_come_from_the_last_answer
    (base64_utf8 : string -> string) (JSON_parse : string -> option json)
    (v : Variant) (env : Env) (fuel : nat) (s : State) :
  match fetchAmazonJobs base64_utf8 JSON_parse v env fuel s with
  | Ret jobs s' => jobs <> [] -> answered_with env jobs s'
  | Throw _ _ => False
  | OutOfFuel => True
  end.
Proof.
  pose proof (fetchAmazonJobs_answered base64_utf8 JSON_parse v env fuel s)
    as H.
  destruct (fetchAmazonJobs base64_utf8 JSON_parse v env fuel s)
    as [jobs s'|e s'|]; trivial.
  intros Hne. destruct H as [->|H]; [elim Hne; reflexivity|exact H].
Qed.

(** A cycle in steady state against an API that lists J1 and J2. *)
Lemma fetched_jobs_come_from_the_last_answer_witness :
  exists s',
    fetchAmazonJobs as_is exp_only auto_token_monitor (calm [J1; J2]) 8
      (steady []) = Ret [J1; J2] s'
    /\ answered_with (calm [J1; J2]) [J1; J2] s'.
Proof.
  pose proof (fetched_jobs_come_from_the_last_answer as_is exp_only
                auto_token_monitor (calm [J1; J2]) 8 (steady [])) as H.
  eexists. split; [reflexivity|]. apply H. discriminate.
Defined.

(** ** Start-up *)

Lemma stays_up_refl (s : State) : stays_up s s.
Proof. split; auto. Qed.

Lemma stays_up_trans (s1 s2 s3 : State) :
  stays_up s1 s2 -> stays_up s2 s3 -> stays_up s1 s3.
Proof.
  intros (B1 & T1) (B2 & T2). split; [|auto].
  intros Hb. destruct (B1 Hb) as (Hb2 & Hl2). destruct (B2 Hb2) as (Hb3 & Hl3).
  split; [exact Hb3|congruence].
Qed.

Lemma within_ret {A} (a : A) : within stays_up (ret a).
Proof. intros s. apply stays_up_refl. Qed.

Lemma within_throw {A} (e : error) : within stays_up (@throw A e).
Proof. intros s. apply stays_up_refl. Qed.

Lemma within_gets {A} (g : State -> A) : within stays_up (gets g).
Proof. intros s. apply stays_up_refl. Qed.

Lemma within_out {A} : within stays_up (fun _ => @OutOfFuel A).
Proof. intros s. exact I. Qed.

Lemma within_lift {A} (c : completion A) : within stays_up (lift c).
Proof. destruct c; intros s; apply stays_up_refl. Qed.

Lemma within_bind {A B} (m : M A) (k : A -> M B) :
  within stays_up m -> (forall a, within stays_up (k a)) ->
  within stays_up (bind m k).
Proof.
  intros Hm Hk s. unfold bind. specialize (Hm s).
  destruct (m s) as [a s1|e s1|]; trivial.
  specialize (Hk a s1).
  destruct (k a s1) as [b s2|e s2|]; trivial;
    eapply stays_up_trans; eassumption.
Qed.

Lemma within_try {A} (m : M A) (h : error -> M A) :
  within stays_up m -> (forall e, within stays_up (h e)) ->
  within stays_up (try_catch m h).
Proof.
  intros Hm Hh s. unfold try_catch. specialize (Hm s).
  destruct (m s) as [a s1|e s1|]; trivial.
  specialize (Hh e s1).
  destruct (h e s1) as [b s2|e' s2|]; trivial;
    eapply stays_up_trans; eassumption.
Qed.

Create HintDb upkeep.

Ltac upkeep_step :=
  first
    [ solve [auto with upkeep]
    | apply within_ret | apply within_throw | apply within_gets
    | apply within_out | apply within_lift
    | apply within_bind; [|intros]
    | apply within_try; [|intros]
    | match goal with
      | |- within _ (if ?b then _ else _) => destruct b eqn:?
      | |- within _ (match ?x with _ => _ end) => destruct x eqn:?
      | |- within _ (let '(_, _) := ?p in _) => destruct p
      | |- within _ (let _ := _ in _) => cbv zeta
      end ].
Ltac upkeep := repeat upkeep_step.

Section Upkeep.
Variable base64_utf8 : string -> string.
Variable JSON_parse : string -> option json.
Variable v : Variant.
Variable env : Env.

Lemma wait_stays_up ms : within stays_up (wait ms).
Proof. intros s. split; auto. Qed.

Lemma install_stays_up token expiry :
  String.eqb token "" = false -> within stays_up (install token expiry).
Proof.
  intros Hne s. split; [auto|]. intros _. exists token. split; trivial.
Qed.

Lemma set_seen_stays_up (g : State -> list string) :
  within stays_up (modify (fun s => set_seen (g s) s)).
Proof. intros s. split; auto. Qed.

Lemma testToken_stays_up token : within stays_up (testToken env token).
Proof. intros s. rewrite testToken_returns. split; auto. Qed.

Lemma goto_stays_up : within stays_up (goto env).
Proof.
  intros s. unfold goto. destruct (browser s) eqn:Hb; simpl;
    [|apply stays_up_refl].
  destruct (visit env (visits s)); split; auto.
Qed.

Lemma postListings_stays_up token : within stays_up (postListings env token).
Proof.
  intros s. unfold postListings.
  destruct (listings env (fetches s)); split; auto.
Qed.

Lemma postMessage_stays_up job : within stays_up (postMessage env job).
Proof.
  intros s. unfold postMessage.
  destruct (telegram env (sends s)); split; auto.
Qed.

Hint Resolve wait_stays_up install_stays_up set_seen_stays_up
  testToken_stays_up goto_stays_up postListings_stays_up
  postMessage_stays_up : upkeep.

Lemma extractAuthToken_from_stays_up budget : forall retryCount,
  within stays_up
    (extractAuthToken_from base64_utf8 JSON_parse v env budget retryCount).
Proof.
  induction budget as [|budget IH]; intros retryCount;
    cbn [extractAuthToken_from]; upkeep.
Qed.

(** A launch is made only when no browser is open. *)
Lemma refreshAuthToken_stays_up :
  within stays_up (refreshAuthToken base64_utf8 JSON_parse v env).
Proof.
  unfold refreshAuthToken, extractAuthToken.
  apply within_try; [|intros; apply within_throw].
  intros s. unfold bind at 1, gets.
  destruct (browser s) eqn:Hb; cbn [negb].
  - unfold bind. mred. apply extractAuthToken_from_stays_up.
  - unfold bind at 1, initializeBrowser.
    destruct (launch_ok env (launches s)).
    + pose proof (extractAuthToken_from_stays_up (S maxRetries - 0) 0
                    (set_browser true (emit (Launched true) s))) as H.
      destruct (extractAuthToken_from _ _ _ _ _ _ _) as [t s'|e s'|];
        trivial; (split; [congruence|]); intros He; apply H; exact He.
    + split; [congruence|auto].
Qed.

Hint Resolve refreshAuthToken_stays_up : upkeep.

Lemma fetchAmazonJobs_stays_up fuel :
  within stays_up (fetchAmazonJobs base64_utf8 JSON_parse v env fuel).
Proof.
  induction fuel as [|fuel IH]; cbn [fetchAmazonJobs]; upkeep.
Qed.

Lemma sendLoop_stays_up fuel jobs : forall i,
  within stays_up (sendLoop v env fuel jobs i).
Proof.
  induction fuel as [|fuel IH]; intros i; cbn [sendLoop]; upkeep.
Qed.

Hint Resolve fetchAmazonJobs_stays_up sendLoop_stays_up : upkeep.

Lemma pollForJobs_stays_up fuel :
  within stays_up (pollForJobs base64_utf8 JSON_parse v env fuel).
Proof. unfold pollForJobs, sendTelegramAlert. upkeep. Qed.

End Upkeep.

Lemma preparatory_Launched : forall b, preparatory (Launched b).
Proof. split; reflexivity. Qed.
Lemma preparatory_Visited : forall page, preparatory (Visited page).
Proof. split; reflexivity. Qed.
Lemma preparatory_Waited : forall ms, preparatory (Waited ms).
Proof. split; reflexivity. Qed.
Lemma preparatory_Probed : forall token reply, preparatory (Probed token reply).
Proof. split; reflexivity. Qed.
Lemma preparatory_Closed : preparatory Closed.
Proof. split; reflexivity. Qed.

(** X10. [startMonitoring] never throws. When it leaves the process
    running, it has launched one browser, which is open, and a non-empty
    token is stored. Otherwise it exits with code 1, and then no listings
    request and no message was sent, the stored token, its expiry and the
    seen set are as before, and the browser, if one is there, was closed as
    the last thing. *)
Theorem startMonitoring_runs_or_exits
    (base64_utf8 : string -> string) (JSON_parse : string -> option json)
    (v : Variant) (env : Env) (fuel : nat) (s : State) :
  match startMonitoring base64_utf8 JSON_parse v env fuel s with
  | Ret Running s' =>
      launches s' = S (launches s)
      /\ browser s' = true
      /\ equipped s'
      /\ (visits s < visits s')%nat
  | Ret (Exited code) s' =>
      code = 1
      /\ fetches s' = fetches s
      /\ sends s' = sends s
      /\ currentAuthToken s' = currentAuthToken s
      /\ tokenExpiryTime s' = tokenExpiryTime s
      /\ seenJobIds s' = seenJobIds s
      /\ (browser s' = true -> exists rest, trace s' = Closed :: rest)
      /\ (browser s' = false -> trace s' = Launched false :: trace s)
  | Throw _ _ => False
  | OutOfFuel => True
  end.
Proof.
  unfold startMonitoring, try_catch. unfold bind at 1, initializeBrowser.
  destruct (launch_ok env (launches s)) eqn:Hlaunch.
  2:{ unfold bind, cleanup, try_catch, bind, gets, modify.
      cbn [browser emit]. destruct (browser s) eqn:Hb; mred.
      - repeat split; trivial.
        + intros _. eexists. reflexivity.
        + cbn [browser emit]. congruence.
      - repeat split; trivial. cbn [browser emit]. congruence. }
  set (s1 := set_browser true (emit (Launched true) s)).
  assert (Hb1 : browser s1 = true) by reflexivity.
  assert (Hl1 : launches s1 = S (launches s)) by reflexivity.
  assert (Hframe1 : fetches s1 = fetches s /\ sends s1 = sends s
                    /\ currentAuthToken s1 = currentAuthToken s
                    /\ tokenExpiryTime s1 = tokenExpiryTime s
                    /\ seenJobIds s1 = seenJobIds s
                    /\ visits s1 = visits s) by (repeat split).
  clearbody s1. unfold bind at 1.
  pose proof (refreshAuthToken_shape base64_utf8 JSON_parse v env s1) as Hshape.
  pose proof (refreshAuthToken_throws base64_utf8 JSON_parse v env s1) as Hkeep.
  pose proof (refreshAuthToken_stays_up base64_utf8 JSON_parse v env s1) as Hup.
  pose proof (refreshAuthToken_keeps_seen base64_utf8 JSON_parse v env s1)
    as Hseen.
  pose proof (refreshAuthToken_emits preparatory preparatory_Launched
                preparatory_Visited preparatory_Waited preparatory_Probed
                base64_utf8 JSON_parse v env s1) as Hprep.
  destruct Hframe1 as (F1 & F2 & F3 & F4 & F5 & F6).
  destruct (refreshAuthToken base64_utf8 JSON_parse v env s1)
    as [token s2|e s2|]; [| |contradiction].
  - destruct Hshape as (Htoken & Hne & Hvisits & _).
    destruct Hup as (Hb2 & _). destruct (Hb2 Hb1) as (Hb2' & Hl2).
    unfold bind at 1.
    pose proof (pollForJobs_stays_up base64_utf8 JSON_parse v env fuel s2)
      as Hpoll.
    pose proof (pollForJobs_no_throw base64_utf8 JSON_parse v env fuel s2)
      as Hno.
    assert (Hgrow : forall emitted s3,
      pollForJobs base64_utf8 JSON_parse v env fuel s2 = Ret emitted s3 ->
      (visits s2 <= visits s3)%nat).
    { intros emitted s3 E.
      destruct (pollForJobs_sends _ _ _ _ _ _ _ _ E) as (Hext & _).
      eapply extends_count_le. exact Hext. }
    destruct (pollForJobs base64_utf8 JSON_parse v env fuel s2)
      as [emitted s3|e s3|]; [| |exact I].
    2:{ exfalso. eapply Hno. reflexivity. }
    unfold bind, logHealthStatus. mred.
    destruct Hpoll as (Hb3 & Ht3). destruct (Hb3 Hb2') as (Hb3' & Hl3).
    specialize (Hgrow emitted s3 eq_refl).
    repeat split; try congruence; try lia.
    apply Ht3. exists token. split; assumption.
  - unfold bind, cleanup, try_catch, bind, gets, modify.
    destruct Hup as (Hb2 & _). destruct (Hb2 Hb1) as (Hb2' & Hl2).
    rewrite Hb2'. mred. destruct Hkeep as (K1 & K2).
    assert (Hf : fetches s2 = fetches s1).
    { eapply extends_count; [|exact Hprep]. intros x Hx. apply Hx. }
    assert (Hs : sends s2 = sends s1).
    { eapply extends_count; [|exact Hprep]. intros x Hx. apply Hx. }
    change (fetches (emit Closed s2)) with (fetches s2).
    change (sends (emit Closed s2)) with (sends s2).
    cbn [emit currentAuthToken tokenExpiryTime seenJobIds browser trace].
    repeat split; try congruence.
    intros _. eexists. reflexivity.
Qed.

(** A start in a friendly world leaves the process running; where the
    browser cannot be launched the process exits at once. *)
Lemma startMonitoring_runs_or_exits_witness :
  (exists s',
      startMonitoring as_is exp_only auto_token_monitor (calm [J1]) 8 fresh
      = Ret Running s'
      /\ launches s' = 1%nat
      /\ browser s' = true
      /\ equipped s')
  /\ startMonitoring as_is exp_only auto_token_monitor no_browser 8 fresh
     = Ret (Exited 1) (emit (Launched false) fresh).
Proof.
  split; [|reflexivity].
  pose proof (startMonitoring_runs_or_exits as_is exp_only auto_token_monitor
                (calm [J1]) 8 fresh) as H.
  assert (E : exists s',
    startMonitoring as_is exp_only auto_token_monitor (calm [J1]) 8 fresh
    = Ret Running s') by (vm_compute; eexists; reflexivity).
  destruct E as (s' & E). rewrite E in H.
  destruct H as (Hl & Hb & Ht & _).
  exists s'. repeat split; trivial.
Defined.

(** ** The Telegram credentials *)

Section Trim.
Variable white : ascii -> bool.

Lemma trimStart_shape (s : string) :
  trimStart white s = ""
  \/ exists c rest, trimStart white s = String c rest /\ white c = false.
Proof.
  induction s as [|c s IH]; [left; reflexivity|]. simpl.
  destruct (white c) eqn:Hc; [exact IH|].
  right. exists c, s. split; trivial.
Qed.

Lemma trimEnd_head (c : ascii) (rest : string) :
  white c = false ->
  exists kept, trimEnd white (String c rest) = String c kept.
Proof.
  intros Hc. simpl. rewrite Hc.
  destruct (trimEnd white rest); eexists; reflexivity.
Qed.

Lemma trimEnd_idempotent (s : string) :
  trimEnd white (trimEnd white s) = trimEnd white s.
Proof.
  induction s as [|c s IH]; [reflexivity|]. simpl.
  destruct (trimEnd white s) as [|d kept] eqn:Hk.
  - destruct (white c) eqn:Hc; [reflexivity|]. simpl. rewrite Hc. reflexivity.
  - simpl in *. rewrite IH. reflexivity.
Qed.

(** Trimming what is trimmed changes nothing. *)
Lemma String_trim_idempotent (s : string) :
  String_trim white (String_trim white s) = String_trim white s.
Proof.
  unfold String_trim.
  destruct (trimStart_shape s) as [->|(c & rest & -> & Hc)]; [reflexivity|].
  destruct (trimEnd_head c rest Hc) as (kept & Hk). rewrite Hk.
  cbn [trimStart]. rewrite Hc, <- Hk. apply trimEnd_idempotent.
Qed.

Lemma ask_Some (input : list string) (line : string) (rest : list string) :
  ask white input = Some (line, rest) ->
  exists blanks,
    input = (blanks ++ line :: rest)%list
    /\ Forall (fun l => blank white l = true) blanks
    /\ blank white line = false.
Proof.
  induction input as [|l input IH]; [discriminate|]. simpl.
  destruct (blank white l) eqn:Hl.
  - intros H. destruct (IH H) as (blanks & -> & Hb & Hline).
    exists (l :: blanks). repeat split; trivial. constructor; assumption.
  - intros H. inversion H; subst. exists []. repeat split; trivial.
Qed.

End Trim.

(** X11. The credentials typed on the terminal are asked for until they are
    not blank: [promptTelegramCredentials] skips the blank lines, takes the
    first line that is not blank as the bot token and, after it, the next
    line that is not blank as the channel. What it returns is trimmed and
    not empty, so that [sendTelegramAlert] never finds the configuration
    missing. *)
Theorem prompted_credentials_are_not_blank (white : ascii -> bool)
    (input : list string) (config : Config.t) :
  promptTelegramCredentials white input = Some config ->
  (exists blanks1 token blanks2 channel rest,
      input = (blanks1 ++ token :: blanks2 ++ channel :: rest)%list
      /\ Forall (fun l => blank white l = true) blanks1
      /\ Forall (fun l => blank white l = true) blanks2
      /\ Config.TELEGRAM_BOT_TOKEN config = String_trim white token
      /\ Config.TELEGRAM_CHANNEL_ID config = String_trim white channel)
  /\ String_trim white (Config.TELEGRAM_BOT_TOKEN config)
     = Config.TELEGRAM_BOT_TOKEN config
  /\ String_trim white (Config.TELEGRAM_CHANNEL_ID config)
     = Config.TELEGRAM_CHANNEL_ID config
  /\ forall world,
       String.eqb (TELEGRAM_BOT_TOKEN (with_credentials config world)) ""
       || String.eqb (TELEGRAM_CHANNEL_ID (with_credentials config world)) ""
       = false.
Proof.
  unfold promptTelegramCredentials.
  destruct (ask white input) as [[token rest1]|] eqn:H1; [|discriminate].
  destruct (ask white rest1) as [[channel rest2]|] eqn:H2; [|discriminate].
  intros E. inversion E; subst config. clear E. cbn.
  apply ask_Some in H1 as (blanks1 & -> & Hb1 & Ht).
  apply ask_Some in H2 as (blanks2 & -> & Hb2 & Hc).
  split; [|split; [|split]].
  - exists blanks1, token, blanks2, channel, rest2. repeat split; trivial.
  - apply String_trim_idempotent.
  - apply String_trim_idempotent.
  - intros _. unfold blank in Ht, Hc. rewrite Ht, Hc. reflexivity.
Qed.

(** An empty line and a line of spaces before the token, an empty line
    before the channel. *)
Lemma prompted_credentials_are_not_blank_witness :
  promptTelegramCredentials ascii_white
    [""; "   "; " 123:abc "; ""; "@channel"; "more"]
  = Some {| Config.TELEGRAM_BOT_TOKEN := "123:abc";
            Config.TELEGRAM_CHANNEL_ID := "@channel" |}
  /\ String_trim ascii_white "123:abc" = "123:abc".
Proof.
  assert (E : promptTelegramCredentials ascii_white
                [""; "   "; " 123:abc "; ""; "@channel"; "more"]
              = Some {| Config.TELEGRAM_BOT_TOKEN := "123:abc";
                        Config.TELEGRAM_CHANNEL_ID := "@channel" |})
    by reflexivity.
  split; [exact E|].
  destruct (prompted_credentials_are_not_blank ascii_white _ _ E)
    as (_ & H & _).
  exact H.
Defined.

(** X12. Variables of the environment are taken without that check: when
    both are set they are trimmed and returned, so that a variable made of
    white space only yields an empty credential, with which
    [sendTelegramAlert] returns at once, sending nothing. *)
Theorem blank_variables_silence_the_alerts (white : ascii -> bool)
    (token channel : string) (input : list string) :
  is_set (Some token) = true ->
  is_set (Some channel) = true ->
  blank white token = true \/ blank white channel = true ->
  exists config,
    setupTelegramCredentials white (Some token) (Some channel) input
    = Some config
    /\ forall v world fuel jobs s,
         sendTelegramAlert v (with_credentials config world) fuel jobs s
         = Ret tt s.
Proof.
  intros Ht Hc Hblank. unfold setupTelegramCredentials. rewrite Ht, Hc.
  cbn [andb]. eexists. split; [reflexivity|].
  intros v world fuel jobs s. unfold sendTelegramAlert, try_catch. cbn.
  unfold blank in Hblank.
  destruct Hblank as [-> | ->]; [reflexivity|].
  rewrite orb_true_r. reflexivity.
Qed.

(** A bot token of one space. *)
Lemma blank_variables_silence_the_alerts_witness :
  exists config,
    setupTelegramCredentials ascii_white (Some " ") (Some "@channel") []
    = Some config
    /\ forall v world fuel jobs s,
         sendTelegramAlert v (with_credentials config world) fuel jobs s
         = Ret tt s.
Proof.
  apply blank_variables_silence_the_alerts;
    [reflexivity|reflexivity|left; reflexivity].
Defined.

(** ** Start-up of the modular monitor *)

(** [ensureValidToken] fails only after [getValidToken] has given up. *)
Lemma ensureValidToken_fails (env : Env) (s : State) :
  match TokenExtractor.ensureValidToken env s with
  | Ret _ _ => True
  | Throw e s' =>
      e = FailedToObtainToken
      /\ launches s' = (launches s + 3)%nat
      /\ fetches s' = fetches s
      /\ sends s' = sends s
      /\ seenJobIds s' = seenJobIds s
      /\ currentAuthToken s' = currentAuthToken s
  | OutOfFuel => False
  end.
Proof.
  unfold TokenExtractor.ensureValidToken. rewrite try_rethrow.
  assert (Hrenew : forall s0,
    launches s0 = launches s -> fetches s0 = fetches s ->
    sends s0 = sends s -> seenJobIds s0 = seenJobIds s ->
    currentAuthToken s0 = currentAuthToken s ->
    match
      (token <- TokenExtractor.getValidToken env 3 ;;
       modify (set_token (Some token)) ;; ret token) s0
    with
    | Ret _ _ => True
    | Throw e s' =>
        e = FailedToObtainToken
        /\ launches s' = (launches s + 3)%nat
        /\ fetches s' = fetches s
        /\ sends s' = sends s
        /\ seenJobIds s' = seenJobIds s
        /\ currentAuthToken s' = currentAuthToken s
    | OutOfFuel => False
    end).
  { intros s0 Hl Hf Hs Hseen Ht. unfold bind, TokenExtractor.getValidToken.
    pose proof (getValidToken_loop_cost env 3 4 0 s0) as H3.
    destruct (TokenExtractor.getValidToken_loop env 4 0 3 s0)
      as [t s1|e s1|].
    - exact I.
    - destruct H3 as (He & Hatt & Hl3); [lia|lia|].
      destruct Hatt as (_ & _ & _ & _ & A5 & A6 & A7 & _ & A9).
      repeat split; try congruence. rewrite Hl3. simpl. lia.
    - apply H3; lia. }
  unfold bind at 1, gets.
  destruct (currentAuthToken s) as [current|] eqn:Hcur;
    [|apply Hrenew; trivial].
  destruct (String.eqb current ""); [apply Hrenew; trivial|].
  unfold bind at 1, TokenExtractor.validateTokenWithServer.
  destruct (probe env (probes s)) as [|status []];
    [apply Hrenew; trivial|].
  destruct (status =? 200); [exact I|apply Hrenew; trivial].
Qed.

(** X13. [main] of the modular monitor exits with code 1, having done
    nothing, when one of the two variables of the environment is missing or
    empty. Otherwise it leaves the process running with a stored token
    whose verification, answered 200, is the last thing that happened, or
    it exits with code 1 after [getValidToken] has launched three browsers
    in vain; it has then sent no listings request and no message. *)
Theorem modular_main_runs_or_exits (white : ascii -> bool)
    (TELEGRAM_BOT_TOKEN TELEGRAM_CHANNEL_ID : option string) (world : Env)
    (s : State) :
  match
    ModularMonitor.main white TELEGRAM_BOT_TOKEN TELEGRAM_CHANNEL_ID world s
  with
  | Ret Running s' =>
      is_set TELEGRAM_BOT_TOKEN && is_set TELEGRAM_CHANNEL_ID = true
      /\ exists token older,
           currentAuthToken s' = Some token
           /\ trace s' = Probed token (Reply 200 tt) :: older
  | Ret (Exited code) s' =>
      code = 1
      /\ (is_set TELEGRAM_BOT_TOKEN && is_set TELEGRAM_CHANNEL_ID = false ->
          s' = s)
      /\ (is_set TELEGRAM_BOT_TOKEN && is_set TELEGRAM_CHANNEL_ID = true ->
          launches s' = (launches s + 3)%nat
          /\ fetches s' = fetches s
          /\ sends s' = sends s)
  | Throw _ _ => False
  | OutOfFuel => False
  end.
Proof.
  unfold ModularMonitor.main, ModularMonitor.setupTelegramCredentials.
  assert (Hexit : forall b, b = false ->
    1 = 1 /\ (b = false -> s = s)
    /\ (b = true ->
        launches s = (launches s + 3)%nat /\ fetches s = fetches s
        /\ sends s = sends s)).
  { intros b ->. repeat split; discriminate. }
  destruct TELEGRAM_BOT_TOKEN as [token|];
    [|apply (Hexit (is_set None && _)); reflexivity].
  destruct TELEGRAM_CHANNEL_ID as [channel|];
    [|apply (Hexit (_ && is_set None)); apply andb_false_r].
  destruct (is_set (Some token) && is_set (Some channel)) eqn:Hset;
    [|apply (Hexit false); reflexivity].
  unfold try_catch, bind.
  set (env := with_credentials _ world).
  pose proof (ensureValidToken_verified silent silent_Launched eq_refl
                silent_Visited silent_Waited silent_Probed env s) as Hv.
  pose proof (ensureValidToken_fails env s) as Hf.
  destruct (TokenExtractor.ensureValidToken env s) as [t s'|e s'|];
    [| |contradiction].
  - mred. split; [reflexivity|].
    destruct Hv as (Ht & older & Htrace & _). exists t, older. split; trivial.
  - mred. destruct Hf as (_ & Hl & Hfe & Hs & _).
    repeat split; trivial; discriminate.
Qed.

(** With both variables set and a friendly world the modular monitor
    starts; without the channel it exits at once. *)
Lemma modular_main_runs_or_exits_witness :
  (exists s' older,
      ModularMonitor.main ascii_white (Some "123:abc") (Some "@channel")
        (calm [J1]) fresh = Ret Running s'
      /\ currentAuthToken s' = Some "eyJ"
      /\ trace s' = Probed "eyJ" (Reply 200 tt) :: older)
  /\ ModularMonitor.main ascii_white (Some "123:abc") None (calm [J1]) fresh
     = Ret (Exited 1) fresh.
Proof.
  split; [|reflexivity].
  pose proof (modular_main_runs_or_exits ascii_white (Some "123:abc")
                (Some "@channel") (calm [J1]) fresh) as H.
  assert (E : exists s',
    ModularMonitor.main ascii_white (Some "123:abc") (Some "@channel")
      (calm [J1]) fresh = Ret Running s'
    /\ currentAuthToken s' = Some "eyJ")
    by (vm_compute; eexists; split; reflexivity).
  destruct E as (s' & E & Htoken). rewrite E in H.
  destruct H as (_ & token & older & Ht & Htrace).
  assert (token = "eyJ") by congruence. subst token.
  exists s', older. repeat split; trivial.
Defined.

(** ** A token whose expiry cannot be read *)

(** X14. When the claims of the token found on the page cannot be decoded,
    or give no [exp] (or the value 0), the renewal installs the token
    without testing it and with an assumed expiry of 59 minutes after the
    settle wait; [isTokenExpired] then turns true once more than 59 minutes
    less the margin have passed. *)
Theorem token_without_expiry_is_trusted_59_minutes
    (base64_utf8 : string -> string) (JSON_parse : string -> option json)
    (v : Variant) (env : Env) (s : State) (token : string) (decoded : json) :
  browser s = true ->
  evaluate (visit env (visits s)) = Some token ->
  String.eqb token "" = false ->
  decodeJWT base64_utf8 JSON_parse token = Normal decoded ->
  truthy (Some decoded) && truthy (field "exp" decoded) = false ->
  exists s',
    refreshAuthToken base64_utf8 JSON_parse v env s = Ret token s'
    /\ currentAuthToken s' = Some token
    /\ tokenExpiryTime s' = Some (clock s + settle_ms v + 59 * 60 * 1000)
    /\ clock s' = clock s + settle_ms v
    /\ probes s' = probes s
    /\ visits s' = S (visits s)
    /\ forall ms,
         isTokenExpired v (advance ms s') = true <->
         59 * 60 * 1000 - refresh_margin v < ms.
Proof.
  intros Hb Hev Hne Hdec Hexp.
  unfold refreshAuthToken, extractAuthToken.
  cbn [Nat.sub maxRetries extractAuthToken_from].
  unfold try_catch, bind, gets, goto, wait, modify.
  destruct (visit env (visits s)) as [|ls ss] eqn:Hv; [discriminate|].
  repeat (progress (mred; rewrite ?Hb, ?Hv, ?Hev, ?Hne, ?Hdec, ?Hexp)).
  unfold install, modify.
  eexists. split; [reflexivity|].
  repeat split; trivial.
  - unfold isTokenExpired.
    cbn [currentAuthToken tokenExpiryTime clock set_expiry set_token emit
         advance].
    rewrite Hne. intros H. apply Z.ltb_lt in H. lia.
  - unfold isTokenExpired.
    cbn [currentAuthToken tokenExpiryTime clock set_expiry set_token emit
         advance].
    rewrite Hne. intros H. apply Z.ltb_lt. lia.
Qed.

(** The page holds the token [eyJ], which has no claims: installed at
    second 15 with an expiry at 59 minutes 15 seconds. *)
Lemma token_without_expiry_is_trusted_59_minutes_witness :
  exists s',
    refreshAuthToken as_is exp_only auto_token_monitor (calm [J1]) (steady [])
    = Ret "eyJ" s'
    /\ tokenExpiryTime s' = Some (15000 + 59 * 60 * 1000)
    /\ probes s' = probes (steady []).
Proof.
  destruct (token_without_expiry_is_trusted_59_minutes as_is exp_only
              auto_token_monitor (calm [J1]) (steady []) "eyJ" JNull
              eq_refl eq_refl eq_refl eq_refl eq_refl)
    as (s' & E & _ & He & _ & Hp & _).
  exists s'. split; [exact E|]. split; [exact He|exact Hp].
Defined.

(** ** The health report and the expiry guard *)

(** X15. The minutes until expiry that the health report and the fetch
    print agree with the expiry guard: with a token stored, the guard lets
    the token be used exactly when the figure printed is not below the
    minutes of the margin (10 in auto-token-monitor.js, 5 in the copies);
    the figure is 'Unknown' only when the guard asks for a renewal. *)
Theorem health_report_agrees_with_guard (v : Variant) (s : State)
    (token : string) (minutes : Z) :
  refresh_margin v = minutes * 60000 ->
  currentAuthToken s = Some token ->
  String.eqb token "" = false ->
  (isTokenExpired v s = false <->
   exists left, timeUntilExpiry s = Some left /\ minutes <= left).
Proof.
  intros Hmargin Htoken Hne.
  unfold isTokenExpired, timeUntilExpiry. rewrite Htoken, Hne, Hmargin.
  destruct (tokenExpiryTime s) as [expiry|]; cbn [option_map].
  - rewrite Z.ltb_ge. split.
    + intros H. eexists. split; [reflexivity|].
      apply Z.div_le_lower_bound; lia.
    + intros (left & E & Hle). inversion E; subst left.
      pose proof (Z.mul_div_le (expiry - clock s) 60000 ltac:(lia)). lia.
  - split; [discriminate|]. intros (left & E & _). discriminate.
Qed.

(** In steady state the token is good for 60 minutes and the guard of
    auto-token-monitor.js, whose margin is 10 minutes, lets it be used. *)
Lemma health_report_agrees_with_guard_witness :
  isTokenExpired auto_token_monitor (steady []) = false <->
  exists left, timeUntilExpiry (steady []) = Some left /\ 10 <= left.
Proof.
  apply (health_report_agrees_with_guard auto_token_monitor (steady [])
           "eyJ.3600.sig" 10); reflexivity.
Defined.

(** ** A rejected request in the modular monitor *)

Section Unverified.
Variable env : Env.

(** While no verification is answered 200, a pass through the loop of
    [getValidToken] yields no token. *)
Lemma attempt_unverified (b : bool) (s : State) :
  (forall n, (probes s <= n)%nat -> probe env n <> Reply 200 tt) ->
  match
    try_catch
      (TokenExtractor.initializeFreshBrowser env ;;
       token <- TokenExtractor.extractAuthToken env ;;
       validation <- TokenExtractor.validateTokenWithServer env token ;;
       match validation with
       | Some valid => ret (Some valid)
       | None => (if b then wait 10000 else ret tt) ;; ret None
       end)
      (fun _ => (if b then wait 10000 else ret tt) ;; ret None) s
  with
  | Ret None s1 => (probes s <= probes s1)%nat
  | _ => False
  end.
Proof.
  intros Hnever.
  unfold try_catch, bind, TokenExtractor.initializeFreshBrowser,
    TokenExtractor.extractAuthToken, try_catch, bind, goto, wait, modify,
    TokenExtractor.validateTokenWithServer.
  destruct (browser s) eqn:Hb; destruct b;
    repeat (mred; cbn [browser set_browser emit negb];
            match goal with
            | |- context [launch_ok env ?n] => destruct (launch_ok env n)
            | |- context [visit env ?n] =>
                destruct (visit env n) as [|ls ss]
            | |- context [evaluate ?page] =>
                destruct (evaluate page) as [token|]
            | |- context [String.eqb ?token ""] =>
                destruct (String.eqb token "")
            | |- context [probe env ?n] =>
                let E := fresh "E" in
                destruct (probe env n) as [|status []] eqn:E
            | |- context [?status =? 200] =>
                destruct (Z.eqb_spec status 200); [subst status|]
            end);
    mred; unfold probes, count in *; cbn in *; try lia;
    match goal with
    | E : probe env ?n = Reply 200 tt |- _ => exact (Hnever n (le_n _) E)
    end.
Qed.

Lemma getValidToken_loop_unverified maxRetries fuel : forall attempts s,
  (forall n, (probes s <= n)%nat -> probe env n <> Reply 200 tt) ->
  match TokenExtractor.getValidToken_loop env fuel attempts maxRetries s with
  | Ret _ _ => False
  | _ => True
  end.
Proof.
  induction fuel as [|fuel IH]; intros attempts s Hnever; [exact I|].
  cbn [TokenExtractor.getValidToken_loop].
  destruct (attempts <? maxRetries)%nat; [|exact I].
  cbv zeta. unfold bind at 1.
  pose proof (attempt_unverified (S attempts <? maxRetries)%nat s Hnever)
    as Hone.
  match type of Hone with match ?m with _ => _ end =>
    destruct m as [[token|] s1|e s1|] end; try contradiction.
  apply IH. intros n Hn. apply Hnever. lia.
Qed.

End Unverified.

(** X16. In the modular monitor a listings request answered 401 or 403
    makes the cycle forget the stored token before it asks for a new one.
    When no token can be verified any more, [getValidToken] gives up after
    three launches and the cycle ends with no jobs and with no token
    stored. *)
Theorem modular_rejection_leaves_no_token (env : Env) (fuel : nat)
    (s : State) (token : string) (s1 : State) (status : Z)
    (body : ListingsBody) :
  TokenExtractor.ensureValidToken env s = Ret token s1 ->
  listings env (fetches s1) = Reply status body ->
  status = 401 \/ status = 403 ->
  (forall n, (probes s1 <= n)%nat -> probe env n <> Reply 200 tt) ->
  exists s',
    TokenExtractor.fetchAmazonJobs env (S fuel) s = Ret [] s'
    /\ currentAuthToken s' = None
    /\ fetches s' = S (fetches s1)
    /\ launches s' = (launches s1 + 3)%nat.
Proof.
  intros Hens Hlist Hstatus Hnever.
  cbn [TokenExtractor.fetchAmazonJobs]. unfold try_catch.
  unfold bind at 1. rewrite Hens.
  unfold bind at 1, postListings. rewrite Hlist. cbv beta iota zeta.
  assert (Hbranch : (status =? 200) = false
                    /\ (status =? 401) || (status =? 403) = true)
    by (destruct Hstatus as [-> | ->]; split; reflexivity).
  destruct Hbranch as (-> & ->).
  unfold bind at 1, modify. unfold bind at 1.
  set (s3 := set_token None (emit _ s1)).
  assert (H3 : currentAuthToken s3 = None) by reflexivity.
  assert (Hp3 : probes s3 = probes s1) by reflexivity.
  assert (Hf3 : fetches s3 = S (fetches s1)) by reflexivity.
  assert (Hl3 : launches s3 = launches s1) by reflexivity.
  clearbody s3.
  unfold TokenExtractor.ensureValidToken. rewrite try_rethrow.
  unfold bind at 1, gets. rewrite H3.
  unfold bind at 1, TokenExtractor.getValidToken.
  pose proof (getValidToken_loop_cost env 3 4 0 s3) as Hcost.
  pose proof (getValidToken_loop_unverified env 3 4 0 s3) as Hun.
  destruct (TokenExtractor.getValidToken_loop env 4 0 3 s3) as [t s4|e s4|].
  - exfalso. apply Hun. intros n Hn. apply Hnever. lia.
  - destruct Hcost as (_ & Hatt & Hl4); [lia|lia|].
    destruct Hatt as (_ & _ & _ & _ & A5 & _ & A7 & _).
    exists s4. split; [reflexivity|].
    split; [congruence|]. split; [congruence|].
    rewrite Hl4, Hl3. reflexivity.
  - exfalso. apply Hcost; lia.
Qed.

(** The token is revoked right after it was verified. *)
Lemma modular_rejection_leaves_no_token_witness :
  exists s',
    TokenExtractor.fetchAmazonJobs revoked 1 (steady []) = Ret [] s'
    /\ currentAuthToken s' = None
    /\ fetches s' = 1%nat
    /\ launches s' = 3%nat.
Proof.
  apply (modular_rejection_leaves_no_token revoked 0 (steady [])
           "eyJ.3600.sig"
           (emit (Probed "eyJ.3600.sig" (Reply 200 tt)) (steady []))
           401 Unparsable).
  - reflexivity.
  - reflexivity.
  - left. reflexivity.
  - intros n Hn. destruct n as [|n]; [cbn in Hn; lia|discriminate].
Defined.

(** ** The copy that does not look at the expiry *)

(** X17. In the copy for the US site, whose [extractAuthToken] has no
    expiry guard, a renewal is one visit of the page. When the claims of
    the token found there give a non-zero [exp] and an [iat] that are valid
    dates, the token is installed with that expiry, be it in the past;
    when the expiry is closer than the margin, [isTokenExpired] is true
    again as soon as the renewal is over. When the claims give such an
    [exp] but no [iat], printing the time of issue throws a RangeError: the
    renewal fails and neither the token nor its expiry is stored. *)
Theorem unguarded_renewal_installs_any_token
    (base64_utf8 : string -> string) (JSON_parse : string -> option json)
    (v : Variant) (env : Env) (s : State) (token : string) (decoded : json)
    (exp : Z) :
  let s1 := settled v (visit env (visits s)) s in
  guards_expiry v = false ->
  offers base64_utf8 JSON_parse env s token decoded ->
  numeric_date "exp" decoded exp ->
  exp <> 0 ->
  (forall iat,
      numeric_date "iat" decoded iat ->
      exists s',
        refreshAuthToken base64_utf8 JSON_parse v env s = Ret token s'
        /\ currentAuthToken s' = Some token
        /\ tokenExpiryTime s' = Some (exp * 1000)
        /\ clock s' = clock s + settle_ms v
        /\ visits s' = S (visits s)
        /\ probes s' = S (probes s)
        /\ (isTokenExpired v s' = true <->
            exp * 1000 - refresh_margin v < clock s + settle_ms v))
  /\ (field "iat" decoded = None ->
      refreshAuthToken base64_utf8 JSON_parse v env s = Throw RangeError s1
      /\ currentAuthToken s1 = currentAuthToken s
      /\ tokenExpiryTime s1 = tokenExpiryTime s).
Proof.
  intros s1 Hguard Hoffers Hexp Hnz.
  assert (Hrenewal :
    refreshAuthToken base64_utf8 JSON_parse v env s
    = match date_claim "iat" decoded with
      | Some _ =>
          (install token (exp * 1000) ;; testToken env token ;; ret token) s1
      | None => Throw RangeError s1
      end).
  { unfold refreshAuthToken. rewrite try_rethrow.
    unfold bind at 1, gets.
    destruct Hoffers as (Hb & Hrest). rewrite Hb. cbn [negb].
    unfold bind at 1. mred.
    unfold extractAuthToken.
    change (S maxRetries - 0)%nat with (S maxRetries).
    rewrite (attempt_reads_expiry base64_utf8 JSON_parse v env maxRetries 0 s
               token decoded exp (conj Hb Hrest) Hexp Hnz).
    cbv zeta. rewrite Hguard.
    destruct (date_claim "iat" decoded); reflexivity. }
  split.
  - intros iat Hiat.
    rewrite Hrenewal, (numeric_date_claim _ _ _ Hiat).
    destruct Hoffers as (_ & _ & Hne & _).
    unfold bind, install, modify. rewrite testToken_returns.
    eexists. split; [reflexivity|].
    repeat split; trivial.
    + unfold isTokenExpired.
      cbn [currentAuthToken tokenExpiryTime clock set_expiry set_token emit
           advance settled s1].
      rewrite Hne. intros H. apply Z.ltb_lt in H. lia.
    + unfold isTokenExpired.
      cbn [currentAuthToken tokenExpiryTime clock set_expiry set_token emit
           advance settled s1].
      rewrite Hne. intros H. apply Z.ltb_lt. lia.
  - intros Hiat. split; [|split; reflexivity].
    rewrite Hrenewal. unfold date_claim. rewrite Hiat. reflexivity.
Qed.

(** The page holds a token that expires at second 1; the renewal started
    at instant 0 installs it at second 10. *)
Lemma unguarded_renewal_installs_any_token_witness :
  exists s',
    refreshAuthToken as_is exp_only us_monitor
      (with_visit (fun _ => Loaded [("sessionToken", "eyJ.1.sig")] [])
         (calm [J1]))
      (steady []) = Ret "eyJ.1.sig" s'
    /\ tokenExpiryTime s' = Some 1000
    /\ clock s' = 10000
    /\ isTokenExpired us_monitor s' = true.
Proof.
  destruct (unguarded_renewal_installs_any_token as_is exp_only us_monitor
              (with_visit (fun _ => Loaded [("sessionToken", "eyJ.1.sig")] [])
                 (calm [J1]))
              (steady []) "eyJ.1.sig"
              (JObject [("exp", JNumber 1); ("iat", JNumber (-3599))]) 1)
    as (Hinstalled & _).
  - reflexivity.
  - repeat split.
  - split; [reflexivity|vm_compute; discriminate].
  - discriminate.
  - destruct (Hinstalled (-3599)) as (s' & E & _ & He & Hc & _ & _ & Hexpired).
    + split; [reflexivity|vm_compute; discriminate].
    + exists s'. split; [exact E|]. split; [exact He|]. split; [exact Hc|].
      apply Hexpired. vm_compute. reflexivity.
Defined.

(** ** A token without a time of issue *)

(** X18. A token whose claims give an expiry but no [iat] cannot be
    installed: once the expiry has passed the guard, printing the time of
    issue throws a RangeError, the renewal fails, and neither the token nor
    its expiry is stored. *)
Theorem token_without_iat_is_refused
    (base64_utf8 : string -> string) (JSON_parse : string -> option json)
    (v : Variant) (env : Env) (s : State) (token : string) (decoded : json)
    (exp : Z) :
  browser s = true ->
  evaluate (visit env (visits s)) = Some token ->
  String.eqb token "" = false ->
  decodeJWT base64_utf8 JSON_parse token = Normal decoded ->
  field "exp" decoded = Some (JNumber exp) ->
  field "iat" decoded = None ->
  5 * 60 * 1000 <= exp * 1000 - (clock s + settle_ms v) ->
  0 < exp * 1000 <= 8640000000000000 ->
  refreshAuthToken base64_utf8 JSON_parse v env s
  = Throw RangeError (settled v (visit env (visits s)) s)
  /\ currentAuthToken (settled v (visit env (visits s)) s)
     = currentAuthToken s
  /\ tokenExpiryTime (settled v (visit env (visits s)) s)
     = tokenExpiryTime s.
Proof.
  intros Hb Hev Hne Hdec Hexp Hiat Hleft Hrange.
  split; [|split; reflexivity].
  assert (Hdecoded : truthy (Some decoded) = true).
  { destruct decoded; try discriminate Hexp. reflexivity. }
  assert (Hnz : truthy (Some (JNumber exp)) = true).
  { cbn [truthy]. apply negb_true_iff, Z.eqb_neq. lia. }
  assert (Hdate : date_claim "exp" decoded = Some (exp * 1000)).
  { unfold date_claim. rewrite Hexp. cbn [number option_map date].
    assert (H : (Z.abs (exp * 1000) <=? 8640000000000000) = true)
      by (apply Z.leb_le; lia).
    rewrite H. reflexivity. }
  assert (Hissue : date_claim "iat" decoded = None).
  { unfold date_claim. rewrite Hiat. reflexivity. }
  unfold refreshAuthToken, extractAuthToken.
  cbn [Nat.sub maxRetries extractAuthToken_from].
  unfold try_catch, bind, gets, goto, wait, modify.
  destruct (visit env (visits s)) as [|ls ss] eqn:Hv; [discriminate|].
  repeat (progress (mred;
    rewrite ?Hb, ?Hv, ?Hev, ?Hne, ?Hdec, ?Hdecoded, ?Hexp, ?Hnz, ?Hdate,
      ?Hissue)).
  cbn [andb option_map nan_leb nan_ltb clock emit advance].
  assert (H1 : (exp * 1000 - (clock s + settle_ms v) <=? 0) = false)
    by (apply Z.leb_gt; lia).
  assert (H2 : (exp * 1000 - (clock s + settle_ms v) <? 5 * 60 * 1000)
               = false) by (apply Z.ltb_ge; lia).
  rewrite H1, H2. destruct (guards_expiry v); reflexivity.
Qed.

(** A token good for an hour, without [iat], found at instant 0. *)
Lemma token_without_iat_is_refused_witness :
  refreshAuthToken as_is exp_without_iat auto_token_monitor hourly (steady [])
  = Throw RangeError
      (settled auto_token_monitor (visit hourly (visits (steady [])))
         (steady []))
  /\ currentAuthToken
       (settled auto_token_monitor (visit hourly (visits (steady [])))
          (steady []))
     = currentAuthToken (steady [])
  /\ tokenExpiryTime
       (settled auto_token_monitor (visit hourly (visits (steady [])))
          (steady []))
     = tokenExpiryTime (steady []).
Proof.
  apply (token_without_iat_is_refused as_is exp_without_iat
           auto_token_monitor hourly (steady []) "eyJ.3600.sig"
           (JObject [("exp", JNumber 3600)]) 3600);
    try reflexivity.
  - vm_compute. discriminate.
  - split; [reflexivity|vm_compute; discriminate].
Defined.

(** ** A Telegram that only answers 429 *)

Lemma sendLoop_never_gives_up (v : Variant) (env : Env) (jobs : list Job)
    (i : nat) (job : Job) :
  nth_error jobs i = Some job ->
  (i < MAX_JOBS_PER_ALERT v)%nat ->
  (forall n, exists body, telegram env n = Reply 429 body) ->
  forall fuel s, sendLoop v env fuel jobs i s = OutOfFuel.
Proof.
  intros Hnth Hcap Hflood. apply Nat.ltb_lt in Hcap.
  induction fuel as [|fuel IH]; intros s; [reflexivity|].
  cbn [sendLoop]. rewrite Hnth, Hcap.
  unfold bind at 1, postMessage.
  destruct (Hflood (sends s)) as (body & ->). cbv beta iota zeta.
  cbn [Z.eqb Pos.eqb]. unfold bind, wait, modify. apply IH.
Qed.

(** X19. The dispatcher has no limit on resending: while Telegram answers
    every request with 429, [sendTelegramAlert] called with credentials and
    at least one job never returns, and neither does the poll cycle that
    called it. *)
Theorem dispatcher_never_gives_up_on_429 (v : Variant) (env : Env)
    (job : Job) (jobs : list Job) :
  String.eqb (TELEGRAM_BOT_TOKEN env) "" = false ->
  String.eqb (TELEGRAM_CHANNEL_ID env) "" = false ->
  (0 < MAX_JOBS_PER_ALERT v)%nat ->
  (forall n, exists body, telegram env n = Reply 429 body) ->
  forall fuel s, sendTelegramAlert v env fuel (job :: jobs) s = OutOfFuel.
Proof.
  intros Hbot Hchannel Hcap Hflood fuel s.
  unfold sendTelegramAlert, try_catch. rewrite Hbot, Hchannel. cbn [orb].
  rewrite (sendLoop_never_gives_up v env (job :: jobs) 0 job eq_refl Hcap
             Hflood).
  reflexivity.
Qed.

(** A thousand rounds do not bring the alert about J1 to an end. *)
Lemma dispatcher_never_gives_up_on_429_witness :
  sendTelegramAlert auto_token_monitor flooded 1000 [J1] (steady [])
  = OutOfFuel.
Proof.
  apply (dispatcher_never_gives_up_on_429 auto_token_monitor flooded J1 []);
    [reflexivity|reflexivity|cbn; lia|].
  intros n. exists TgUnparsable. reflexivity.
Defined.

(** ** A cycle with a usable token *)

Section UsableToken.
Variable base64_utf8 : string -> string.
Variable JSON_parse : string -> option json.
Variable v : Variant.
Variable env : Env.

Lemma sendLoop_dispatching fuel jobs : forall i,
  emits dispatching (sendLoop v env fuel jobs i).
Proof.
  induction fuel as [|fuel IH]; intros i; cbn [sendLoop]; emitting;
    first [apply postMessage_emits; intros; exact I
          |apply wait_emits; exact I].
Qed.

Lemma sendLoop_keeps_credential fuel jobs : forall i,
  keeps credential (sendLoop v env fuel jobs i).
Proof.
  assert (Hwait : forall ms, keeps credential (wait ms))
    by (intros ms s; reflexivity).
  assert (Hpost : forall job, keeps credential (postMessage env job)).
  { intros job s. unfold postMessage.
    destruct (telegram env (sends s)); reflexivity. }
  induction fuel as [|fuel IH]; intros i; cbn [sendLoop];
    [apply keeps_out|].
  destruct (nth_error jobs i) as [job|]; [|apply keeps_ret].
  destruct (i <? MAX_JOBS_PER_ALERT v)%nat; [|apply keeps_ret].
  apply keeps_bind; [apply Hpost|intros [status body]].
  destruct (status =? 429).
  - apply keeps_bind; [apply Hwait|intros _; apply IH].
  - destruct (negb (ok status)); [apply IH|].
    destruct body; [apply keeps_throw|].
    apply keeps_bind; [|intros _; apply IH].
    destruct (_ && _); [apply Hwait|apply keeps_ret].
Qed.

(** With a usable token and an answer other than 401, the fetch is one
    request and nothing else. *)
Lemma fetchAmazonJobs_once fuel s :
  isTokenExpired v s = false ->
  (forall body, listings env (fetches s) <> Reply 401 body) ->
  exists jobs token,
    currentAuthToken s = Some token
    /\ fetchAmazonJobs base64_utf8 JSON_parse v env (S fuel) s
       = Ret jobs (emit (Fetched token (clock s) (tokenExpiryTime s)
                           (listings env (fetches s))) s).
Proof.
  intros Hfresh Hnot.
  destruct (proj1 (isTokenExpired_false_iff v s) Hfresh)
    as (token & expiry & Htoken & Hne & _).
  cbn [fetchAmazonJobs]. rewrite guarded_cycle, Hfresh.
  unfold try_catch, bind at 1. unfold gets. rewrite Htoken, Hne.
  unfold bind at 1, postListings.
  destruct (listings env (fetches s)) as [|status body] eqn:Hreply.
  { exists [], token. split; reflexivity. }
  cbv beta iota zeta.
  destruct (ok status) eqn:Hok; cbn [negb].
  - destruct body as [| | |[jobs|]]; eexists; exists token;
      split; reflexivity.
  - destruct (Z.eqb_spec status 401) as [->|Hne401].
    + elim (Hnot body). reflexivity.
    + exists [], token. split; reflexivity.
Qed.

End UsableToken.

(** X20. A cycle that starts with a usable token and whose listings
    request is not answered 401 stays off the hiring page: it sends that
    one request and, after it, messages to Telegram only; it makes no
    launch, no visit and no test request, and the stored token, its expiry
    and the browser are as before. *)
Theorem usable_token_cycle_stays_off_the_page
    (base64_utf8 : string -> string) (JSON_parse : string -> option json)
    (v : Variant) (env : Env) (fuel : nat) (s : State)
    (emitted : list Job) (s' : State) :
  isTokenExpired v s = false ->
  (forall body, listings env (fetches s) <> Reply 401 body) ->
  pollForJobs base64_utf8 JSON_parse v env (S fuel) s = Ret emitted s' ->
  (exists token new,
      trace s' = (new ++ Fetched token (clock s) (tokenExpiryTime s)
                          (listings env (fetches s)) :: trace s)%list
      /\ currentAuthToken s = Some token
      /\ Forall dispatching new)
  /\ fetches s' = S (fetches s)
  /\ visits s' = visits s
  /\ launches s' = launches s
  /\ probes s' = probes s
  /\ credential s' = credential s.
Proof.
  intros Hfresh Hnot.
  destruct (fetchAmazonJobs_once base64_utf8 JSON_parse v env fuel s Hfresh
              Hnot) as (jobs & token & Htoken & Hfetch).
  set (s1 := emit (Fetched token (clock s) (tokenExpiryTime s)
                     (listings env (fetches s))) s) in *.
  assert (Hdone : forall s2,
    extends dispatching (trace s1) (trace s2) ->
    credential s2 = credential s1 ->
    (exists token0 new,
        trace s2 = (new ++ Fetched token0 (clock s) (tokenExpiryTime s)
                            (listings env (fetches s)) :: trace s)%list
        /\ currentAuthToken s = Some token0
        /\ Forall dispatching new)
    /\ fetches s2 = S (fetches s)
    /\ visits s2 = visits s
    /\ launches s2 = launches s
    /\ probes s2 = probes s
    /\ credential s2 = credential s).
  { intros s2 Hext Hcred. split.
    - apply extends_app in Hext as (new & Hnew & Hall).
      exists token, new. repeat split; trivial.
    - assert (Hcount : forall p, (forall e, dispatching e -> p e = false) ->
                                 count p s2 = count p s1)
        by (intros p Hp; eapply extends_count; eassumption).
      repeat split.
      + unfold fetches. rewrite Hcount; [reflexivity|].
        intros []; simpl; tauto.
      + unfold visits. rewrite Hcount; [reflexivity|].
        intros []; simpl; tauto.
      + unfold launches. rewrite Hcount; [reflexivity|].
        intros []; simpl; tauto.
      + unfold probes. rewrite Hcount; [reflexivity|].
        intros []; simpl; tauto.
      + rewrite Hcred. reflexivity. }
  unfold pollForJobs, try_catch. unfold bind at 1. rewrite Hfetch.
  destruct (List.length jobs =? 0)%nat.
  { intros E. inversion E; subst. apply Hdone; [constructor|reflexivity]. }
  unfold bind at 1, gets.
  destruct (0 <? List.length (unseen (seenJobIds s1) jobs))%nat.
  2:{ intros E. inversion E; subst. apply Hdone; [constructor|reflexivity]. }
  unfold bind at 1, modify. unfold bind at 1.
  set (s2 := set_seen _ s1).
  assert (H2 : trace s2 = trace s1) by reflexivity.
  assert (C2 : credential s2 = credential s1) by reflexivity.
  clearbody s2.
  set (new := unseen (seenJobIds s1) jobs).
  assert (Hsend : emits dispatching (sendTelegramAlert v env (S fuel) new)).
  { unfold sendTelegramAlert. apply emits_try; [|intros; apply emits_ret].
    destruct (_ || _); [apply emits_ret|apply sendLoop_dispatching]. }
  assert (Hkeep : keeps credential (sendTelegramAlert v env (S fuel) new)).
  { unfold sendTelegramAlert. apply keeps_try; [|intros; apply keeps_ret].
    destruct (_ || _); [apply keeps_ret|apply sendLoop_keeps_credential]. }
  specialize (Hsend s2). specialize (Hkeep s2).
  pose proof (sendTelegramAlert_no_throw v env (S fuel) new s2) as Hcaught.
  destruct (sendTelegramAlert v env (S fuel) new s2) as [[] s3|e s3|];
    [| |discriminate].
  2:{ exfalso. eapply Hcaught. reflexivity. }
  rewrite H2 in Hsend. rewrite C2 in Hkeep.
  destruct (trims_seen v); unfold bind, modify; mred;
    intros E; inversion E; subst; apply Hdone; assumption.
Qed.

(** A cycle in steady state that alerts about J1 and J2. *)
Lemma usable_token_cycle_stays_off_the_page_witness :
  fetches after_first_cycle = 1%nat
  /\ visits after_first_cycle = 0%nat
  /\ launches after_first_cycle = 0%nat
  /\ probes after_first_cycle = 0%nat
  /\ credential after_first_cycle = credential (steady []).
Proof.
  apply (usable_token_cycle_stays_off_the_page as_is exp_only
           auto_token_monitor (calm [J1; J2]) 7 (steady []) [J1; J2]
           after_first_cycle).
  - reflexivity.
  - intros body. discriminate.
  - vm_compute. reflexivity.
Defined.

(** ** One browser, or a fresh one for every visit *)

Lemma launched_before_visit_trans (l1 l2 l3 : list effect) :
  launched_before_visit l1 l2 -> launched_before_visit l2 l3 ->
  launched_before_visit l1 l3.
Proof.
  intros H12 H23. induction H23; [assumption| |]; constructor; assumption.
Qed.

Section FreshBrowser.
Variable env : Env.

Lemma attempt_launches_before_visit (b : bool) (s : State) :
  match
    try_catch
      (TokenExtractor.initializeFreshBrowser env ;;
       token <- TokenExtractor.extractAuthToken env ;;
       validation <- TokenExtractor.validateTokenWithServer env token ;;
       match validation with
       | Some valid => ret (Some valid)
       | None => (if b then wait 10000 else ret tt) ;; ret None
       end)
      (fun _ => (if b then wait 10000 else ret tt) ;; ret None) s
  with
  | Ret _ s1 => launched_before_visit (trace s) (trace s1)
  | Throw _ _ => False
  | OutOfFuel => False
  end.
Proof.
  unfold try_catch, bind, TokenExtractor.initializeFreshBrowser,
    TokenExtractor.extractAuthToken, try_catch, bind, goto, wait, modify,
    TokenExtractor.validateTokenWithServer.
  destruct (browser s) eqn:Hb; destruct b;
    repeat (mred; cbn [browser set_browser emit negb];
            match goal with
            | |- context [launch_ok env ?n] => destruct (launch_ok env n)
            | |- context [visit env ?n] =>
                destruct (visit env n) as [|ls ss]
            | |- context [evaluate ?page] =>
                destruct (evaluate page) as [token|]
            | |- context [String.eqb ?token ""] =>
                destruct (String.eqb token "")
            | |- context [probe env ?n] =>
                destruct (probe env n) as [|status []]
            | |- context [?status =? 200] => destruct (status =? 200)
            end);
    mred; cbn [trace emit set_browser advance];
    repeat (first [ apply lbv_same
                  | apply lbv_visit
                  | apply lbv_other; [reflexivity|] ]).
Qed.

Lemma getValidToken_loop_launches_before_visit maxRetries fuel :
  forall attempts s,
  match TokenExtractor.getValidToken_loop env fuel attempts maxRetries s with
  | Ret _ s' => launched_before_visit (trace s) (trace s')
  | Throw _ s' => launched_before_visit (trace s) (trace s')
  | OutOfFuel => True
  end.
Proof.
  induction fuel as [|fuel IH]; intros attempts s; [exact I|].
  cbn [TokenExtractor.getValidToken_loop].
  destruct (attempts <? maxRetries)%nat; [|constructor].
  cbv zeta. unfold bind at 1.
  pose proof (attempt_launches_before_visit (S attempts <? maxRetries)%nat s)
    as Hone.
  match type of Hone with match ?m with _ => _ end =>
    destruct m as [[token|] s1|e s1|] end; try contradiction.
  - exact Hone.
  - specialize (IH (S attempts) s1).
    destruct (TokenExtractor.getValidToken_loop env fuel (S attempts)
                maxRetries s1) as [token s'|e s'|]; trivial;
      eapply launched_before_visit_trans; eassumption.
Qed.

End FreshBrowser.

(** X21. [getValidToken] visits the page in a fresh browser each time:
    every visit it makes comes right after a successful launch, so that no
    two visits share a browser. *)
Theorem getValidToken_visits_in_a_fresh_browser (env : Env)
    (maxRetries : nat) (s : State) :
  match TokenExtractor.getValidToken env maxRetries s with
  | Ret _ s' => launched_before_visit (trace s) (trace s')
  | Throw _ s' => launched_before_visit (trace s) (trace s')
  | OutOfFuel => False
  end.
Proof.
  unfold TokenExtractor.getValidToken.
  pose proof (getValidToken_loop_launches_before_visit env maxRetries
                (S maxRetries) 0 s) as H.
  pose proof (getValidToken_loop_cost env maxRetries (S maxRetries) 0 s)
    as Hends.
  destruct (TokenExtractor.getValidToken_loop env (S maxRetries) 0 maxRetries
              s); trivial.
  apply Hends; lia.
Qed.

(** Three passes against an API that rejects every verification: launch,
    visit, wait and probe, three times, each launch closing the browser of
    the pass before. *)
Lemma getValidToken_visits_in_a_fresh_browser_witness :
  exists s',
    TokenExtractor.getValidToken distrusted 3 fresh
    = Throw FailedToObtainToken s'
    /\ launched_before_visit (trace fresh) (trace s')
    /\ visits s' = 3%nat
    /\ launches s' = 3%nat.
Proof.
  pose proof (getValidToken_visits_in_a_fresh_browser distrusted 3 fresh)
    as H.
  assert (E : exists s',
    TokenExtractor.getValidToken distrusted 3 fresh
    = Throw FailedToObtainToken s'
    /\ visits s' = 3%nat /\ launches s' = 3%nat)
    by (vm_compute; eexists; repeat split; reflexivity).
  destruct E as (s' & E & Hv & Hl). rewrite E in H.
  exists s'. repeat split; trivial.
Defined.

Section OneBrowser.
Variable base64_utf8 : string -> string.
Variable JSON_parse : string -> option json.
Variable v : Variant.
Variable env : Env.

Lemma fire_stays_up fuel t :
  within stays_up (fire base64_utf8 JSON_parse v env fuel t).
Proof.
  destruct t; cbn [fire].
  - apply within_bind; [apply pollForJobs_stays_up|intros; apply within_ret].
  - unfold refreshTick. apply within_try; [|intros; apply within_ret].
    apply within_bind; [apply refreshAuthToken_stays_up
                       |intros; apply within_ret].
  - apply within_ret.
  - destruct (clear_timer v); [|apply within_ret].
    intros s. split; auto.
Qed.

Lemma run_stays_up fuel timers :
  within stays_up (run base64_utf8 JSON_parse v env fuel timers).
Proof.
  induction timers as [|t rest IH]; cbn [run]; [apply within_ret|].
  apply within_bind; [apply fire_stays_up|intros; exact IH].
Qed.

End OneBrowser.

(** X22. Once its browser is open the monitor keeps that one browser:
    whatever timers fire afterwards and however often, no further browser
    is launched and the browser stays open, and a token, once stored, is
    never removed. *)
Theorem running_monitor_keeps_one_browser
    (base64_utf8 : string -> string) (JSON_parse : string -> option json)
    (v : Variant) (env : Env) (fuel : nat) (timers : list timer)
    (s s' : State) :
  run base64_utf8 JSON_parse v env fuel timers s = Ret tt s' ->
  browser s = true ->
  browser s' = true
  /\ launches s' = launches s
  /\ (equipped s -> equipped s').
Proof.
  intros Hrun Hb.
  pose proof (run_stays_up base64_utf8 JSON_parse v env fuel timers s) as H.
  rewrite Hrun in H. destruct H as (Hbrowser & Htoken).
  destruct (Hbrowser Hb) as (Hb' & Hl). repeat split; trivial.
Qed.

(** A poll, a refresh of the token, a clearing of the seen set and another
    poll in steady state: still no launch. *)
Lemma running_monitor_keeps_one_browser_witness :
  exists s',
    run as_is exp_only auto_token_monitor (calm [J1; J2]) 8
      [PollTimer; RefreshTimer; ClearTimer; PollTimer] (steady []) = Ret tt s'
    /\ browser s' = true
    /\ launches s' = 0%nat
    /\ visits s' = 1%nat.
Proof.
  assert (E : exists s',
    run as_is exp_only auto_token_monitor (calm [J1; J2]) 8
      [PollTimer; RefreshTimer; ClearTimer; PollTimer] (steady []) = Ret tt s'
    /\ visits s' = 1%nat) by (vm_compute; eexists; split; reflexivity).
  destruct E as (s' & E & Hv).
  destruct (running_monitor_keeps_one_browser as_is exp_only
              auto_token_monitor (calm [J1; J2]) 8 _ (steady []) s' E
              eq_refl) as (Hb & Hl & _).
  exists s'. repeat split; trivial.
Defined.
